(** * INDM download engine: a shallow embedding of [src/downloader.ts]

    The development follows the class [Downloader]: file-name resolution
    ([sanitizeFileName], [getFileNameFromUrl], the constructor), the chunk
    planner ([downloadParallel]), the segment worker and its retry
    supervisor ([downloadChunk], [downloadChunkWithRetry]) and the job
    controller ([start], [pause], [saveState]); then the part of the main
    process that the same file holds: the history catalog
    ([HistoryManager], the handlers of [delete-entry] and [clear-history]),
    [startDownload] with its listeners, and the resume from a saved record.

    Conventions.
    - A JavaScript string is the list of its UTF-16 code units ([jsstring]);
      [lit] turns a literal into one.
    - A JavaScript number that holds a byte count, an index or a time stamp
      is an integer of [Z]: the source computes with doubles, which are
      exact on integers up to 2^53. The planner is also given with the
      rounding of double precision ([plan64]); [plan64_exact] shows that
      the two agree up to 2^53, and the statements about all sizes and
      connection counts carry that bound.
    - A slot of [downloadedBytesPerChunk] is a [cell]: a number, [NaN], or
      a hole of the array.
    - [async] code is cut at its [await]s: each piece is a function on the
      state, and what arrives at an [await] is a label of the controller's
      step function or an item of a worker's script. *)

From Stdlib Require Import ZArith NArith List Lia Bool.
From Stdlib Require Import Strings.String Strings.Ascii.
From Stdlib Require Import QArith Qminmax.
From Stdlib Require Floats.SpecFloat.
From stdpp Require Import base list relations.
Import ListNotations.

Local Open Scope Z_scope.

(** ** JavaScript strings *)

Module JS.

Definition jsstring := list N.

Definition lit (s : string) : jsstring :=
  map N_of_ascii (list_ascii_of_string s).

Definition len (s : jsstring) : Z := Z.of_nat (length s).

(** [s.charCodeAt(i)] for [0 <= i < s.length]. *)
Definition charCodeAt (s : jsstring) (i : nat) : N := nth i s 0%N.

(** [s.slice(a, b)] for [0 <= a] and [0 <= b]. *)
Definition slice (s : jsstring) (a b : Z) : jsstring :=
  take (Z.to_nat (b - a)) (drop (Z.to_nat a) s).

(** [s.substring(0, k)]: a negative [k] counts as 0, a large one as the
    length. *)
Definition substring0 (s : jsstring) (k : Z) : jsstring :=
  take (Z.to_nat k) s.

Definition str_eqb (a b : jsstring) : bool :=
  bool_decide (a = b).

(** Truthiness of a string: the empty string is falsy. *)
Definition truthy_str (s : jsstring) : bool :=
  match s with [] => false | _ :: _ => true end.

Fixpoint starts_with (p s : jsstring) : bool :=
  match p, s with
  | [], _ => true
  | _ :: _, [] => false
  | a :: p', b :: s' => N.eqb a b && starts_with p' s'
  end.

End JS.
Export JS.

(** ** Node's [path] module (POSIX flavour)

    [path.extname] and [path.basename] are library code; they are written
    here after the loops of Node's [lib/path.js], index by index, because
    [sanitizeFileName] depends on what they return. [sanitizeFileName]
    calls them on a name that has no slash, backslash or colon left, where
    the Windows flavour of the module returns the same strings. *)

Module NodePath.

Definition CHAR_FORWARD_SLASH : N := 47.
Definition CHAR_DOT : N := 46.

Record ext_scan := {
  startDot : Z;
  startPart : Z;
  ext_end : Z;
  ext_matchedSlash : bool;
  preDotState : Z
}.

Definition ext_init : ext_scan :=
  {| startDot := -1; startPart := 0; ext_end := -1;
     ext_matchedSlash := true; preDotState := 0 |}.

(** The loop [for (i = path.length - 1; i >= 0; --i)] of [extname]; [n] is
    [i + 1]. *)
Fixpoint extname_loop (path : jsstring) (n : nat) (st : ext_scan) : ext_scan :=
  match n with
  | O => st
  | S i =>
    let code := charCodeAt path i in
    if N.eqb code CHAR_FORWARD_SLASH then
      if negb (ext_matchedSlash st) then
        (* startPart = i + 1; break *)
        {| startDot := startDot st; startPart := Z.of_nat i + 1;
           ext_end := ext_end st; ext_matchedSlash := ext_matchedSlash st;
           preDotState := preDotState st |}
      else extname_loop path i st
    else
      let st1 :=
        if ext_end st =? -1 then
          {| startDot := startDot st; startPart := startPart st;
             ext_end := Z.of_nat i + 1; ext_matchedSlash := false;
             preDotState := preDotState st |}
        else st in
      let st2 :=
        if N.eqb code CHAR_DOT then
          if startDot st1 =? -1 then
            {| startDot := Z.of_nat i; startPart := startPart st1;
               ext_end := ext_end st1; ext_matchedSlash := ext_matchedSlash st1;
               preDotState := preDotState st1 |}
          else if negb (preDotState st1 =? 1) then
            {| startDot := startDot st1; startPart := startPart st1;
               ext_end := ext_end st1; ext_matchedSlash := ext_matchedSlash st1;
               preDotState := 1 |}
          else st1
        else if negb (startDot st1 =? -1) then
          {| startDot := startDot st1; startPart := startPart st1;
             ext_end := ext_end st1; ext_matchedSlash := ext_matchedSlash st1;
             preDotState := -1 |}
        else st1 in
      extname_loop path i st2
  end.

Definition extname (path : jsstring) : jsstring :=
  let st := extname_loop path (length path) ext_init in
  if (startDot st =? -1) || (ext_end st =? -1) || (preDotState st =? 0)
     || ((preDotState st =? 1) && (startDot st =? ext_end st - 1)
         && (startDot st =? startPart st + 1))
  then []
  else slice path (startDot st) (ext_end st).

Record base_scan := {
  b_start : Z;
  b_end : Z;
  b_matchedSlash : bool;
  extIdx : Z;
  firstNonSlashEnd : Z
}.

Definition base_init (extIdx0 : Z) : base_scan :=
  {| b_start := 0; b_end := -1; b_matchedSlash := true;
     extIdx := extIdx0; firstNonSlashEnd := -1 |}.

(** The loop of [basename(path)] (no suffix given, or an empty one). *)
Fixpoint basename_loop (path : jsstring) (n : nat) (st : base_scan) : base_scan :=
  match n with
  | O => st
  | S i =>
    if N.eqb (charCodeAt path i) CHAR_FORWARD_SLASH then
      if negb (b_matchedSlash st) then
        {| b_start := Z.of_nat i + 1; b_end := b_end st;
           b_matchedSlash := b_matchedSlash st; extIdx := extIdx st;
           firstNonSlashEnd := firstNonSlashEnd st |}
      else basename_loop path i st
    else if b_end st =? -1 then
      basename_loop path i
        {| b_start := b_start st; b_end := Z.of_nat i + 1;
           b_matchedSlash := false; extIdx := extIdx st;
           firstNonSlashEnd := firstNonSlashEnd st |}
    else basename_loop path i st
  end.

(** The loop of [basename(path, suffix)] for a non-empty suffix no longer
    than the path. *)
Fixpoint basename_suffix_loop (path suffix : jsstring) (n : nat) (st : base_scan)
  : base_scan :=
  match n with
  | O => st
  | S i =>
    let code := charCodeAt path i in
    if N.eqb code CHAR_FORWARD_SLASH then
      if negb (b_matchedSlash st) then
        {| b_start := Z.of_nat i + 1; b_end := b_end st;
           b_matchedSlash := b_matchedSlash st; extIdx := extIdx st;
           firstNonSlashEnd := firstNonSlashEnd st |}
      else basename_suffix_loop path suffix i st
    else
      let st1 :=
        if firstNonSlashEnd st =? -1 then
          {| b_start := b_start st; b_end := b_end st;
             b_matchedSlash := false; extIdx := extIdx st;
             firstNonSlashEnd := Z.of_nat i + 1 |}
        else st in
      let st2 :=
        if 0 <=? extIdx st1 then
          if N.eqb code (charCodeAt suffix (Z.to_nat (extIdx st1))) then
            (* if (--extIdx === -1) end = i *)
            {| b_start := b_start st1;
               b_end := if extIdx st1 - 1 =? -1 then Z.of_nat i else b_end st1;
               b_matchedSlash := b_matchedSlash st1;
               extIdx := extIdx st1 - 1;
               firstNonSlashEnd := firstNonSlashEnd st1 |}
          else
            {| b_start := b_start st1; b_end := firstNonSlashEnd st1;
               b_matchedSlash := b_matchedSlash st1; extIdx := -1;
               firstNonSlashEnd := firstNonSlashEnd st1 |}
        else st1 in
      basename_suffix_loop path suffix i st2
  end.

Definition basename (path : jsstring) (suffix : option jsstring) : jsstring :=
  match suffix with
  | Some sfx =>
    if (0 <? len sfx) && (len sfx <=? len path) then
      if str_eqb sfx path then []
      else
        let st := basename_suffix_loop path sfx (length path)
                    (base_init (len sfx - 1)) in
        let e :=
          if b_start st =? b_end st then firstNonSlashEnd st
          else if b_end st =? -1 then len path
          else b_end st in
        slice path (b_start st) e
    else
      let st := basename_loop path (length path) (base_init 0) in
      if b_end st =? -1 then [] else slice path (b_start st) (b_end st)
  | None =>
    let st := basename_loop path (length path) (base_init 0) in
    if b_end st =? -1 then [] else slice path (b_start st) (b_end st)
  end.

End NodePath.

(** ** File-name sanitisation (downloader.ts, lines 100-108) *)

(** The character class [[a-zA-Z0-9._-]]. *)
Definition allowed_char (c : N) : bool :=
  ((97 <=? c) && (c <=? 122) || (65 <=? c) && (c <=? 90)
   || (48 <=? c) && (c <=? 57) || (c =? 46) || (c =? 95) || (c =? 45))%N.

Definition UNDERSCORE : N := 95.

(** [name.replace(/[^a-zA-Z0-9._-]/g, '_')]: the pattern has no [u] flag,
    so it works code unit by code unit. *)
Definition replace_disallowed (name : jsstring) : jsstring :=
  map (fun c => if allowed_char c then c else UNDERSCORE) name.

Definition sanitizeFileName (name : jsstring) : jsstring :=
  let name := replace_disallowed name in
  if 100 <? len name then
    let ext := NodePath.extname name in
    let base := NodePath.basename name (Some ext) in
    substring0 base (100 - len ext) ++ ext
  else name.

(** ** What the engine takes from its platform *)

(** The pieces of the runtime the engine calls and that are not its own
    code: the WHATWG URL parser ([new URL(url).pathname], [None] when the
    constructor throws), [path.join], and [parseInt(s, 10)] on the size
    header of the probe. A header without leading digits, for which
    [parseInt] returns [NaN], is outside the model: [totalBytes] is an
    integer here. *)
Record Env := {
  URL_pathname : jsstring -> option jsstring;
  path_join : jsstring -> jsstring -> jsstring;
  parseInt10 : jsstring -> Z
}.

(** ** Exceptions *)

Inductive res (A : Type) : Type :=
| Ret (a : A)
| Throw (msg : jsstring).
Arguments Ret {A} a.
Arguments Throw {A} msg.

Definition bind {A B} (m : res A) (k : A -> res B) : res B :=
  match m with Ret a => k a | Throw e => Throw e end.

Definition try_catch {A} (m : res A) (handler : jsstring -> res A) : res A :=
  match m with Ret a => Ret a | Throw e => handler e end.

Definition is_ret {A} (m : res A) : bool :=
  match m with Ret _ => true | Throw _ => false end.

(** ** Slots of the progress vector *)

Inductive cell : Type :=
| Num (z : Z)
| NaN
| Hole.

(** [c || 0] on a slot read from the array (a hole reads as [undefined]). *)
Definition cell_or_zero (c : option cell) : Z :=
  match c with
  | Some (Num z) => z
  | _ => 0
  end.

(** [c + n] for a number [n]; [undefined + n] is [NaN]. *)
Definition cell_add (c : option cell) (n : Z) : cell :=
  match c with
  | Some (Num z) => Num (z + n)
  | _ => NaN
  end.

(** [arr[i] = v]: writing past the end extends the array with holes. *)
Definition array_set (arr : list cell) (i : nat) (v : cell) : list cell :=
  if (i <? length arr)%nat then <[i := v]> arr
  else arr ++ repeat Hole (i - length arr) ++ [v].

(** [a + b] on two slots that are not holes. *)
Definition cell_plus (a b : cell) : cell :=
  match a, b with
  | Num x, Num y => Num (x + y)
  | _, _ => NaN
  end.

(** [arr.reduce((a, b) => a + b, 0)]: [reduce] skips the holes. *)
Definition sum_cells (arr : list cell) : cell :=
  fold_left (fun acc c => match c with Hole => acc | _ => cell_plus acc c end)
            arr (Num 0).

(** ** The class [Downloader] (downloader.ts, lines 8-81) *)

Record DownloaderOptions := {
  opt_numConnections : option Z;
  opt_uuid : option jsstring;
  opt_stateDir : option jsstring;
  opt_fileName : option jsstring;
  opt_downloadedBytesPerChunk : option (list cell);
  opt_totalBytes : option Z
}.

Record DownloadState := {
  st_url : jsstring;
  st_outputDir : jsstring;
  st_fileName : jsstring;
  st_totalBytes : Z;
  st_downloadedBytesPerChunk : list cell;
  st_numConnections : Z;
  st_uuid : jsstring;
  st_stateDir : jsstring
}.

(** The fields of the object that the engine reads and writes. The two
    agents and the fields that only feed the speed figure of a progress
    event ([lastSpeedUpdate], [lastDownloadedSize]) are left out;
    [aborted] is [abortController.signal.aborted]. *)
Record Downloader := {
  url : jsstring;
  outputDir : jsstring;
  numConnections : Z;
  uuid : jsstring;
  stateDir : jsstring;
  fileName : jsstring;
  finalFilePath : jsstring;
  tempFilePath : jsstring;
  downloadedBytesPerChunk : list cell;
  totalBytes : Z;
  startTime : Z;
  lastTickTime : Z;
  aborted : bool;
  isPaused : bool;
  stateFilePath : jsstring;
  lastSaveTime : Z
}.

Definition set_fileName (v : jsstring) (d : Downloader) : Downloader :=
  {| url := url d; outputDir := outputDir d; numConnections := numConnections d;
     uuid := uuid d; stateDir := stateDir d; fileName := v;
     finalFilePath := finalFilePath d; tempFilePath := tempFilePath d;
     downloadedBytesPerChunk := downloadedBytesPerChunk d;
     totalBytes := totalBytes d; startTime := startTime d;
     lastTickTime := lastTickTime d; aborted := aborted d;
     isPaused := isPaused d; stateFilePath := stateFilePath d;
     lastSaveTime := lastSaveTime d |}.

Definition set_paths (final temp : jsstring) (d : Downloader) : Downloader :=
  {| url := url d; outputDir := outputDir d; numConnections := numConnections d;
     uuid := uuid d; stateDir := stateDir d; fileName := fileName d;
     finalFilePath := final; tempFilePath := temp;
     downloadedBytesPerChunk := downloadedBytesPerChunk d;
     totalBytes := totalBytes d; startTime := startTime d;
     lastTickTime := lastTickTime d; aborted := aborted d;
     isPaused := isPaused d; stateFilePath := stateFilePath d;
     lastSaveTime := lastSaveTime d |}.

Definition set_downloadedBytesPerChunk (v : list cell) (d : Downloader)
  : Downloader :=
  {| url := url d; outputDir := outputDir d; numConnections := numConnections d;
     uuid := uuid d; stateDir := stateDir d; fileName := fileName d;
     finalFilePath := finalFilePath d; tempFilePath := tempFilePath d;
     downloadedBytesPerChunk := v;
     totalBytes := totalBytes d; startTime := startTime d;
     lastTickTime := lastTickTime d; aborted := aborted d;
     isPaused := isPaused d; stateFilePath := stateFilePath d;
     lastSaveTime := lastSaveTime d |}.

Definition set_totalBytes (v : Z) (d : Downloader) : Downloader :=
  {| url := url d; outputDir := outputDir d; numConnections := numConnections d;
     uuid := uuid d; stateDir := stateDir d; fileName := fileName d;
     finalFilePath := finalFilePath d; tempFilePath := tempFilePath d;
     downloadedBytesPerChunk := downloadedBytesPerChunk d;
     totalBytes := v; startTime := startTime d;
     lastTickTime := lastTickTime d; aborted := aborted d;
     isPaused := isPaused d; stateFilePath := stateFilePath d;
     lastSaveTime := lastSaveTime d |}.

Definition set_clock (start tick save : Z) (d : Downloader) : Downloader :=
  {| url := url d; outputDir := outputDir d; numConnections := numConnections d;
     uuid := uuid d; stateDir := stateDir d; fileName := fileName d;
     finalFilePath := finalFilePath d; tempFilePath := tempFilePath d;
     downloadedBytesPerChunk := downloadedBytesPerChunk d;
     totalBytes := totalBytes d; startTime := start;
     lastTickTime := tick; aborted := aborted d;
     isPaused := isPaused d; stateFilePath := stateFilePath d;
     lastSaveTime := save |}.

Definition set_flags (abort paused : bool) (d : Downloader) : Downloader :=
  {| url := url d; outputDir := outputDir d; numConnections := numConnections d;
     uuid := uuid d; stateDir := stateDir d; fileName := fileName d;
     finalFilePath := finalFilePath d; tempFilePath := tempFilePath d;
     downloadedBytesPerChunk := downloadedBytesPerChunk d;
     totalBytes := totalBytes d; startTime := startTime d;
     lastTickTime := lastTickTime d; aborted := abort;
     isPaused := paused; stateFilePath := stateFilePath d;
     lastSaveTime := lastSaveTime d |}.

(** [o || d] for an optional number: [undefined] and [0] are falsy. *)
Definition num_or (o : option Z) (d : Z) : Z :=
  match o with
  | Some z => if z =? 0 then d else z
  | None => d
  end.

(** [o || d] for an optional string: [undefined] and [''] are falsy. *)
Definition str_or (o : option jsstring) (d : jsstring) : jsstring :=
  match o with
  | Some s => if truthy_str s then s else d
  | None => d
  end.

Definition MAX_ARRAY_LENGTH : Z := 4294967295.

(** [new Array(n).fill(0)]; [new Array] throws a [RangeError] outside
    [0 .. 2^32 - 1]. *)
Definition new_Array_fill0 (n : Z) : res (list cell) :=
  if (0 <=? n) && (n <=? MAX_ARRAY_LENGTH) then Ret (replicate (Z.to_nat n) (Num 0))
  else Throw (lit "Invalid array length").

Definition DEFAULT_NAME : jsstring := lit "downloaded_file".
Definition PART_SUFFIX : jsstring := lit ".part".
Definition JSON_SUFFIX : jsstring := lit ".json".
Definition NO_SIZE_MESSAGE : jsstring := lit "Cannot determine file size.".
Definition maxRetries : Z := 10.

(** ** The [Content-Disposition] pattern (line 129)

    The pattern is [filename=], an optional double quote, group 1 made of
    one or more characters other than the double quote, and an optional
    double quote. It matches at the leftmost place where [filename=] occurs
    and the rest can match; group 1 is then the longest run of characters
    other than the quote. *)

Definition QUOTE : N := 34.
Definition FILENAME_EQ : jsstring := lit "filename=".

Fixpoint non_quote_run (s : jsstring) : jsstring :=
  match s with
  | [] => []
  | c :: t => if N.eqb c QUOTE then [] else c :: non_quote_run t
  end.

(** The part of the pattern after [filename=], tried at [s]. *)
Definition match_after_eq (s : jsstring) : option jsstring :=
  match s with
  | [] => None
  | c :: t =>
    if N.eqb c QUOTE then
      match non_quote_run t with
      | [] => None
      | g => Some g
      end
    else Some (non_quote_run s)
  end.

Fixpoint match_filename (s : jsstring) : option jsstring :=
  match s with
  | [] => None
  | _ :: t =>
    if starts_with FILENAME_EQ s then
      match match_after_eq (drop (length FILENAME_EQ) s) with
      | Some g => Some g
      | None => match_filename t
      end
    else match_filename t
  end.

(** ** The chunk planner (lines 211-228) *)

(** The arguments of one call [downloadChunkWithRetry(i, currentStart, end)]. *)
Record dispatch := {
  seg_index : Z;
  seg_start : Z;
  seg_end : Z
}.

(** The body of the [for] loop at index [i]. *)
Definition plan_segment (T N chunkSize : Z) (vec : list cell) (i : Z)
  : option dispatch :=
  let start := i * chunkSize in
  let end_ := if i =? N - 1 then T - 1 else start + chunkSize - 1 in
  let downloaded := cell_or_zero (vec !! Z.to_nat i) in
  let currentStart := start + downloaded in
  if currentStart <=? end_ then
    Some {| seg_index := i; seg_start := currentStart; seg_end := end_ |}
  else None.

(** The calls pushed to [promises], in order. [Math.floor(T / N)] is
    [T / N] of [Z] for the [N >= 1] that let the loop run. *)
Definition plan (T N : Z) (vec : list cell) : list dispatch :=
  let chunkSize := T / N in
  omap (plan_segment T N chunkSize vec) (seqZ 0 N).

Definition downloadParallel_plan (d : Downloader) : list dispatch :=
  plan (totalBytes d) (numConnections d) (downloadedBytesPerChunk d).

(** The planned range of segment [i], before any progress is applied. *)
Definition segment_start (T N i : Z) : Z := i * (T / N).
Definition segment_end (T N i : Z) : Z :=
  if i =? N - 1 then T - 1 else segment_start T N i + T / N - 1.
Definition segment_size (T N i : Z) : Z :=
  segment_end T N i - segment_start T N i + 1.

Definition covers (s : dispatch) (b : Z) : Prop :=
  seg_start s <= b <= seg_end s.

(** ** The planner's arithmetic in double precision

    The numbers of lines 212-222 are doubles. On integers, [+], [-] and [*]
    give the double nearest to the exact result, ties going to the even
    significand; [/] does the same with the exact quotient, and
    [Math.floor] then takes the integer part. Overflow, which needs
    magnitudes of 2^1024, is left out. *)

(** Every integer up to [2^53] in magnitude is a double
    ([Number.MAX_SAFE_INTEGER] is one less). *)
Definition MAX_EXACT_INTEGER : Z := 2 ^ 53.

(** [num / den] rounded to the nearest integer, ties to the even one, for
    [den > 0]. *)
Definition nearest_even (num den : Z) : Z :=
  let q := num / den in
  let r := num mod den in
  if 2 * r <? den then q
  else if den <? 2 * r then q + 1
  else if Z.even q then q else q + 1.

(** The double nearest to the integer [z]: beyond [2^53] the 53 leading
    bits are kept and the [k] bits below them are rounded away. *)
Definition round64 (z : Z) : Z :=
  let a := Z.abs z in
  if a <=? MAX_EXACT_INTEGER then z
  else
    let k := Z.log2 a - 52 in
    Z.sgn z * (nearest_even a (2 ^ k) * 2 ^ k).

(** The exponent [e] that puts the quotient of [a >= 1] by [b >= 1] in
    [[2^52 * 2^e, 2^53 * 2^e)], where [2^e] is the gap between doubles. *)
Definition quotient_exponent (a b : Z) : Z :=
  let l := Z.log2 a - Z.log2 b in
  let below := if 0 <=? l then a <? b * 2 ^ l else a * 2 ^ (- l) <? b in
  (if below then l - 1 else l) - 52.

(** [Math.floor(a / b)] for integers [a] and [b >= 1] held in doubles: the
    quotient is rounded to a double, a multiple [m * 2^e] of the gap,
    before the floor is taken. *)
Definition floor_div64 (a b : Z) : Z :=
  if a =? 0 then 0
  else
    let e := quotient_exponent (Z.abs a) b in
    let m := if 0 <=? e then nearest_even (Z.abs a) (b * 2 ^ e)
             else nearest_even (Z.abs a * 2 ^ (- e)) b in
    let v := Z.sgn a * m in
    if 0 <=? e then v * 2 ^ e else v / 2 ^ (- e).

(** The body of the [for] loop at index [i], every operation rounded. *)
Definition plan_segment64 (T N chunkSize : Z) (vec : list cell) (i : Z)
  : option dispatch :=
  let start := round64 (i * chunkSize) in
  let end_ := if i =? round64 (N - 1) then round64 (T - 1)
              else round64 (round64 (start + chunkSize) - 1) in
  let downloaded := cell_or_zero (vec !! Z.to_nat i) in
  let currentStart := round64 (start + downloaded) in
  if currentStart <=? end_ then
    Some {| seg_index := i; seg_start := currentStart; seg_end := end_ |}
  else None.

(** The calls pushed to [promises] when the loop computes in doubles; the
    counter [i] itself is exact for the [N <= 2^53] that let the loop end. *)
Definition plan64 (T N : Z) (vec : list cell) : list dispatch :=
  let chunkSize := floor_div64 T N in
  omap (plan_segment64 T N chunkSize vec) (seqZ 0 N).

(** The same operations in the Standard Library's reference semantics of
    IEEE 754 binary64 (53 bits of precision, exponents below 1024), to
    compare the definitions above with. *)
Definition binary64_of_Z (z : Z) : SpecFloat.spec_float :=
  SpecFloat.binary_normalize 53 1024 z 0 false.

Definition floor_of_binary64 (x : SpecFloat.spec_float) : option Z :=
  match x with
  | SpecFloat.S754_zero _ => Some 0
  | SpecFloat.S754_finite sign m e =>
    let v := if sign then - Z.pos m else Z.pos m in
    Some (if 0 <=? e then v * 2 ^ e else v / 2 ^ (- e))
  | _ => None
  end.

Definition reference_round (z : Z) : option Z :=
  floor_of_binary64 (binary64_of_Z z).

Definition reference_floor_div (a b : Z) : option Z :=
  floor_of_binary64 (SpecFloat.SFdiv 53 1024 (binary64_of_Z a) (binary64_of_Z b)).

(** ** Events and effects *)

(** What the observer receives. The speed figure of a progress event (a
    floating-point quotient) is not part of the payload here. *)
Inductive event : Type :=
| EvStart (total : Z) (name id : jsstring)
| EvProgress (downloaded : cell) (total : Z) (id : jsstring)
| EvPaused
| EvComplete (path : jsstring)
| EvError (message : jsstring).

(** What the engine asks of the network and of the file system. *)
Inductive effect : Type :=
| FxHead (target : jsstring)
| FxEnsureDir (dir : jsstring)
| FxWriteState (path : jsstring) (state : DownloadState)
| FxOpen (path flags : jsstring)
| FxGet (index range_start range_end : Z)
| FxWrite (position length : Z)
| FxBackoff (attempt : Z)
| FxClose
| FxUnlinkIfExists (path : jsstring)
| FxRename (from to : jsstring).

Record world := {
  obj : Downloader;
  events : list event;
  effects : list effect
}.

Definition with_obj (d : Downloader) (w : world) : world :=
  {| obj := d; events := events w; effects := effects w |}.

Definition emit (e : event) (w : world) : world :=
  {| obj := obj w; events := events w ++ [e]; effects := effects w |}.

Definition perform (f : effect) (w : world) : world :=
  {| obj := obj w; events := events w; effects := effects w ++ [f] |}.

Definition is_get (f : effect) : bool :=
  match f with FxGet _ _ _ => true | _ => false end.

Definition is_paused_event (e : event) : bool :=
  match e with EvPaused => true | _ => false end.

(** The number of ranged requests among the effects. *)
Definition gets (fx : list effect) : list effect := List.filter is_get fx.

Definition count_gets (fx : list effect) : nat := length (gets fx).

Definition count_paused (evs : list event) : nat :=
  length (List.filter is_paused_event evs).

(** ** [saveState], [pause] and the progress probe *)

(** The record handed to [JSON.stringify] (lines 190-199). *)
Definition state_record (d : Downloader) : DownloadState :=
  {| st_url := url d; st_outputDir := outputDir d; st_fileName := fileName d;
     st_totalBytes := totalBytes d;
     st_downloadedBytesPerChunk := downloadedBytesPerChunk d;
     st_numConnections := numConnections d; st_uuid := uuid d;
     st_stateDir := stateDir d |}.

Definition saveState (w : world) : world :=
  perform (FxWriteState (stateFilePath (obj w)) (state_record (obj w))) w.

(** Lines 204-209. *)
Definition pause (w : world) : world :=
  let w := with_obj (set_flags true true (obj w)) w in
  let w := saveState w in
  emit EvPaused w.

(** Lines 293-311, without the speed figure. *)
Definition emitProgress (totalDownloaded : cell) (w : world) : world :=
  emit (EvProgress totalDownloaded (totalBytes (obj w)) (uuid (obj w))) w.

(** Lines 277-291; [now] is what [Date.now()] returns. *)
Definition checkAndEmitProgress (now : Z) (w : world) : world :=
  if 1000 <? now - lastTickTime (obj w) then
    let totalDownloaded := sum_cells (downloadedBytesPerChunk (obj w)) in
    let w := emitProgress totalDownloaded w in
    let w := with_obj (set_clock (startTime (obj w)) now (lastSaveTime (obj w))
                                 (obj w)) w in
    if 5000 <? now - lastSaveTime (obj w) then
      let w := saveState w in
      with_obj (set_clock (startTime (obj w)) (lastTickTime (obj w)) now (obj w)) w
    else w
  else w.

(** ** The segment worker (lines 250-275)

    What the network delivers to one attempt is a script: the buffers of
    the response stream, each with the clock at the moment the progress
    probe runs and with whether the caller paused the job while the write
    was awaited; calls of [pause()] that arrive while the worker waits for
    the next buffer; and how the stream ends. A request that is rejected
    before any data is a script without buffers that ends in an error. *)

Inductive stream_item : Type :=
| Buffer (length now : Z) (paused_in_write : bool)
| PauseCall.

Inductive stream_end : Type :=
| EndOfStream
| StreamError (msg : jsstring).

Record attempt_script := {
  items : list stream_item;
  ending : stream_end;
  paused_in_backoff : bool
}.

(** [this.downloadedBytesPerChunk[index] += n]. *)
Definition add_downloaded (index : Z) (n : Z) (d : Downloader) : Downloader :=
  let i := Z.to_nat index in
  let vec := downloadedBytesPerChunk d in
  set_downloadedBytesPerChunk (array_set vec i (cell_add (vec !! i) n)) d.

(** The [for await] loop; the result is the error thrown, if any. *)
Fixpoint downloadChunk_loop (index : Z) (its : list stream_item) (e : stream_end)
    (currentPos : Z) (w : world) : world * option jsstring :=
  match its with
  | [] =>
    match e with
    | EndOfStream => (w, None)
    | StreamError msg => (w, Some msg)
    end
  | PauseCall :: rest => downloadChunk_loop index rest e currentPos (pause w)
  | Buffer n now piw :: rest =>
    if aborted (obj w) then (w, None)
    else
      let w := perform (FxWrite currentPos n) w in
      let w := if piw then pause w else w in
      let currentPos := currentPos + n in
      let w := with_obj (add_downloaded index n (obj w)) w in
      let w := checkAndEmitProgress now w in
      downloadChunk_loop index rest e currentPos w
  end.

Definition downloadChunk (index start end_ : Z) (a : attempt_script) (w : world)
  : world * option jsstring :=
  let w := perform (FxGet index start end_) w in
  downloadChunk_loop index (items a) (ending a) start w.

(** ** The retry supervisor (lines 230-248) *)

Inductive outcome : Type :=
| Returned
| Threw (msg : jsstring)
| Pending.

(** One script per attempt; when the scripts run out the last request is
    still unanswered. The delay of the back-off is
    [min(1000 * 1.5^attempt, 10000)] ms and is recorded by its attempt. *)
Fixpoint downloadChunkWithRetry (index start end_ : Z) (attempt : Z)
    (scripts : list attempt_script) (w : world) : world * outcome :=
  if aborted (obj w) then (w, Returned)
  else
    match scripts with
    | [] => (perform (FxGet index start end_) w, Pending)
    | a :: rest =>
      match downloadChunk index start end_ a w with
      | (w1, None) => (w1, Returned)
      | (w1, Some msg) =>
        if aborted (obj w1) then (w1, Returned)
        else if attempt <=? maxRetries then
          let w2 := perform (FxBackoff attempt) w1 in
          let w3 := if paused_in_backoff a then pause w2 else w2 in
          downloadChunkWithRetry index start end_ (attempt + 1) rest w3
        else (w1, Threw msg)
      end
    end.

(** The supervisor as [downloadParallel] calls it: [attempt = 1]. *)
Definition supervise (s : dispatch) (scripts : list attempt_script) (w : world)
  : world * outcome :=
  downloadChunkWithRetry (seg_index s) (seg_start s) (seg_end s) 1 scripts w.

(** ** The job controller (lines 110-187)

    [start] is cut at its [await]s. The workers run between
    [AwaitWorkers] and the settling of [Promise.all]; the controller sees
    only how that promise settles. Synchronous file-system calls are taken
    to succeed. *)

Inductive ctrl : Type :=
| Idle
| AwaitHead
| AwaitOpenRW
| AwaitOpenW
| AwaitWorkers
| AwaitCloseOk
| AwaitCloseErr (msg : jsstring)
| Finished.

Inductive head_response : Type :=
| HeadOk (contentDisposition contentLength : option jsstring)
| HeadFailed (msg : jsstring).

Inductive label : Type :=
| LHead (r : head_response)
| LOpen (error : option jsstring)
| LWorkersSettled (error : option jsstring)
| LClose
| LPause.

Record controller := {
  ctl_world : world;
  ctl_pc : ctrl
}.

(** The handler of the outer [try] (lines 181-186). *)
Definition outer_catch (msg : jsstring) (w : world) : controller :=
  if negb (aborted (obj w)) then
    {| ctl_world := emit (EvError msg) w; ctl_pc := Finished |}
  else {| ctl_world := w; ctl_pc := Finished |}.

(** Line 161 up to the [await] of line 227: every dispatched supervisor
    runs up to its first request, which is still unanswered. *)
Definition begin_download (w : world) : controller :=
  let first_request (w : world) (s : dispatch) := fst (supervise s [] w) in
  {| ctl_world := fold_left first_request (downloadParallel_plan (obj w)) w;
     ctl_pc := AwaitWorkers |}.

(** Lines 141-154. *)
Definition after_probe (w : world) : controller :=
  let d := obj w in
  let w := emit (EvStart (totalBytes d) (fileName d) (uuid d)) w in
  let w := perform (FxEnsureDir (outputDir d)) w in
  let w := perform (FxEnsureDir (stateDir d)) w in
  let w := saveState w in
  let w := perform (FxOpen (tempFilePath d) (lit "r+")) w in
  {| ctl_world := w; ctl_pc := AwaitOpenRW |}.

(** Lines 163-170 and 172-179, after [fileHandle.close()]. *)
Definition after_close_ok (w : world) : controller :=
  let d := obj w in
  if negb (isPaused d) && negb (aborted d) then
    let w := perform (FxUnlinkIfExists (finalFilePath d)) w in
    let w := perform (FxRename (tempFilePath d) (finalFilePath d)) w in
    let w := perform (FxUnlinkIfExists (stateFilePath d)) w in
    {| ctl_world := emit (EvComplete (finalFilePath d)) w; ctl_pc := Finished |}
  else {| ctl_world := w; ctl_pc := Finished |}.

Definition after_close_err (msg : jsstring) (w : world) : controller :=
  if aborted (obj w) then
    {| ctl_world := emit EvPaused w; ctl_pc := Finished |}
  else outer_catch msg w.

Section Engine.

Context (env : Env).

(** Lines 83-87. *)
Definition updatePaths (d : Downloader) : Downloader :=
  let final := path_join env (outputDir d) (fileName d) in
  set_paths final (final ++ PART_SUFFIX) d.

Definition new_URL (u : jsstring) : res jsstring :=
  match URL_pathname env u with
  | Some pathname => Ret pathname
  | None => Throw (lit "Invalid URL")
  end.

(** Lines 89-98. *)
Definition getFileNameFromUrl (u : jsstring) : res jsstring :=
  try_catch
    (bind (new_URL u) (fun pathname =>
       let name := NodePath.basename pathname None in
       let name :=
         if negb (truthy_str name) || str_eqb name (lit "/") then DEFAULT_NAME
         else name in
       Ret (sanitizeFileName name)))
    (fun _ => Ret DEFAULT_NAME).

(** Lines 52-81; [nowStr] is [Date.now().toString()]. *)
Definition constructor (u dir : jsstring) (options : DownloaderOptions)
    (nowStr : jsstring) : res Downloader :=
  let n := num_or (opt_numConnections options) 8 in
  let id := str_or (opt_uuid options) nowStr in
  let sdir := str_or (opt_stateDir options) dir in
  bind (match opt_fileName options with
        | Some f => if truthy_str f then Ret f else getFileNameFromUrl u
        | None => getFileNameFromUrl u
        end) (fun name =>
  bind (match opt_downloadedBytesPerChunk options with
        | Some v => Ret v
        | None => new_Array_fill0 n
        end) (fun vec =>
  Ret (updatePaths
         {| url := u; outputDir := dir; numConnections := n; uuid := id;
            stateDir := sdir; fileName := name;
            finalFilePath := []; tempFilePath := [];
            downloadedBytesPerChunk := vec;
            totalBytes := num_or (opt_totalBytes options) 0;
            startTime := 0; lastTickTime := 0;
            aborted := false; isPaused := false;
            stateFilePath := path_join env sdir (id ++ JSON_SUFFIX);
            lastSaveTime := 0 |}))).

(** Lines 127-134: the name the server suggests replaces the current one. *)
Definition refine_fileName (contentDisposition : option jsstring) (d : Downloader)
  : Downloader :=
  match contentDisposition with
  | Some cd =>
    if truthy_str cd then
      match match_filename cd with
      | Some g => updatePaths (set_fileName (sanitizeFileName g) d)
      | None => d
      end
    else d
  | None => d
  end.

(** Lines 127-139, after the [await] of [axios.head]. *)
Definition after_head (r : head_response) (w : world) : controller :=
  match r with
  | HeadFailed msg => outer_catch msg w
  | HeadOk cd cl =>
    let w := with_obj (refine_fileName cd (obj w)) w in
    match cl with
    | Some s =>
      if truthy_str s then
        after_probe (with_obj (set_totalBytes (parseInt10 env s) (obj w)) w)
      else outer_catch NO_SIZE_MESSAGE w
    | None => outer_catch NO_SIZE_MESSAGE w
    end
  end.

(** Lines 112-125: a call of [start()]; [now] is [Date.now()]. *)
Definition start (now : Z) (w : world) : controller :=
  let d := set_flags false false (obj w) in
  let d := set_clock now now (lastSaveTime d) d in
  let w := with_obj d w in
  if totalBytes d =? 0 then
    {| ctl_world := perform (FxHead (url d)) w; ctl_pc := AwaitHead |}
  else after_probe w.

(** What arrives at the [await] the controller is suspended on; [pause()]
    may be called at any of them. *)
Definition step (c : controller) (l : label) : option controller :=
  let w := ctl_world c in
  match l, ctl_pc c with
  | LPause, pc => Some {| ctl_world := pause w; ctl_pc := pc |}
  | LHead r, AwaitHead => Some (after_head r w)
  | LOpen None, AwaitOpenRW => Some (begin_download w)
  | LOpen (Some _), AwaitOpenRW =>
    Some {| ctl_world := perform (FxOpen (tempFilePath (obj w)) (lit "w")) w;
            ctl_pc := AwaitOpenW |}
  | LOpen None, AwaitOpenW => Some (begin_download w)
  | LOpen (Some msg), AwaitOpenW => Some (outer_catch msg w)
  | LWorkersSettled None, AwaitWorkers =>
    Some {| ctl_world := perform FxClose w; ctl_pc := AwaitCloseOk |}
  | LWorkersSettled (Some msg), AwaitWorkers =>
    Some {| ctl_world := perform FxClose w; ctl_pc := AwaitCloseErr msg |}
  | LClose, AwaitCloseOk => Some (after_close_ok w)
  | LClose, AwaitCloseErr msg => Some (after_close_err msg w)
  | _, _ => None
  end.

Fixpoint run (c : controller) (ls : list label) : option controller :=
  match ls with
  | [] => Some c
  | l :: rest =>
    match step c l with
    | Some c' => run c' rest
    | None => None
    end
  end.

End Engine.

(** ** A small platform for closed examples

    [sample_pathname] reads the path of an [http://] or [https://] URL (the
    text from the first slash after the host up to a [?] or a [#], or a
    single slash) and rejects everything else; [path.join] puts a slash
    between its arguments; the size header is read as a run of decimal
    digits. *)

Fixpoint path_part (s : jsstring) : jsstring :=
  match s with
  | [] => []
  | c :: t => if (N.eqb c 63 || N.eqb c 35)%bool then [] else c :: path_part t
  end.

Fixpoint after_host (s : jsstring) : jsstring :=
  match s with
  | [] => [47%N]
  | c :: t =>
    if N.eqb c 47 then path_part s
    else if (N.eqb c 63 || N.eqb c 35)%bool then [47%N]
    else after_host t
  end.

Definition sample_pathname (u : jsstring) : option jsstring :=
  if starts_with (lit "http://") u then Some (after_host (drop 7 u))
  else if starts_with (lit "https://") u then Some (after_host (drop 8 u))
  else None.

Fixpoint decimal_value (s : jsstring) (acc : Z) : Z :=
  match s with
  | [] => acc
  | c :: t =>
    if ((48 <=? c) && (c <=? 57))%N then
      decimal_value t (10 * acc + (Z.of_N c - 48))
    else acc
  end.

Definition sample_env : Env :=
  {| URL_pathname := sample_pathname;
     path_join := fun a b => a ++ lit "/" ++ b;
     parseInt10 := fun s => decimal_value s 0 |}.

(** ** More sample inputs *)

(** The progress of a job of 1000 bytes over 4 connections whose first
    segment is complete. *)
Definition resumed_vector : list cell := [Num 250; Num 100; Num 0; Num 249].

(** A stream of three buffers with a [pause()] after the first, and the
    world of a job of 1000 bytes over 4 connections. *)
Definition paused_stream : list stream_item :=
  [Buffer 100 10 false; PauseCall; Buffer 100 20 false; Buffer 50 30 false].

Definition steady_stream : list stream_item :=
  [Buffer 100 1500 false; Buffer 100 2000 false; Buffer 50 7000 false].

(** ** Sample inputs *)

(** A long name with a short extension, and a name whose extension alone is
    longer than 100 characters. *)
Definition long_name : jsstring :=
  lit "report final " ++ replicate 100 120%N ++ lit ".pdf".

Definition long_extension_name : jsstring :=
  lit "a." ++ replicate 120 98%N.

(** A job the constructor builds on the sample platform, with its size
    already known. *)
Definition sample_options (T N : Z) : DownloaderOptions :=
  {| opt_numConnections := Some N; opt_uuid := Some (lit "job-1");
     opt_stateDir := Some (lit "/state"); opt_fileName := None;
     opt_downloadedBytesPerChunk := None; opt_totalBytes := Some T |}.

Definition sample_world (T N : Z) : world :=
  match constructor sample_env (lit "http://host/files/data.bin") (lit "/out")
          (sample_options T N) (lit "1700000000000") with
  | Ret d => {| obj := d; events := []; effects := [] |}
  | Throw _ =>
    {| obj := {| url := []; outputDir := []; numConnections := N; uuid := [];
                 stateDir := []; fileName := []; finalFilePath := [];
                 tempFilePath := []; downloadedBytesPerChunk := [];
                 totalBytes := T; startTime := 0; lastTickTime := 0;
                 aborted := false; isPaused := false; stateFilePath := [];
                 lastSaveTime := 0 |};
       events := []; effects := [] |}
  end.

(** An attempt that fails before any data, one that delivers 50 bytes and
    then loses the connection, and one that delivers 100 bytes and ends. *)
Definition failing_attempt : attempt_script :=
  {| items := []; ending := StreamError (lit "Request failed with status code 416");
     paused_in_backoff := false |}.

Definition attempt_50_then_reset : attempt_script :=
  {| items := [Buffer 50 100 false]; ending := StreamError (lit "socket hang up");
     paused_in_backoff := false |}.

Definition attempt_100_then_end : attempt_script :=
  {| items := [Buffer 100 3000 false]; ending := EndOfStream;
     paused_in_backoff := false |}.

Definition whole_file_segment : dispatch :=
  {| seg_index := 0; seg_start := 0; seg_end := 99 |}.

(** A job whose caller chose the file name, and a probe response whose
    [Content-Disposition] suggests another one. *)
Definition named_options : DownloaderOptions :=
  {| opt_numConnections := Some 4; opt_uuid := Some (lit "job-2");
     opt_stateDir := Some (lit "/state"); opt_fileName := Some (lit "mine.txt");
     opt_downloadedBytesPerChunk := None; opt_totalBytes := None |}.

Definition QUOTED_SERVER_NAME : jsstring :=
  lit "attachment; filename=" ++ [QUOTE] ++ lit "server name.bin" ++ [QUOTE].

Definition probe_with_name : head_response :=
  HeadOk (Some QUOTED_SERVER_NAME) (Some (lit "1000")).

Definition world_of (d : Downloader) : world :=
  {| obj := d; events := []; effects := [] |}.



Definition named_job : Downloader :=
  match constructor sample_env (lit "http://host/d?id=42") (lit "/out")
          named_options (lit "1700000000000") with
  | Ret d => d
  | Throw _ => obj (sample_world 0 4)
  end.

(** ** Predicates used in the statements *)

(** A path without a slash, as every sanitised name is. *)
Definition slash_free (s : jsstring) : Prop :=
  Forall (fun c => c <> NodePath.CHAR_FORWARD_SLASH) s.

(** Requests left to a supervisor that is at attempt [a]. *)
Definition budget (a : Z) : nat := Z.to_nat (Z.max 1 (maxRetries + 2 - a)).

(** The probe's response declares no size: the header is absent or empty
    ([!contentLength], line 137). *)
Definition no_size (cl : option jsstring) : Prop :=
  match cl with
  | None => True
  | Some s => truthy_str s = false
  end.

Ltac split_ifs :=
  repeat (match goal with |- context [if ?b then _ else _] => destruct b end).

(** ** Readings of the effects and of the events *)

(** The positioned writes among the effects, as (position, length). *)
Definition writes (fx : list effect) : list (Z * Z) :=
  flat_map (fun f => match f with FxWrite p n => [(p, n)] | _ => [] end) fx.


Definition total (ns : list Z) : Z := fold_right Z.add 0 ns.


(** A stream during which the caller never pauses the job. *)
Definition never_paused (its : list stream_item) : Prop :=
  Forall (fun it => match it with Buffer _ _ false => True | _ => False end) its.

(** The attempts after which the supervisor slept. *)
Definition backoffs (fx : list effect) : list Z :=
  flat_map (fun f => match f with FxBackoff a => [a] | _ => [] end) fx.

Definition is_progress_event (e : event) : bool :=
  match e with EvProgress _ _ _ => true | _ => false end.

Definition is_state_write (f : effect) : bool :=
  match f with FxWriteState _ _ => true | _ => false end.

Definition count_progress (evs : list event) : nat :=
  length (List.filter is_progress_event evs).

Definition count_state_writes (fx : list effect) : nat :=
  length (List.filter is_state_write fx).

Definition is_num (c : cell) : Prop :=
  match c with Num _ => True | _ => False end.

(** [this.downloadedBytesPerChunk[i] || 0], the bytes counted for segment
    [i]. *)
Definition progress_of (vec : list cell) (i : Z) : Z :=
  cell_or_zero (vec !! Z.to_nat i).

(** Progress events, state snapshots and [paused] events that [w'] has
    more than [w]. *)
Definition new_progress (w w' : world) : Z :=
  Z.of_nat (count_progress (events w')) - Z.of_nat (count_progress (events w)).

Definition new_state_writes (w w' : world) : Z :=
  Z.of_nat (count_state_writes (effects w'))
  - Z.of_nat (count_state_writes (effects w)).

Definition new_paused (w w' : world) : Z :=
  Z.of_nat (count_paused (events w')) - Z.of_nat (count_paused (events w)).

(** Every progress event moves [lastTickTime] on by more than 1000 ms, and
    every snapshot that is not the one of a [pause()] moves [lastSaveTime]
    on by more than 5000 ms. *)
Definition throttled (w w' : world) : Prop :=
  1001 * new_progress w w' <= lastTickTime (obj w') - lastTickTime (obj w)
  /\ 5001 * (new_state_writes w w' - new_paused w w')
     <= lastSaveTime (obj w') - lastSaveTime (obj w).

(** The object after lines 112-115 of [start()]: flags and abort signal
    reset, clock taken. *)
Definition started (now : Z) (d : Downloader) : Downloader :=
  set_clock now now (lastSaveTime d) (set_flags false false d).

(** What [start()] does between the probe and the opening of the file
    (lines 141-154). *)
Definition preparation (d : Downloader) : list effect :=
  [ FxEnsureDir (outputDir d); FxEnsureDir (stateDir d);
    FxWriteState (stateFilePath d) (state_record d);
    FxOpen (tempFilePath d) (lit "r+") ].

(** What the controller does after a successful download (lines 163-169). *)
Definition finalization (d : Downloader) : list effect :=
  [ FxClose; FxUnlinkIfExists (finalFilePath d);
    FxRename (tempFilePath d) (finalFilePath d);
    FxUnlinkIfExists (stateFilePath d) ].

(** The delay before the retry of attempt [a] (line 241), in ms:
    [Math.min(1000 * Math.pow(1.5, a), 10000)]. For the attempts a
    supervisor reaches the powers of 1.5 and their products with 1000 are
    exact in double precision, so the delay is this rational number. *)
Definition backoff_delay (attempt : Z) : Q :=
  Qmin (1000 * (3 # 2) ^ attempt) 10000.

(** The time slept in all the back-offs among the effects. *)
Definition total_backoff (fx : list effect) : Q :=
  fold_right Qplus 0%Q (map backoff_delay (backoffs fx)).

(** The first requests of the dispatched supervisors, in order. *)
Definition first_requests (d : Downloader) : list effect :=
  map (fun s => FxGet (seg_index s) (seg_start s) (seg_end s))
      (downloadParallel_plan d).

(** An attempt that fails while the caller leaves the job alone: its
    stream ends in an error, and no [pause()] arrives during it or during
    the back-off that follows. *)
Definition fails_unpaused (a : attempt_script) : Prop :=
  never_paused (items a)
  /\ (exists msg, ending a = StreamError msg)
  /\ paused_in_backoff a = false.


(** Ranged requests that [w'] has more than [w]. *)
Definition new_requests (w w' : world) : Z :=
  Z.of_nat (count_gets (effects w')) - Z.of_nat (count_gets (effects w)).

(** ** The resume record of a running job *)








(** ** The history catalog of the main process (lines 334-372, 429-434,
    546-549 of the same file)

    [history.json] is read and rewritten on every call. What the file holds
    is what [JSON.stringify] writes, so a [NaN] comes back as [null]. The
    file is written only by these functions; a file that parses to
    something else than a list of entries is outside the model, and
    [writeFileSync] is taken to succeed. *)

Module History.

Inductive status : Type :=
| Initializing
| Downloading
| Completed
| Paused
| Failed
| Cancelled.

(** A number as an entry carries it: a number, [NaN], or the [null] that
    [JSON.stringify] writes for [NaN]. *)
Inductive jnum : Type :=
| JNum (z : Z)
| JNaN
| JNull.

Record HistoryEntry := {
  h_uuid : jsstring;
  h_url : jsstring;
  h_fileName : option jsstring;
  h_outputDir : jsstring;
  h_status : status;
  h_totalBytes : option Z;
  h_downloaded : option jnum;
  h_date : option Z;
  h_error : option jsstring
}.

(** [Partial<HistoryEntry>]: [None] is a property that is not there. *)
Record HistoryUpdates := {
  u_uuid : option jsstring;
  u_url : option jsstring;
  u_fileName : option jsstring;
  u_outputDir : option jsstring;
  u_status : option status;
  u_totalBytes : option Z;
  u_downloaded : option jnum;
  u_date : option Z;
  u_error : option jsstring
}.

Definition no_updates : HistoryUpdates :=
  {| u_uuid := None; u_url := None; u_fileName := None; u_outputDir := None;
     u_status := None; u_totalBytes := None; u_downloaded := None;
     u_date := None; u_error := None |}.

Inductive history_file : Type :=
| NoFile
| Unparsable
| Stored (entries : list HistoryEntry).

Definition json_num (n : jnum) : jnum :=
  match n with
  | JNaN => JNull
  | _ => n
  end.

(** An entry after [JSON.parse(JSON.stringify(...))]. *)
Definition json_entry (h : HistoryEntry) : HistoryEntry :=
  {| h_uuid := h_uuid h; h_url := h_url h; h_fileName := h_fileName h;
     h_outputDir := h_outputDir h; h_status := h_status h;
     h_totalBytes := h_totalBytes h;
     h_downloaded := json_num <$> h_downloaded h;
     h_date := h_date h; h_error := h_error h |}.

(** [fs.writeFileSync(historyPath, JSON.stringify(l, null, 2))]. *)
Definition write_history (l : list HistoryEntry) : history_file :=
  Stored (json_entry <$> l).

(** Lines 348-353. *)
Definition getHistory (f : history_file) : list HistoryEntry :=
  match f with
  | Stored l => l
  | NoFile | Unparsable => []
  end.

(** Lines 354-361: the new file and the list returned. *)
Definition addEntry (entry : HistoryEntry) (f : history_file)
  : history_file * list HistoryEntry :=
  let history := getHistory f in
  let newHistory := filter (fun h => h_uuid h <> h_uuid entry) history in
  let newHistory := entry :: newHistory in
  (write_history newHistory, newHistory).

(** [{ ...h, ...updates }]. *)
Definition spread (h : HistoryEntry) (u : HistoryUpdates) : HistoryEntry :=
  {| h_uuid := default (h_uuid h) (u_uuid u);
     h_url := default (h_url h) (u_url u);
     h_fileName := match u_fileName u with Some v => Some v | None => h_fileName h end;
     h_outputDir := default (h_outputDir h) (u_outputDir u);
     h_status := default (h_status h) (u_status u);
     h_totalBytes :=
       match u_totalBytes u with Some v => Some v | None => h_totalBytes h end;
     h_downloaded :=
       match u_downloaded u with Some v => Some v | None => h_downloaded h end;
     h_date := match u_date u with Some v => Some v | None => h_date h end;
     h_error := match u_error u with Some v => Some v | None => h_error h end |}.

(** Lines 362-371: [findIndex] stops at the first entry with the uuid; when
    there is none the file is not written. *)
Definition updateEntry (id : jsstring) (updates : HistoryUpdates)
    (f : history_file) : history_file * list HistoryEntry :=
  let history := getHistory f in
  match list_find (fun h => h_uuid h = id) history with
  | Some (index, h) =>
    let history := <[index := spread h updates]> history in
    (write_history history, history)
  | None => (f, history)
  end.

(** The handler of [delete-entry] (lines 429-434). *)
Definition delete_entry (id : jsstring) (f : history_file) : history_file :=
  write_history (filter (fun h => h_uuid h <> id) (getHistory f)).

(** The handler of [clear-history] (lines 546-549): the file is removed
    when it exists. *)
Definition clear_history (f : history_file) : history_file := NoFile.

(** [history.find(h => h.uuid === uuid)] on what [getHistory] returns. *)
Definition find_entry (id : jsstring) (f : history_file) : option HistoryEntry :=
  snd <$> list_find (fun h => h_uuid h = id) (getHistory f).

Definition uuids (f : history_file) : list jsstring :=
  h_uuid <$> getHistory f.

(** The first entry of a list with the uuid [id]. *)
Definition find_in (id : jsstring) (l : list HistoryEntry) : option HistoryEntry :=
  snd <$> list_find (fun h => h_uuid h = id) l.

End History.
Export History.

(** ** [startDownload] and the resume from a saved record (lines 436-498,
    507-534) *)

Definition with_stateDir (dir : jsstring) (o : DownloaderOptions)
  : DownloaderOptions :=
  {| opt_numConnections := opt_numConnections o; opt_uuid := opt_uuid o;
     opt_stateDir := Some dir; opt_fileName := opt_fileName o;
     opt_downloadedBytesPerChunk := opt_downloadedBytesPerChunk o;
     opt_totalBytes := opt_totalBytes o |}.

(** The parsed record, passed as the options (line 525). A record whose
    progress vector holds numbers only comes back from the file as it was
    written. *)
Definition options_of_state (r : DownloadState) : DownloaderOptions :=
  {| opt_numConnections := Some (st_numConnections r);
     opt_uuid := Some (st_uuid r);
     opt_stateDir := Some (st_stateDir r);
     opt_fileName := Some (st_fileName r);
     opt_downloadedBytesPerChunk := Some (st_downloadedBytesPerChunk r);
     opt_totalBytes := Some (st_totalBytes r) |}.




Section MainProcess.

Context (env : Env).


(** Lines 524-525: the downloader built from a saved record. *)
Definition resume_from_state (r : DownloadState) (statesDir nowStr : jsstring)
  : res Downloader :=
  constructor env (st_url r) (st_outputDir r)
              (with_stateDir statesDir (options_of_state r)) nowStr.

End MainProcess.

(** A history with two entries, and an entry for a new download. *)
Definition sample_entry (id : string) (st : status) : HistoryEntry :=
  {| h_uuid := lit id; h_url := lit "http://host/files/data.bin";
     h_fileName := Some (lit "data.bin"); h_outputDir := lit "/out";
     h_status := st; h_totalBytes := Some 1000; h_downloaded := Some (JNum 0);
     h_date := Some 1700000000000; h_error := None |}.

Definition sample_history : history_file :=
  Stored [sample_entry "job-1" Downloading; sample_entry "job-2" Completed].

Definition status_update (st : status) : HistoryUpdates :=
  {| u_uuid := None; u_url := None; u_fileName := None; u_outputDir := None;
     u_status := Some st; u_totalBytes := None; u_downloaded := None;
     u_date := None; u_error := None |}.

(** * Properties *)

(** ** Sanitisation *)

Lemma replace_disallowed_length (name : jsstring) :
  length (replace_disallowed name) = length name.
Proof. unfold replace_disallowed. apply length_map. Qed.

Lemma underscore_allowed : allowed_char UNDERSCORE = true.
Proof. reflexivity. Qed.

Lemma replace_disallowed_allowed (name : jsstring) :
  Forall (fun c => allowed_char c = true) (replace_disallowed name).
Proof.
  unfold replace_disallowed. apply Forall_forall. intros c Hc.
  apply list_elem_of_In, in_map_iff in Hc. destruct Hc as [x [<- _]].
  destruct (allowed_char x) eqn:E; [exact E | exact underscore_allowed].
Qed.

Lemma replace_disallowed_lookup (name : jsstring) (i : nat) (c : N) :
  name !! i = Some c ->
  replace_disallowed name !! i = Some (if allowed_char c then c else UNDERSCORE).
Proof.
  unfold replace_disallowed. revert i.
  induction name as [|a name IH]; intros [|i] H; simpl in *; try discriminate.
  - injection H as ->. reflexivity.
  - apply IH, H.
Qed.

Lemma allowed_not_slash (s : jsstring) :
  Forall (fun c => allowed_char c = true) s -> slash_free s.
Proof.
  unfold slash_free. intros H. eapply Forall_impl; [exact H|].
  intros c Hc ->. discriminate Hc.
Qed.

Lemma slash_free_code (p : jsstring) (i : nat) :
  slash_free p -> (i < length p)%nat ->
  N.eqb (charCodeAt p i) NodePath.CHAR_FORWARD_SLASH = false.
Proof.
  intros H Hi. apply N.eqb_neq. unfold charCodeAt.
  exact (proj1 (List.Forall_nth _ p) H i 0%N Hi).
Qed.

(** On a path without slashes, [extname] fixes the end of the extension at
    the end of the path. *)
Lemma extname_loop_end_kept (p : jsstring) (n : nat) (st : NodePath.ext_scan) :
  slash_free p -> (n <= length p)%nat -> NodePath.ext_end st <> -1 ->
  NodePath.ext_end (NodePath.extname_loop p n st) = NodePath.ext_end st.
Proof.
  intros Hp. revert st. induction n as [|i IH]; intros st Hn He; [reflexivity|].
  simpl. rewrite (slash_free_code p i Hp) by lia.
  apply Z.eqb_neq in He as He'. rewrite He'.
  rewrite IH; [| lia |].
  - repeat (match goal with |- context [if ?b then _ else _] => destruct b end);
      reflexivity.
  - repeat (match goal with |- context [if ?b then _ else _] => destruct b end);
      exact He.
Qed.

Lemma extname_loop_end (p : jsstring) (i : nat) (st : NodePath.ext_scan) :
  slash_free p -> (S i <= length p)%nat -> NodePath.ext_end st = -1 ->
  NodePath.ext_end (NodePath.extname_loop p (S i) st) = Z.of_nat i + 1.
Proof.
  intros Hp Hn He. simpl. rewrite (slash_free_code p i Hp) by lia.
  rewrite He. simpl.
  rewrite extname_loop_end_kept; [| exact Hp | lia |].
  - repeat (match goal with |- context [if ?b then _ else _] => destruct b end);
      reflexivity.
  - repeat (match goal with |- context [if ?b then _ else _] => destruct b end);
      simpl; lia.
Qed.

Lemma slice_to_end (p : jsstring) (a : Z) :
  slice p a (len p) `suffix_of` p.
Proof.
  unfold slice, len. rewrite take_ge.
  - apply suffix_drop.
  - rewrite length_drop. lia.
Qed.

Lemma extname_suffix (p : jsstring) :
  slash_free p -> NodePath.extname p `suffix_of` p.
Proof.
  intros Hp. unfold NodePath.extname.
  destruct (_ || _ || _ || _); [apply suffix_nil|].
  destruct p as [|c p'] eqn:E; [apply suffix_nil|].
  rewrite <- E in *.
  assert (Hl : length p = S (length p')) by (subst p; reflexivity).
  rewrite Hl at 2. rewrite extname_loop_end; [| exact Hp | lia | reflexivity].
  replace (Z.of_nat (length p') + 1) with (len p) by (unfold len; lia).
  apply slice_to_end.
Qed.


(** On a path without slashes, [basename] without suffix is the path. *)
Lemma basename_loop_kept (p : jsstring) (n : nat) (st : NodePath.base_scan) :
  slash_free p -> (n <= length p)%nat -> NodePath.b_end st <> -1 ->
  NodePath.basename_loop p n st = st.
Proof.
  intros Hp. revert st. induction n as [|i IH]; intros st Hn He; [reflexivity|].
  simpl. rewrite (slash_free_code p i Hp) by lia.
  apply Z.eqb_neq in He as He'. rewrite He'. apply IH; [lia | exact He].
Qed.

Lemma slice_whole (p : jsstring) : slice p 0 (len p) = p.
Proof.
  unfold slice, len. change (Z.to_nat 0) with 0%nat. rewrite drop_0.
  apply take_ge. lia.
Qed.

Lemma basename_loop_first (p : jsstring) (i : nat) (st : NodePath.base_scan) :
  slash_free p -> (S i <= length p)%nat -> NodePath.b_end st = -1 ->
  NodePath.basename_loop p (S i) st =
  {| NodePath.b_start := NodePath.b_start st;
     NodePath.b_end := Z.of_nat i + 1;
     NodePath.b_matchedSlash := false;
     NodePath.extIdx := NodePath.extIdx st;
     NodePath.firstNonSlashEnd := NodePath.firstNonSlashEnd st |}.
Proof.
  intros Hp Hn He. cbn [NodePath.basename_loop].
  rewrite (slash_free_code p i Hp) by lia. rewrite He. cbn [Z.eqb Pos.eqb].
  apply basename_loop_kept; [exact Hp | lia | cbn; lia].
Qed.

Lemma basename_plain (p : jsstring) :
  slash_free p ->
  (let st := NodePath.basename_loop p (length p) (NodePath.base_init 0) in
   if NodePath.b_end st =? -1 then []
   else slice p (NodePath.b_start st) (NodePath.b_end st))
  = p.
Proof.
  intros Hp. destruct p as [|c p'] eqn:E; [reflexivity|]. rewrite <- E in *.
  assert (Hl : length p = S (length p')) by (subst p; reflexivity).
  cbn zeta. rewrite Hl.
  rewrite basename_loop_first; [| exact Hp | lia | reflexivity].
  cbn [NodePath.b_end NodePath.b_start NodePath.base_init].
  replace (Z.of_nat (length p') + 1 =? -1) with false
    by (symmetry; apply Z.eqb_neq; lia).
  replace (Z.of_nat (length p') + 1) with (len p) by (unfold len; lia).
  apply slice_whole.
Qed.

(** Once the suffix has been matched, the rest of a slash-free path
    changes nothing. *)
Lemma basename_suffix_loop_kept (p sfx : jsstring) (n : nat)
    (st : NodePath.base_scan) :
  slash_free p -> (n <= length p)%nat ->
  NodePath.extIdx st < 0 -> NodePath.firstNonSlashEnd st <> -1 ->
  NodePath.basename_suffix_loop p sfx n st = st.
Proof.
  intros Hp. revert st. induction n as [|i IH]; intros st Hn Hx Hf; [reflexivity|].
  simpl. rewrite (slash_free_code p i Hp) by lia.
  apply Z.eqb_neq in Hf as Hf'. rewrite Hf'.
  replace (0 <=? NodePath.extIdx st) with false by (symmetry; apply Z.leb_gt; lia).
  apply IH; [lia | exact Hx | exact Hf].
Qed.

(** While the suffix is being matched from its last character down. *)
Lemma basename_suffix_loop_match (pre sfx : jsstring) (k : nat)
    (st : NodePath.base_scan) :
  slash_free (pre ++ sfx) -> (1 <= k <= length sfx)%nat ->
  NodePath.extIdx st = Z.of_nat k - 1 ->
  let r := NodePath.basename_suffix_loop (pre ++ sfx) sfx (length pre + k) st in
  NodePath.b_start r = NodePath.b_start st /\
  NodePath.b_end r = Z.of_nat (length pre).
Proof.
  intros Hp. revert st. induction k as [|k IH]; intros st Hk Hx; [lia|].
  rewrite Nat.add_succ_r. cbn zeta. cbn [NodePath.basename_suffix_loop].
  rewrite (slash_free_code (pre ++ sfx) (length pre + k) Hp)
    by (rewrite length_app; lia).
  set (st1 := if NodePath.firstNonSlashEnd st =? -1 then _ else st).
  assert (Hx1 : NodePath.extIdx st1 = Z.of_nat k)
    by (subst st1; split_ifs; cbn; lia).
  assert (Hs1 : NodePath.b_start st1 = NodePath.b_start st)
    by (subst st1; split_ifs; reflexivity).
  assert (Hf1 : NodePath.firstNonSlashEnd st1 <> -1).
  { subst st1. destruct (NodePath.firstNonSlashEnd st =? -1) eqn:E; cbn; [lia|].
    apply Z.eqb_neq, E. }
  rewrite Hx1.
  replace (0 <=? Z.of_nat k) with true by (symmetry; apply Z.leb_le; lia).
  rewrite Nat2Z.id.
  assert (Hc : charCodeAt (pre ++ sfx) (length pre + k) = charCodeAt sfx k).
  { unfold charCodeAt. rewrite List.app_nth2 by lia. f_equal. lia. }
  rewrite Hc, N.eqb_refl.
  destruct k as [|k'].
  - rewrite Nat.add_0_r. rewrite basename_suffix_loop_kept.
    + cbn. split; [exact Hs1 | reflexivity].
    + exact Hp.
    + rewrite length_app. lia.
    + cbn. lia.
    + cbn. exact Hf1.
  - destruct (IH {| NodePath.b_start := NodePath.b_start st1;
                    NodePath.b_end :=
                      if Z.of_nat (S k') - 1 =? -1
                      then Z.of_nat (length pre + S k')
                      else NodePath.b_end st1;
                    NodePath.b_matchedSlash := NodePath.b_matchedSlash st1;
                    NodePath.extIdx := Z.of_nat (S k') - 1;
                    NodePath.firstNonSlashEnd := NodePath.firstNonSlashEnd st1 |})
      as [IH1 IH2]; [lia | reflexivity |].
    cbn zeta in IH1, IH2. rewrite IH1, IH2. cbn. split; [exact Hs1 | reflexivity].
Qed.

Lemma basename_strip (pre sfx : jsstring) :
  slash_free (pre ++ sfx) ->
  NodePath.basename (pre ++ sfx) (Some sfx) = pre.
Proof.
  intros Hp. unfold NodePath.basename.
  destruct sfx as [|c sfx'] eqn:E.
  - cbn [len length Z.of_nat Z.ltb Z.compare andb].
    rewrite basename_plain by exact Hp. apply app_nil_r.
  - rewrite <- E in *.
    assert (Hl : (1 <= length sfx)%nat) by (subst sfx; simpl; lia).
    replace (0 <? len sfx) with true by (symmetry; apply Z.ltb_lt; unfold len; lia).
    replace (len sfx <=? len (pre ++ sfx)) with true
      by (symmetry; apply Z.leb_le; unfold len; rewrite length_app; lia).
    cbn [andb]. unfold str_eqb. case_bool_decide as Heq.
    + assert (length pre = 0%nat) as Hpre
        by (apply (f_equal length) in Heq; rewrite length_app in Heq; lia).
      destruct pre; [reflexivity | discriminate Hpre].
    + rewrite length_app.
      destruct (basename_suffix_loop_match pre sfx (length sfx)
                  (NodePath.base_init (len sfx - 1)) Hp) as [H1 H2];
        [lia | reflexivity |].
      cbn zeta in H1, H2. rewrite H1, H2. cbn [NodePath.base_init NodePath.b_start].
      destruct pre as [|a pre'] eqn:Epre; [exfalso; apply Heq; reflexivity|].
      rewrite <- Epre in *.
      assert (length pre = S (length pre')) as Hlp by (subst pre; reflexivity).
      replace (0 =? Z.of_nat (length pre)) with false
        by (symmetry; apply Z.eqb_neq; lia).
      replace (Z.of_nat (length pre) =? -1) with false
        by (symmetry; apply Z.eqb_neq; lia).
      unfold slice. simpl drop. rewrite Z.sub_0_r, Nat2Z.id.
      apply take_app_length.
Qed.

Lemma replace_disallowed_slash_free (name : jsstring) :
  slash_free (replace_disallowed name).
Proof. apply allowed_not_slash, replace_disallowed_allowed. Qed.

Lemma sanitizeFileName_short (name : jsstring) :
  len (replace_disallowed name) <= 100 ->
  sanitizeFileName name = replace_disallowed name.
Proof.
  intros H. unfold sanitizeFileName.
  replace (100 <? len (replace_disallowed name)) with false
    by (symmetry; apply Z.ltb_ge; exact H).
  reflexivity.
Qed.

Lemma sanitizeFileName_long (name : jsstring) :
  100 < len (replace_disallowed name) ->
  sanitizeFileName name =
  take (Z.to_nat (100 - len (NodePath.extname (replace_disallowed name))))
       (replace_disallowed name)
  ++ NodePath.extname (replace_disallowed name).
Proof.
  intros H. unfold sanitizeFileName.
  replace (100 <? len (replace_disallowed name)) with true
    by (symmetry; apply Z.ltb_lt; exact H).
  set (clean := replace_disallowed name) in *.
  set (ext := NodePath.extname clean).
  destruct (extname_suffix clean (replace_disallowed_slash_free name))
    as [pre Hpre].
  fold ext in Hpre. f_equal. unfold substring0.
  assert (Hs : slash_free (pre ++ ext))
    by (rewrite <- Hpre; apply replace_disallowed_slash_free).
  rewrite Hpre at 1 2. rewrite (basename_strip pre ext Hs).
  rewrite take_app_le; [reflexivity|].
  unfold len in *. rewrite Hpre, length_app in H. lia.
Qed.

Lemma sanitizeFileName_formula (name : jsstring) :
  let clean := replace_disallowed name in
  let ext := NodePath.extname clean in
  sanitizeFileName name =
  if 100 <? len clean then take (Z.to_nat (100 - len ext)) clean ++ ext
  else clean.
Proof.
  cbn zeta. destruct (100 <? len (replace_disallowed name)) eqn:E.
  - apply sanitizeFileName_long, Z.ltb_lt, E.
  - apply sanitizeFileName_short, Z.ltb_ge, E.
Qed.

Lemma sanitizeFileName_allowed (name : jsstring) :
  Forall (fun c => allowed_char c = true) (sanitizeFileName name).
Proof.
  rewrite sanitizeFileName_formula. cbn zeta.
  pose proof (replace_disallowed_allowed name) as Ha.
  destruct (100 <? _); [| exact Ha].
  apply Forall_app. split.
  - apply Forall_take, Ha.
  - destruct (extname_suffix _ (replace_disallowed_slash_free name)) as [pre Hpre].
    rewrite Hpre in Ha. apply Forall_app in Ha. apply Ha.
Qed.

Lemma sanitizeFileName_length (name : jsstring) :
  let clean := replace_disallowed name in
  let ext := NodePath.extname clean in
  len (sanitizeFileName name) =
  if 100 <? len clean then Z.max 100 (len ext) else len clean.
Proof.
  cbn zeta. rewrite sanitizeFileName_formula. cbn zeta.
  destruct (100 <? _) eqn:E; [| reflexivity].
  apply Z.ltb_lt in E. unfold len in *.
  rewrite length_app, length_take. lia.
Qed.

Lemma sanitizeFileName_nonempty (name : jsstring) :
  name <> [] -> sanitizeFileName name <> [].
Proof.
  intros Hn Hs. pose proof (sanitizeFileName_length name) as Hl.
  cbn zeta in Hl. rewrite Hs in Hl. unfold len in Hl.
  rewrite replace_disallowed_length in Hl.
  destruct name; [congruence|]. simpl in Hl.
  destruct (100 <? _); lia.
Qed.

(** C9, amended. For every input, [sanitizeFileName] replaces every code
    unit outside [[A-Za-z0-9._-]] by an underscore and keeps the others; a
    result of at most 100 characters is returned as it is, a longer one is
    cut to its first [100 - |ext|] characters followed by [ext], the
    extension [path.extname] finds in the replaced name. The result has
    only characters of the set and ends in [ext]; its length is the
    replaced name's when that is at most 100, and the larger of 100 and
    [|ext|] otherwise, so it is at most 100 whenever [ext] has at most 100
    characters. *)
Theorem sanitizeFileName_bounded (name : jsstring) :
  let clean := replace_disallowed name in
  let ext := NodePath.extname clean in
  let out := sanitizeFileName name in
  length clean = length name
  /\ (forall (i : nat) (c : N),
        name !! i = Some c ->
        clean !! i = Some (if allowed_char c then c else UNDERSCORE))
  /\ out = (if 100 <? len clean
            then take (Z.to_nat (100 - len ext)) clean ++ ext
            else clean)
  /\ Forall (fun c => allowed_char c = true) out
  /\ ext `suffix_of` clean
  /\ ext `suffix_of` out
  /\ len out = (if 100 <? len clean then Z.max 100 (len ext) else len clean)
  /\ (len ext <= 100 -> len out <= 100).
Proof.
  cbn zeta.
  pose proof (extname_suffix _ (replace_disallowed_slash_free name)) as Hsuf.
  pose proof (sanitizeFileName_length name) as Hl. cbn zeta in Hl.
  split; [apply replace_disallowed_length|].
  split; [intros i c; apply replace_disallowed_lookup|].
  split; [apply sanitizeFileName_formula|].
  split; [apply sanitizeFileName_allowed|].
  split; [exact Hsuf|]. split; [|split; [exact Hl|]].
  - rewrite sanitizeFileName_formula. cbn zeta.
    destruct (100 <? _); [| exact Hsuf].
    apply suffix_app_r. reflexivity.
  - intros Hext. rewrite Hl.
    destruct (100 <? _) eqn:E; [lia|]. apply Z.ltb_ge, E.
Qed.

Lemma sanitizeFileName_bounded_witness :
  len (NodePath.extname (replace_disallowed long_name)) <= 100
  /\ len (sanitizeFileName long_name) <= 100
  /\ NodePath.extname (replace_disallowed long_extension_name)
     `suffix_of` sanitizeFileName long_extension_name.
Proof.
  assert (H : len (NodePath.extname (replace_disallowed long_name)) <= 100)
    by (apply Z.leb_le; vm_compute; reflexivity).
  split; [exact H|]. split.
  - exact (proj2 (proj2 (proj2 (proj2 (proj2 (proj2 (proj2
             (sanitizeFileName_bounded long_name))))))) H).
  - exact (proj1 (proj2 (proj2 (proj2 (proj2 (proj2
             (sanitizeFileName_bounded long_extension_name))))))).
Defined.

(** C9 as stated fails: a name whose extension is longer than 100
    characters comes back as that extension, 121 characters here. *)
Lemma sanitizeFileName_exceeds_100 :
  sanitizeFileName long_extension_name = drop 1 long_extension_name
  /\ ~ len (sanitizeFileName long_extension_name) <= 100.
Proof.
  split; [vm_compute; reflexivity|].
  intros H. apply Z.leb_le in H. vm_compute in H. discriminate H.
Qed.

(** ** The name taken from the URL *)

Lemma default_name_allowed : Forall (fun c => allowed_char c = true) DEFAULT_NAME.
Proof. apply Forall_forall. intros c Hc. vm_compute in Hc.
  repeat (apply elem_of_cons in Hc as [-> | Hc]; [reflexivity|]).
  apply elem_of_nil in Hc. destruct Hc.
Qed.

Lemma sanitize_default_name : sanitizeFileName DEFAULT_NAME = DEFAULT_NAME.
Proof. vm_compute. reflexivity. Qed.

Lemma truthy_str_nonempty (s : jsstring) : truthy_str s = true -> s <> [].
Proof. destruct s; [discriminate | discriminate]. Qed.

(** What [getFileNameFromUrl] returns, case by case. *)
Lemma getFileNameFromUrl_cases (env : Env) (u : jsstring) :
  getFileNameFromUrl env u =
  Ret (match URL_pathname env u with
       | None => DEFAULT_NAME
       | Some pathname =>
         let name := NodePath.basename pathname None in
         if negb (truthy_str name) || str_eqb name (lit "/") then DEFAULT_NAME
         else sanitizeFileName name
       end).
Proof.
  unfold getFileNameFromUrl, new_URL.
  destruct (URL_pathname env u) as [pathname|]; [|reflexivity].
  cbn [bind try_catch]. destruct (_ || _); [|reflexivity].
  rewrite sanitize_default_name. reflexivity.
Qed.

(** C10. For every string [u], [getFileNameFromUrl] returns (it does not
    throw) a non-empty name made of characters of the sanitised set; the
    name is the literal [downloaded_file] when [u] does not parse as a URL
    or its path has no last segment. Hence the constructor is total in
    [u]: whenever its progress vector is built (the caller's, or
    [new Array(numConnections)] for a valid length) it returns the job,
    with [u] as its URL and a file name that is not empty; the only
    exception it can raise is the one of [new Array], which does not
    depend on [u]. *)
Theorem getFileNameFromUrl_total (env : Env) (u : jsstring) :
  (exists name,
     getFileNameFromUrl env u = Ret name
     /\ name <> []
     /\ Forall (fun c => allowed_char c = true) name
     /\ name = match URL_pathname env u with
               | None => DEFAULT_NAME
               | Some pathname =>
                 match NodePath.basename pathname None with
                 | [] => DEFAULT_NAME
                 | seg => if str_eqb seg (lit "/") then DEFAULT_NAME
                          else sanitizeFileName seg
                 end
               end)
  /\ forall (dir : jsstring) (options : DownloaderOptions) (nowStr : jsstring),
       let built :=
         match opt_downloadedBytesPerChunk options with
         | Some v => Ret v
         | None => new_Array_fill0 (num_or (opt_numConnections options) 8)
         end in
       (forall vec, built = Ret vec ->
          exists d,
            constructor env u dir options nowStr = Ret d
            /\ url d = u
            /\ downloadedBytesPerChunk d = vec
            /\ fileName d <> []
            /\ Ret (fileName d)
               = match opt_fileName options with
                 | Some f => if truthy_str f then Ret f
                             else getFileNameFromUrl env u
                 | None => getFileNameFromUrl env u
                 end)
       /\ (forall msg, built = Throw msg ->
             constructor env u dir options nowStr = Throw msg)
       /\ (0 <= num_or (opt_numConnections options) 8 <= MAX_ARRAY_LENGTH ->
           is_ret (constructor env u dir options nowStr) = true).
Proof.
  assert (Hname : exists name,
     getFileNameFromUrl env u = Ret name
     /\ name <> []
     /\ Forall (fun c => allowed_char c = true) name
     /\ name = match URL_pathname env u with
               | None => DEFAULT_NAME
               | Some pathname =>
                 match NodePath.basename pathname None with
                 | [] => DEFAULT_NAME
                 | seg => if str_eqb seg (lit "/") then DEFAULT_NAME
                          else sanitizeFileName seg
                 end
               end).
  { eexists. split; [apply getFileNameFromUrl_cases|].
    destruct (URL_pathname env u) as [pathname|].
    + cbn zeta. destruct (NodePath.basename pathname None) as [|c seg] eqn:E.
      * cbn. split; [discriminate|]. split; [apply default_name_allowed | reflexivity].
      * cbn [truthy_str negb orb].
        destruct (str_eqb (c :: seg) (lit "/")).
        -- split; [discriminate|]. split; [apply default_name_allowed | reflexivity].
        -- split; [apply sanitizeFileName_nonempty; discriminate|].
           split; [apply sanitizeFileName_allowed | reflexivity].
    + split; [discriminate|]. split; [apply default_name_allowed | reflexivity]. }
  split; [exact Hname|].
  destruct Hname as (name & Hget & Hne & _).
  intros dir options nowStr. cbn zeta.
  assert (Hchoice : exists chosen,
            match opt_fileName options with
            | Some f => if truthy_str f then Ret f else getFileNameFromUrl env u
            | None => getFileNameFromUrl env u
            end = Ret chosen /\ chosen <> []).
  { destruct (opt_fileName options) as [f|];
      [destruct (truthy_str f) eqn:Ef|].
    - exists f. split; [reflexivity | apply truthy_str_nonempty, Ef].
    - exists name. split; [exact Hget | exact Hne].
    - exists name. split; [exact Hget | exact Hne]. }
  destruct Hchoice as (chosen & Hch & Hchne).
  unfold constructor. rewrite Hch. cbn [bind].
  split; [|split].
  - intros vec Hv. rewrite Hv. cbn [bind]. eexists. split; [reflexivity|].
    cbn. repeat split; try reflexivity. exact Hchne.
  - intros msg Hv. rewrite Hv. reflexivity.
  - intros HN. destruct (opt_downloadedBytesPerChunk options) as [v|];
      [reflexivity|].
    unfold new_Array_fill0.
    replace (0 <=? _) with true by (symmetry; apply Z.leb_le; lia).
    replace (_ <=? MAX_ARRAY_LENGTH) with true by (symmetry; apply Z.leb_le; lia).
    reflexivity.
Qed.

Lemma getFileNameFromUrl_total_witness :
  new_Array_fill0 (num_or (opt_numConnections (sample_options 1000 4)) 8)
  = Ret (replicate 4 (Num 0))
  /\ exists d,
       constructor sample_env (lit "not a url") (lit "/out") (sample_options 1000 4)
         (lit "1700000000000") = Ret d
       /\ url d = lit "not a url"
       /\ downloadedBytesPerChunk d = replicate 4 (Num 0)
       /\ fileName d = DEFAULT_NAME.
Proof.
  assert (H : new_Array_fill0 (num_or (opt_numConnections (sample_options 1000 4)) 8)
              = Ret (replicate 4 (Num 0))) by reflexivity.
  split; [exact H|].
  destruct (proj1 (proj2 (getFileNameFromUrl_total sample_env (lit "not a url"))
                     (lit "/out") (sample_options 1000 4) (lit "1700000000000"))
              _ H)
    as (d & Hd & Hu & Hv & _ & Hn).
  exists d. split; [exact Hd|]. split; [exact Hu|]. split; [exact Hv|].
  injection Hn as Hn. exact Hn.
Defined.

(** ** The chunk planner *)

Section Planner.

Variables T N : Z.
Hypothesis T_nonneg : 0 <= T.
Hypothesis N_pos : 1 <= N.

Local Abbreviation c := (T / N).

Lemma chunk_bounds : 0 <= c /\ c * N <= T < c * N + N.
Proof.
  split; [apply Z.div_pos; lia|].
  pose proof (Z.mul_div_le T N ltac:(lia)).
  pose proof (Z.mul_succ_div_gt T N ltac:(lia)). lia.
Qed.

Lemma fresh_slot (n i : nat) : cell_or_zero (replicate n (Num 0) !! i) = 0.
Proof.
  destruct (replicate n (Num 0) !! i) as [x|] eqn:E; [|reflexivity].
  apply lookup_replicate in E as [-> _]. reflexivity.
Qed.

(** Membership in a fresh plan, by index. *)
Lemma plan_fresh_elem (s : dispatch) :
  s ∈ plan T N (replicate (Z.to_nat N) (Num 0)) <->
  0 <= seg_index s < N
  /\ seg_start s = segment_start T N (seg_index s)
  /\ seg_end s = segment_end T N (seg_index s)
  /\ seg_start s <= seg_end s.
Proof.
  unfold plan. rewrite list_elem_of_omap. split.
  - intros [i [Hi Hs]]. apply elem_of_seqZ in Hi.
    unfold plan_segment in Hs. rewrite fresh_slot, Z.add_0_r in Hs.
    destruct (_ <=? _) eqn:E; [|discriminate]. apply Z.leb_le in E.
    injection Hs as <-. cbn. unfold segment_end, segment_start.
    repeat split; try lia; try reflexivity.
  - intros (Hi & Hst & Hen & Hle). exists (seg_index s). split.
    + apply elem_of_seqZ. lia.
    + unfold plan_segment. rewrite fresh_slot, Z.add_0_r.
      destruct s as [i a e]. cbn in *. subst a e.
      unfold segment_end, segment_start in *.
      rewrite (proj2 (Z.leb_le _ _) Hle). reflexivity.
Qed.

Lemma segment_end_cases (i : Z) :
  (i = N - 1 /\ segment_end T N i = T - 1)
  \/ (i <> N - 1 /\ segment_end T N i = i * c + c - 1).
Proof.
  unfold segment_end, segment_start.
  destruct (i =? N - 1) eqn:E.
  - left. apply Z.eqb_eq in E. split; [exact E | reflexivity].
  - right. apply Z.eqb_neq in E. split; [exact E | reflexivity].
Qed.

Lemma plan_fresh_within (s : dispatch) (b : Z) :
  s ∈ plan T N (replicate (Z.to_nat N) (Num 0)) -> covers s b -> 0 <= b < T.
Proof.
  intros Hs Hb. apply plan_fresh_elem in Hs as (Hi & Hst & Hen & Hle).
  unfold covers in Hb. unfold segment_start in Hst.
  pose proof chunk_bounds as [Hc Hcn].
  destruct (segment_end_cases (seg_index s)) as [[E1 E2] | [E1 E2]];
    rewrite E2 in Hen; nia.
Qed.

Lemma plan_fresh_covering (b : Z) :
  0 <= b < T ->
  exists s, s ∈ plan T N (replicate (Z.to_nat N) (Num 0)) /\ covers s b.
Proof.
  intros Hb. pose proof chunk_bounds as [Hc Hcn].
  destruct (Z_lt_le_dec b ((N - 1) * c)) as [Hlt | Hge].
  - (* an inner segment *)
    assert (Hcpos : 0 < c) by nia.
    pose proof (Z.mul_div_le b c Hcpos) as Hq1.
    pose proof (Z.mul_succ_div_gt b c Hcpos) as Hq2.
    assert (Hq0 : 0 <= b / c) by (apply Z.div_pos; lia).
    assert (Hq : b / c < N - 1) by nia.
    exists {| seg_index := b / c; seg_start := (b / c) * c;
              seg_end := (b / c) * c + c - 1 |}.
    split.
    + apply plan_fresh_elem. cbn. unfold segment_end, segment_start.
      replace (b / c =? N - 1) with false by (symmetry; apply Z.eqb_neq; lia).
      repeat split; lia.
    + unfold covers. cbn. lia.
  - (* the last segment *)
    exists {| seg_index := N - 1; seg_start := (N - 1) * c; seg_end := T - 1 |}.
    split.
    + apply plan_fresh_elem. cbn. unfold segment_end, segment_start.
      rewrite Z.eqb_refl. repeat split; lia.
    + unfold covers. cbn. lia.
Qed.

Lemma plan_fresh_disjoint (s1 s2 : dispatch) (b : Z) :
  s1 ∈ plan T N (replicate (Z.to_nat N) (Num 0)) ->
  s2 ∈ plan T N (replicate (Z.to_nat N) (Num 0)) ->
  covers s1 b -> covers s2 b -> s1 = s2.
Proof.
  intros H1 H2 B1 B2.
  apply plan_fresh_elem in H1 as (Hi1 & Hst1 & Hen1 & Hle1).
  apply plan_fresh_elem in H2 as (Hi2 & Hst2 & Hen2 & Hle2).
  unfold covers in B1, B2. unfold segment_start in Hst1, Hst2.
  pose proof chunk_bounds as [Hc Hcn].
  assert (Hidx : seg_index s1 = seg_index s2).
  { destruct (segment_end_cases (seg_index s1)) as [[E1 E1'] | [E1 E1']];
    destruct (segment_end_cases (seg_index s2)) as [[E2 E2'] | [E2 E2']];
    rewrite E1' in Hen1; rewrite E2' in Hen2; nia. }
  destruct s1 as [i1 a1 e1], s2 as [i2 a2 e2]. cbn in *. subst i2.
  congruence.
Qed.

End Planner.

Lemma NoDup_omap_inj {A B} (f : A -> option B) (l : list A) :
  (forall x y z, f x = Some z -> f y = Some z -> x = y) ->
  NoDup l -> NoDup (omap f l).
Proof.
  intros Hinj Hl. induction Hl as [|x l Hx Hl IH]; [constructor|].
  cbn. destruct (f x) as [z|] eqn:E; [|exact IH].
  constructor; [|exact IH].
  intros Hz. apply list_elem_of_omap in Hz as [y [Hy Hfy]].
  rewrite (Hinj _ _ _ E Hfy) in Hx. contradiction.
Qed.

Lemma plan_NoDup (T N : Z) (vec : list cell) : NoDup (plan T N vec).
Proof.
  unfold plan. apply NoDup_omap_inj; [|apply NoDup_seqZ].
  intros x y z Hx Hy. unfold plan_segment in Hx, Hy.
  destruct (_ <=? _) in Hx; [|discriminate].
  destruct (_ <=? _) in Hy; [|discriminate].
  injection Hx as <-. injection Hy as Hy _ _. cbn in Hy. congruence.
Qed.

(** *** Double precision up to [2^53] *)

(** Integers up to [2^53] are not rounded, and rounding a larger one never
    takes it below [2^53]. *)
Lemma round64_exact (z : Z) : Z.abs z <= MAX_EXACT_INTEGER -> round64 z = z.
Proof.
  intros H. unfold round64. rewrite (proj2 (Z.leb_le _ _) H). reflexivity.
Qed.

Lemma nearest_even_lower (num den : Z) : num / den <= nearest_even num den.
Proof. unfold nearest_even. destruct (_ <? _); [lia|]. destruct (_ <? _); [lia|].
  destruct (Z.even _); lia. Qed.

Lemma round64_large (z : Z) : MAX_EXACT_INTEGER < z -> MAX_EXACT_INTEGER <= round64 z.
Proof.
  unfold round64, MAX_EXACT_INTEGER. intros H.
  rewrite (Z.abs_eq z) by lia.
  replace (z <=? 2 ^ 53) with false by (symmetry; apply Z.leb_gt; lia).
  rewrite (Z.sgn_pos z) by lia. rewrite Z.mul_1_l.
  assert (Hl : 53 <= Z.log2 z) by (apply Z.log2_le_pow2; lia).
  destruct (Z.log2_spec z ltac:(lia)) as [Hlo _].
  set (k := Z.log2 z - 52) in *.
  assert (Hk : 1 <= k) by (unfold k; lia).
  assert (Hp : 0 < 2 ^ k) by (apply Z.pow_pos_nonneg; lia).
  pose proof (nearest_even_lower z (2 ^ k)) as Hn.
  assert (Hq : 2 ^ 52 <= z / 2 ^ k).
  { apply Z.div_le_lower_bound; [exact Hp|].
    replace (Z.log2 z) with (k + 52) in Hlo by (unfold k; lia).
    rewrite Z.pow_add_r in Hlo by lia. lia. }
  assert (Hk2 : 2 ^ 1 <= 2 ^ k) by (apply Z.pow_le_mono_r; lia).
  change (2 ^ 1) with 2 in Hk2. nia.
Qed.

(** The exponent chosen for a quotient leaves at least 53 bits before the
    rounding: [a / b >= 2^E] for [E = e + 52]. *)
Lemma quotient_exponent_normal (a b : Z) :
  1 <= a -> 1 <= b ->
  let E := quotient_exponent a b + 52 in
  (0 <= E -> 2 ^ E * b <= a) /\ (E < 0 -> b <= a * 2 ^ (- E)).
Proof.
  intros Ha Hb. cbn zeta. unfold quotient_exponent.
  destruct (Z.log2_spec a ltac:(lia)) as [Ha1 Ha2].
  destruct (Z.log2_spec b ltac:(lia)) as [Hb1 Hb2].
  pose proof (Z.log2_nonneg a) as Hla. pose proof (Z.log2_nonneg b) as Hlb.
  set (la := Z.log2 a) in *. set (lb := Z.log2 b) in *.
  set (l := la - lb).
  rewrite Z.pow_succ_r in Ha2, Hb2 by lia.
  match goal with |- context [if ?c then l - 1 else l] => destruct c eqn:Hbelow end.
  - replace (l - 1 - 52 + 52) with (l - 1) by lia. split; intros HE.
    + assert (Hp : 2 ^ la = 2 ^ (l - 1) * (2 * 2 ^ lb)).
      { rewrite <- Z.pow_succ_r by lia. rewrite <- Z.pow_add_r by lia.
        f_equal. unfold l. lia. }
      assert (0 < 2 ^ (l - 1)) by (apply Z.pow_pos_nonneg; lia). nia.
    + assert (Hp : 2 ^ la * 2 ^ (- (l - 1)) = 2 * 2 ^ lb).
      { rewrite <- Z.pow_add_r by lia. rewrite <- Z.pow_succ_r by lia.
        f_equal. unfold l. lia. }
      assert (0 < 2 ^ (- (l - 1))) by (apply Z.pow_pos_nonneg; lia). nia.
  - replace (l - 52 + 52) with l by lia. split; intros HE.
    + rewrite (proj2 (Z.leb_le 0 l) HE) in Hbelow. apply Z.ltb_ge in Hbelow. lia.
    + replace (0 <=? l) with false in Hbelow by (symmetry; apply Z.leb_gt; lia).
      apply Z.ltb_ge in Hbelow. lia.
Qed.

Lemma nearest_even_cases (num den : Z) :
  0 < den ->
  nearest_even num den = num / den
  \/ (nearest_even num den = num / den + 1 /\ den <= 2 * (num mod den)).
Proof.
  intros Hd. unfold nearest_even.
  destruct (2 * (num mod den) <? den) eqn:E1; [left; reflexivity|].
  apply Z.ltb_ge in E1.
  destruct (den <? 2 * (num mod den)); [right; split; [reflexivity | exact E1]|].
  destruct (Z.even _); [left; reflexivity | right; split; [reflexivity | exact E1]].
Qed.

(** Up to [2^53] the rounding of the quotient never reaches the next
    integer: [Math.floor(a / b)] is the integer quotient. *)
Lemma floor_div64_exact (a b : Z) :
  0 <= a <= MAX_EXACT_INTEGER -> 1 <= b -> floor_div64 a b = a / b.
Proof.
  unfold MAX_EXACT_INTEGER. intros Ha Hb. unfold floor_div64.
  destruct (a =? 0) eqn:E0.
  { apply Z.eqb_eq in E0. subst a. symmetry. apply Zdiv_0_l. }
  apply Z.eqb_neq in E0.
  cbv zeta. rewrite (Z.abs_eq a), (Z.sgn_pos a) by lia.
  destruct (quotient_exponent_normal a b ltac:(lia) Hb) as [Hn1 Hn2].
  cbn zeta in Hn1, Hn2.
  set (e := quotient_exponent a b) in *.
  destruct (0 <=? e) eqn:Ee.
  - apply Z.leb_le in Ee. rewrite Z.mul_1_l.
    specialize (Hn1 ltac:(lia)).
    rewrite Z.pow_add_r in Hn1 by lia.
    assert (He : e = 0 \/ e = 1).
    { destruct (Z_lt_le_dec e 2) as [|H2]; [lia|].
      assert (2 ^ 2 <= 2 ^ e) by (apply Z.pow_le_mono_r; lia).
      change (2 ^ 2) with 4 in *. nia. }
    destruct He as [-> | ->].
    + change (2 ^ 0) with 1 in *. rewrite !Z.mul_1_r.
      assert (Hb' : b = 1 \/ (b = 2 /\ a = 2 ^ 53)) by lia.
      destruct Hb' as [-> | [-> ->]]; [|reflexivity].
      unfold nearest_even. rewrite Z.mod_1_r, Z.div_1_r. reflexivity.
    + change (2 ^ 1) with 2 in *. assert (b = 1 /\ a = 2 ^ 53) as [-> ->] by lia.
      reflexivity.
  - apply Z.leb_gt in Ee. rewrite Z.mul_1_l.
    set (P := 2 ^ (- e)).
    assert (HP : 2 <= P).
    { change 2 with (2 ^ 1). apply Z.pow_le_mono_r; lia. }
    assert (Hnorm : 2 ^ 52 * b <= a * P).
    { destruct (Z_lt_le_dec (e + 52) 0) as [Hneg | Hpos].
      - specialize (Hn2 Hneg).
        assert (P = 2 ^ (- (e + 52)) * 2 ^ 52) as ->
            by (unfold P; rewrite <- Z.pow_add_r by lia; f_equal; lia).
        nia.
      - specialize (Hn1 Hpos).
        assert (2 ^ 52 = 2 ^ (e + 52) * P) as ->
            by (unfold P; rewrite <- Z.pow_add_r by lia; f_equal; lia).
        nia. }
    assert (Hq : a * P / b / P = a / b).
    { rewrite Z.div_div by lia. apply Z.div_mul_cancel_r; lia. }
    destruct (nearest_even_cases (a * P) b ltac:(lia)) as [-> | [-> Hup]];
      [exact Hq|].
    pose proof (Z.div_mod (a * P) b ltac:(lia)) as Dm.
    pose proof (Z.mod_pos_bound (a * P) b ltac:(lia)) as Dr.
    pose proof (Z.div_mod a b ltac:(lia)) as Da.
    pose proof (Z.mod_pos_bound a b ltac:(lia)) as Dar.
    pose proof (Z.div_mod (a * P / b) P ltac:(lia)) as Dq.
    pose proof (Z.mod_pos_bound (a * P / b) P ltac:(lia)) as Dqr.
    rewrite Hq in Dq.
    set (m0 := a * P / b) in *. set (r' := (a * P) mod b) in *.
    set (q := a / b) in *. set (r := a mod b) in *. set (t := m0 mod P) in *.
    symmetry. apply (Z.div_unique_pos _ _ _ (t + 1)); [|lia].
    split; [lia|].
    destruct (Z.eq_dec (t + 1) P) as [Heq|]; [exfalso | lia].
    assert (HK : 2 ^ 53 = 2 * 2 ^ 52) by reflexivity.
    rewrite HK in Ha. assert (HK0 : 0 < 2 ^ 52) by reflexivity.
    set (K := 2 ^ 52) in *. clearbody K P m0 r' q r t.
    assert (Hm0 : m0 = P * q + P - 1) by lia.
    assert (H1 : P * (b - r) = b - r').
    { rewrite Hm0 in Dm. rewrite Da in Dm at 1. lia. }
    assert (H2 : 2 * P <= b).
    { assert (P * 1 <= P * (b - r)) by (apply Z.mul_le_mono_nonneg_l; lia). lia. }
    assert (H3 : b <= 2 * P).
    { assert (a * P <= 2 * K * P) by (apply Z.mul_le_mono_nonneg_r; lia).
      apply (Z.mul_le_mono_pos_l _ _ K); lia. }
    assert (H4 : b = 2 * P) by lia.
    assert (H5 : 2 * K <= a).
    { apply (Z.mul_le_mono_pos_r _ _ P); lia. }
    assert (H6 : b * (K - m0) = r').
    { assert (a = 2 * K) as Ha' by lia. rewrite Ha' in Dm. lia. }
    destruct (Z.lt_trichotomy (K - m0) 0) as [Hn | [Hz | Hp]].
    + assert (b * (K - m0) <= b * (-1)) by (apply Z.mul_le_mono_nonneg_l; lia). lia.
    + rewrite Hz in H6. lia.
    + assert (b * 1 <= b * (K - m0)) by (apply Z.mul_le_mono_nonneg_l; lia). lia.
Qed.

Lemma plan_segment64_exact (T N : Z) (vec : list cell) (i : Z) :
  0 <= T <= MAX_EXACT_INTEGER -> 1 <= N <= MAX_EXACT_INTEGER ->
  Forall (fun c => 0 <= cell_or_zero (Some c)) vec ->
  0 <= i < N ->
  plan_segment64 T N (T / N) vec i = plan_segment T N (T / N) vec i.
Proof.
  unfold MAX_EXACT_INTEGER. intros HT HN Hvec Hi.
  pose proof (chunk_bounds T N ltac:(lia) ltac:(lia)) as [Hc Hcn].
  set (c := T / N) in *.
  assert (Hd : 0 <= cell_or_zero (vec !! Z.to_nat i)).
  { destruct (vec !! Z.to_nat i) as [x|] eqn:E; [|cbn; lia].
    exact (proj1 (Forall_lookup _ vec) Hvec _ _ E). }
  assert (Hic : 0 <= i * c /\ i * c + c <= T) by nia.
  unfold plan_segment64, plan_segment. cbv zeta.
  rewrite (round64_exact (i * c)) by (unfold MAX_EXACT_INTEGER; lia).
  rewrite (round64_exact (N - 1)) by (unfold MAX_EXACT_INTEGER; lia).
  rewrite (round64_exact (T - 1)) by (unfold MAX_EXACT_INTEGER; lia).
  rewrite (round64_exact (i * c + c)) by (unfold MAX_EXACT_INTEGER; lia).
  rewrite (round64_exact (i * c + c - 1)) by (unfold MAX_EXACT_INTEGER; lia).
  set (end_ := if i =? N - 1 then T - 1 else i * c + c - 1).
  assert (Hend : end_ < 2 ^ 53) by (unfold end_; destruct (i =? N - 1); lia).
  set (x := i * c + cell_or_zero (vec !! Z.to_nat i)) in *.
  destruct (Z_le_gt_dec x (2 ^ 53)) as [Hx | Hx].
  - rewrite (round64_exact x) by (unfold MAX_EXACT_INTEGER, x in *; lia). reflexivity.
  - pose proof (round64_large x ltac:(unfold MAX_EXACT_INTEGER; lia)) as Hr.
    unfold MAX_EXACT_INTEGER in Hr.
    replace (round64 x <=? end_) with false by (symmetry; apply Z.leb_gt; lia).
    replace (x <=? end_) with false by (symmetry; apply Z.leb_gt; lia).
    reflexivity.
Qed.

Lemma omap_ext_in {A B} (f g : A -> option B) (l : list A) :
  (forall x, x ∈ l -> f x = g x) -> omap f l = omap g l.
Proof.
  induction l as [|x l IH]; intros H; [reflexivity|].
  cbn. rewrite (H x) by left. rewrite IH; [reflexivity|].
  intros y Hy. apply H. right. exact Hy.
Qed.

(** Up to [2^53], and with counters that are not negative, the loop in
    doubles makes the calls of the loop in integers. *)
Lemma plan64_exact (T N : Z) (vec : list cell) :
  0 <= T <= MAX_EXACT_INTEGER -> 1 <= N <= MAX_EXACT_INTEGER ->
  Forall (fun c => 0 <= cell_or_zero (Some c)) vec ->
  plan64 T N vec = plan T N vec.
Proof.
  intros HT HN Hvec. unfold plan64, plan. cbv zeta.
  rewrite floor_div64_exact by lia.
  apply omap_ext_in. intros i Hi. apply elem_of_seqZ in Hi.
  apply plan_segment64_exact; (assumption || lia).
Qed.

(** C3, amended. For [0 <= T <= 2^53] and [1 <= N <= 2^53], where the
    doubles of the loop are exact, the segments dispatched on a fresh start
    (every counter 0) are those of the exact plan: they have the planned
    ranges, no byte lies in two of them, and the bytes they cover are
    exactly those of [[0, T)]. *)
Theorem plan_fresh_partition (T N : Z) :
  0 <= T <= MAX_EXACT_INTEGER -> 1 <= N <= MAX_EXACT_INTEGER ->
  let segs := plan64 T N (replicate (Z.to_nat N) (Num 0)) in
  segs = plan T N (replicate (Z.to_nat N) (Num 0))
  /\ NoDup segs
  /\ (forall s, s ∈ segs ->
        0 <= seg_index s < N
        /\ seg_start s = segment_start T N (seg_index s)
        /\ seg_end s = segment_end T N (seg_index s))
  /\ (forall s1 s2 b, s1 ∈ segs -> s2 ∈ segs ->
        covers s1 b -> covers s2 b -> s1 = s2)
  /\ (forall b, (exists s, s ∈ segs /\ covers s b) <-> 0 <= b < T).
Proof.
  intros HT HN. cbn zeta.
  assert (Hfresh : Forall (fun c => 0 <= cell_or_zero (Some c))
                     (replicate (Z.to_nat N) (Num 0))).
  { apply Forall_forall. intros c Hc. apply elem_of_replicate in Hc as [-> _].
    cbn. lia. }
  rewrite (plan64_exact T N _ HT HN Hfresh).
  assert (HT0 : 0 <= T) by lia. assert (HN1 : 1 <= N) by lia.
  split; [reflexivity|]. split; [apply plan_NoDup|]. split; [|split].
  - intros s Hs. apply plan_fresh_elem in Hs. tauto.
  - intros s1 s2 b. apply (plan_fresh_disjoint T N HT0 HN1).
  - intros b. split.
    + intros [s [Hs Hb]]. exact (plan_fresh_within T N HT0 HN1 s b Hs Hb).
    + apply (plan_fresh_covering T N HT0 HN1).
Qed.

Lemma plan_fresh_partition_witness :
  0 <= 1001 <= MAX_EXACT_INTEGER /\ 1 <= 4 <= MAX_EXACT_INTEGER
  /\ plan64 1001 4 (replicate 4 (Num 0)) =
     [ {| seg_index := 0; seg_start := 0; seg_end := 249 |};
       {| seg_index := 1; seg_start := 250; seg_end := 499 |};
       {| seg_index := 2; seg_start := 500; seg_end := 749 |};
       {| seg_index := 3; seg_start := 750; seg_end := 1000 |} ]
  /\ (forall b, (exists s, s ∈ plan64 1001 4 (replicate 4 (Num 0)) /\ covers s b)
                <-> 0 <= b < 1001).
Proof.
  assert (H1 : 0 <= 1001 <= MAX_EXACT_INTEGER) by (unfold MAX_EXACT_INTEGER; lia).
  assert (H2 : 1 <= 4 <= MAX_EXACT_INTEGER) by (unfold MAX_EXACT_INTEGER; lia).
  split; [exact H1|]. split; [exact H2|]. split; [vm_compute; reflexivity|].
  exact (proj2 (proj2 (proj2 (proj2 (plan_fresh_partition 1001 4 H1 H2))))).
Defined.

(** C3 as stated fails: a size of [2^53 + 2] bytes is a double, but the
    [T - 1] of line 217 is not and rounds to [2^53]; with one connection
    the planner asks for the bytes up to [2^53], and the last byte of the
    file, [2^53 + 1], lies in no dispatched range. *)
Lemma plan_fresh_beyond_exact_integers :
  let T := MAX_EXACT_INTEGER + 2 in
  let segs := plan64 T 1 (replicate 1 (Num 0)) in
  round64 T = T
  /\ reference_round (T - 1) = Some MAX_EXACT_INTEGER
  /\ segs = [ {| seg_index := 0; seg_start := 0; seg_end := MAX_EXACT_INTEGER |} ]
  /\ 0 <= T - 1 < T
  /\ ~ (exists s, s ∈ segs /\ covers s (T - 1))
  /\ ~ (forall b, (exists s, s ∈ segs /\ covers s b) <-> 0 <= b < T).
Proof.
  cbn zeta.
  assert (Hsegs : plan64 (MAX_EXACT_INTEGER + 2) 1 (replicate 1 (Num 0))
                  = [ {| seg_index := 0; seg_start := 0;
                         seg_end := MAX_EXACT_INTEGER |} ])
    by (vm_compute; reflexivity).
  assert (Hnot : ~ (exists s, s ∈ plan64 (MAX_EXACT_INTEGER + 2) 1
                                   (replicate 1 (Num 0))
                              /\ covers s (MAX_EXACT_INTEGER + 2 - 1))).
  { rewrite Hsegs. intros (s & Hs & Hb). apply list_elem_of_singleton in Hs.
    subst s. unfold covers, MAX_EXACT_INTEGER in Hb. cbn in Hb. lia. }
  split; [vm_compute; reflexivity|]. split; [vm_compute; reflexivity|].
  split; [exact Hsegs|]. split; [unfold MAX_EXACT_INTEGER; lia|].
  split; [exact Hnot|].
  intros Hall. apply Hnot, Hall. unfold MAX_EXACT_INTEGER. lia.
Qed.

Lemma omap_all_None {A B} (f : A -> option B) (l : list A) :
  (forall x, x ∈ l -> f x = None) -> omap f l = [].
Proof.
  induction l as [|x l IH]; intros H; [reflexivity|].
  cbn. rewrite (H x) by (left). apply IH. intros y Hy. apply H. right. exact Hy.
Qed.

(** C4, amended. For [N > T > 0] the planner dispatches exactly one
    segment, the last one, with the range [[0, T - 1]] of [T] bytes; the
    [N - 1] segments before it are skipped. *)
Theorem plan_more_connections_than_bytes (T N : Z) :
  0 < T -> T < N ->
  plan T N (replicate (Z.to_nat N) (Num 0)) =
  [ {| seg_index := N - 1; seg_start := 0; seg_end := T - 1 |} ].
Proof.
  intros HT HN. unfold plan. rewrite (Z.div_small T N) by lia.
  replace (seqZ 0 N) with (seqZ 0 ((N - 1) + 1)) by (f_equal; lia).
  rewrite seqZ_app by lia. rewrite omap_app.
  rewrite omap_all_None.
  - rewrite Z.add_0_l. rewrite seqZ_cons by lia. rewrite seqZ_nil by lia.
    cbn [omap list_omap app]. unfold plan_segment at 1.
    rewrite fresh_slot, Z.eqb_refl, Z.mul_0_r, Z.add_0_r.
    replace (0 <=? T - 1) with true by (symmetry; apply Z.leb_le; lia).
    reflexivity.
  - intros i Hi. apply elem_of_seqZ in Hi. unfold plan_segment.
    rewrite fresh_slot.
    replace (i =? N - 1) with false by (symmetry; apply Z.eqb_neq; lia).
    replace (i * 0 + 0 <=? i * 0 + 0 - 1) with false
      by (symmetry; apply Z.leb_gt; lia).
    reflexivity.
Qed.

Lemma plan_more_connections_than_bytes_witness :
  0 < 3 /\ 3 < 8
  /\ plan 3 8 (replicate 8 (Num 0)) =
     [ {| seg_index := 7; seg_start := 0; seg_end := 2 |} ].
Proof.
  assert (H1 : 0 < 3) by lia. assert (H2 : 3 < 8) by lia.
  split; [exact H1|]. split; [exact H2|].
  exact (plan_more_connections_than_bytes 3 8 H1 H2).
Defined.

(** C4 as stated fails: with 2 bytes and 3 connections the planner
    dispatches one segment of 2 bytes, not 2 segments of 1 byte. *)
Lemma plan_2_bytes_3_connections :
  let segs := plan 2 3 (replicate 3 (Num 0)) in
  segs = [ {| seg_index := 2; seg_start := 0; seg_end := 1 |} ]
  /\ ~ (length segs = Z.to_nat 2
        /\ Forall (fun s => seg_end s - seg_start s + 1 = 1) segs).
Proof.
  cbn zeta. split; [reflexivity|].
  intros [Hlen _]. vm_compute in Hlen. discriminate Hlen.
Qed.

(** ** The retry supervisor *)

Lemma count_gets_snoc (fx : list effect) (f : effect) :
  count_gets (fx ++ [f]) = (count_gets fx + if is_get f then 1 else 0)%nat.
Proof.
  unfold count_gets, gets. rewrite List.filter_app, length_app.
  cbn. destruct (is_get f); reflexivity.
Qed.

Lemma count_gets_perform (f : effect) (w : world) :
  count_gets (effects (perform f w)) =
  (count_gets (effects w) + if is_get f then 1 else 0)%nat.
Proof. apply count_gets_snoc. Qed.

Lemma count_gets_pause (w : world) :
  count_gets (effects (pause w)) = count_gets (effects w).
Proof.
  change (effects (pause w)) with
    (effects w ++ [FxWriteState (stateFilePath (obj w))
                     (state_record (set_flags true true (obj w)))]).
  rewrite count_gets_snoc. cbn [is_get]. lia.
Qed.

Lemma count_gets_checkAndEmitProgress (now : Z) (w : world) :
  count_gets (effects (checkAndEmitProgress now w)) = count_gets (effects w).
Proof.
  unfold checkAndEmitProgress. destruct (1000 <? _); [|reflexivity].
  cbn zeta. destruct (5000 <? _); [|reflexivity].
  match goal with
  | |- count_gets (effects ?x) = _ =>
    change (effects x) with
      (effects w ++ [FxWriteState (stateFilePath (obj w))
                       (state_record (set_clock (startTime (obj w)) now
                                        (lastSaveTime (obj w)) (obj w)))])
  end.
  rewrite count_gets_snoc. cbn [is_get]. lia.
Qed.

Lemma count_gets_downloadChunk_loop (index : Z) (its : list stream_item)
    (e : stream_end) (pos : Z) (w : world) :
  count_gets (effects (fst (downloadChunk_loop index its e pos w)))
  = count_gets (effects w).
Proof.
  revert pos w. induction its as [|it its IH]; intros pos w.
  - destruct e; reflexivity.
  - destruct it as [n now piw|]; cbn [downloadChunk_loop].
    + destruct (aborted (obj w)); [reflexivity|].
      rewrite IH, count_gets_checkAndEmitProgress. unfold with_obj. cbn [effects].
      destruct piw; [rewrite count_gets_pause|]; rewrite count_gets_perform;
        cbn [is_get]; lia.
    + rewrite IH. apply count_gets_pause.
Qed.

Lemma count_gets_downloadChunk (index start end_ : Z) (a : attempt_script)
    (w : world) :
  count_gets (effects (fst (downloadChunk index start end_ a w)))
  = S (count_gets (effects w)).
Proof.
  unfold downloadChunk. rewrite count_gets_downloadChunk_loop, count_gets_perform.
  cbn [is_get]. lia.
Qed.

Lemma retry_budget (index start end_ : Z) (scripts : list attempt_script) :
  forall (a : Z) (w : world),
    (count_gets (effects (fst (downloadChunkWithRetry index start end_ a scripts w)))
     <= count_gets (effects w) + budget a)%nat.
Proof.
  unfold budget, maxRetries.
  induction scripts as [|s rest IH]; intros a w; cbn [downloadChunkWithRetry].
  - destruct (aborted (obj w)); cbn [fst]; [lia|].
    rewrite count_gets_perform. cbn [is_get]. lia.
  - destruct (aborted (obj w)); cbn [fst]; [lia|].
    pose proof (count_gets_downloadChunk index start end_ s w) as Hc.
    destruct (downloadChunk index start end_ s w) as [w1 [msg|]]; cbn [fst] in *;
      [|lia].
    destruct (aborted (obj w1)); cbn [fst]; [lia|].
    destruct (a <=? maxRetries) eqn:E; cbn [fst]; [|lia].
    apply Z.leb_le in E. unfold maxRetries in E.
    etransitivity; [apply IH|].
    assert (Hg : count_gets (effects (if paused_in_backoff s
                                      then pause (perform (FxBackoff a) w1)
                                      else perform (FxBackoff a) w1))
                 = count_gets (effects w1)).
    { destruct (paused_in_backoff s); [rewrite count_gets_pause|];
        rewrite count_gets_perform; cbn [is_get]; lia. }
    rewrite Hg. lia.
Qed.

(** An error reaches the caller only when the whole budget is spent. *)
Lemma retry_threw_after_budget (index start end_ : Z)
    (scripts : list attempt_script) :
  forall (a : Z) (w : world) (msg : jsstring),
    a <= maxRetries + 1 ->
    snd (downloadChunkWithRetry index start end_ a scripts w) = Threw msg ->
    count_gets (effects (fst (downloadChunkWithRetry index start end_ a scripts w)))
    = (count_gets (effects w) + budget a)%nat.
Proof.
  unfold budget, maxRetries.
  induction scripts as [|s rest IH]; intros a w msg Ha;
    cbn [downloadChunkWithRetry].
  - destruct (aborted (obj w)); cbn [snd]; discriminate.
  - destruct (aborted (obj w)); cbn [snd]; [discriminate|].
    pose proof (count_gets_downloadChunk index start end_ s w) as Hc.
    destruct (downloadChunk index start end_ s w) as [w1 [m|]]; cbn [fst snd] in *;
      [|discriminate].
    destruct (aborted (obj w1)); cbn [fst snd]; [discriminate|].
    destruct (a <=? maxRetries) eqn:E; cbn [fst snd].
    + apply Z.leb_le in E. unfold maxRetries in E. intros Hthrew.
      rewrite (IH _ _ msg) by (try lia; exact Hthrew).
      assert (Hg : count_gets (effects (if paused_in_backoff s
                                        then pause (perform (FxBackoff a) w1)
                                        else perform (FxBackoff a) w1))
                   = count_gets (effects w1)).
      { destruct (paused_in_backoff s); [rewrite count_gets_pause|];
          rewrite count_gets_perform; cbn [is_get]; lia. }
      rewrite Hg. lia.
    + apply Z.leb_gt in E. unfold maxRetries in E. intros _. lia.
Qed.

Lemma aborted_checkAndEmitProgress (now : Z) (w : world) :
  aborted (obj (checkAndEmitProgress now w)) = aborted (obj w).
Proof.
  unfold checkAndEmitProgress. destruct (1000 <? _); [|reflexivity].
  cbn zeta. destruct (5000 <? _); reflexivity.
Qed.

(** A stream during which the caller never pauses runs to its end. *)
Lemma loop_unpaused (index : Z) (its : list stream_item) (e : stream_end) :
  forall (pos : Z) (w : world),
    never_paused its -> aborted (obj w) = false ->
    aborted (obj (fst (downloadChunk_loop index its e pos w))) = false
    /\ snd (downloadChunk_loop index its e pos w)
       = match e with EndOfStream => None | StreamError msg => Some msg end.
Proof.
  induction its as [|it its IH]; intros pos w Hnp Ha; cbn [downloadChunk_loop].
  - destruct e; split; (exact Ha || reflexivity).
  - apply Forall_cons in Hnp as [Hit Hnp].
    destruct it as [n now [|]|]; try destruct Hit.
    rewrite Ha. apply IH; [exact Hnp|].
    rewrite aborted_checkAndEmitProgress. exact Ha.
Qed.

Lemma count_gets_backoff (a : Z) (b : bool) (w : world) :
  count_gets (effects (if b then pause (perform (FxBackoff a) w)
                       else perform (FxBackoff a) w))
  = count_gets (effects w).
Proof.
  destruct b; [rewrite count_gets_pause|]; rewrite count_gets_perform;
    cbn [is_get]; lia.
Qed.

(** An attempt that fails while the job is left alone. *)
Lemma failed_attempt (index start end_ : Z) (s : attempt_script) (w : world)
    (msg : jsstring) :
  aborted (obj w) = false ->
  never_paused (items s) -> ending s = StreamError msg ->
  exists w1,
    downloadChunk index start end_ s w = (w1, Some msg)
    /\ aborted (obj w1) = false
    /\ count_gets (effects w1) = S (count_gets (effects w)).
Proof.
  intros Ha Hnp He.
  pose proof (count_gets_downloadChunk index start end_ s w) as Hc.
  destruct (loop_unpaused index (items s) (ending s) start
              (perform (FxGet index start end_) w) Hnp Ha) as [Ha1 Hr].
  unfold downloadChunk in *.
  destruct (downloadChunk_loop index (items s) (ending s) start
              (perform (FxGet index start end_) w)) as [w1 r].
  cbn [fst snd] in *. rewrite He in Hr. subst r.
  exists w1. split; [reflexivity|]. split; [exact Ha1 | exact Hc].
Qed.

(** After [k] failed attempts the supervisor stands at attempt [a + k],
    with [k] requests made and the job still running. *)
Lemma retry_failed_prefix (index start end_ : Z) (failed : list attempt_script) :
  forall (a : Z) (rest : list attempt_script) (w : world),
    aborted (obj w) = false ->
    Forall fails_unpaused failed ->
    a + Z.of_nat (length failed) <= maxRetries + 1 ->
    exists w',
      downloadChunkWithRetry index start end_ a (failed ++ rest) w
      = downloadChunkWithRetry index start end_ (a + Z.of_nat (length failed)) rest w'
      /\ aborted (obj w') = false
      /\ count_gets (effects w') = (count_gets (effects w) + length failed)%nat.
Proof.
  induction failed as [|s failed IH]; intros a rest w Ha Hf Hb.
  - exists w. cbn [app length]. rewrite Z.add_0_r, Nat.add_0_r.
    split; [reflexivity|]. split; [exact Ha | reflexivity].
  - apply Forall_cons in Hf as [(Hnp & [msg He] & Hpb) Hf].
    cbn [length] in Hb. cbn [app downloadChunkWithRetry]. rewrite Ha.
    destruct (failed_attempt index start end_ s w msg Ha Hnp He)
      as (w1 & -> & Ha1 & Hc).
    rewrite Ha1.
    assert (Hle : a <= maxRetries) by (unfold maxRetries in *; lia).
    rewrite (proj2 (Z.leb_le _ _) Hle), Hpb.
    destruct (IH (a + 1) rest (perform (FxBackoff a) w1) Ha1 Hf
                ltac:(unfold maxRetries in *; lia))
      as (w' & Heq & Ha' & Hg).
    exists w'. cbn [length]. split.
    { rewrite Heq. f_equal. lia. }
    split; [exact Ha'|].
    rewrite Hg, count_gets_perform, Hc. cbn [is_get]. lia.
Qed.

(** A supervisor that finds the job running makes at least one request. *)
Lemma retry_requests_increase (index start end_ : Z) (scripts : list attempt_script) :
  forall (a : Z) (w : world),
    (count_gets (effects w) + (if aborted (obj w) then 0 else 1)
     <= count_gets (effects (fst (downloadChunkWithRetry index start end_ a
                                    scripts w))))%nat.
Proof.
  induction scripts as [|s rest IH]; intros a w; cbn [downloadChunkWithRetry].
  - destruct (aborted (obj w)); cbn [fst]; [lia|].
    rewrite count_gets_perform. cbn [is_get]. lia.
  - destruct (aborted (obj w)); cbn [fst]; [lia|].
    pose proof (count_gets_downloadChunk index start end_ s w) as Hc.
    destruct (downloadChunk index start end_ s w) as [w1 [msg|]]; cbn [fst] in *;
      [|lia].
    destruct (aborted (obj w1)); cbn [fst]; [lia|].
    destruct (a <=? maxRetries); cbn [fst]; [|lia].
    etransitivity; [|apply IH]. rewrite count_gets_backoff. lia.
Qed.

(** C2, amended. In one [start], the supervisor of a segment issues at
    most 11 ranged requests, the first attempt and up to 10 retries
    ([maxRetries = 10] counts the retries: a failed attempt [a] is retried
    while [a <= maxRetries]). The attempt counter starts at 1. Each failed
    attempt before exhaustion triggers exactly one retry: after [k <= 10]
    attempts that failed while the job was left alone, the supervisor has
    made [k] requests, stands at attempt [k + 1] and makes the request of
    that attempt. When the 11th attempt fails, its error propagates to the
    controller and no further request is made, whatever the network would
    have answered; and an error propagates in no other case. *)
Theorem supervisor_request_bound (s : dispatch) (scripts : list attempt_script)
    (w : world) :
  let r := supervise s scripts w in
  r = downloadChunkWithRetry (seg_index s) (seg_start s) (seg_end s) 1 scripts w
  /\ (count_gets (effects (fst r)) <= count_gets (effects w) + 11)%nat
  /\ (forall failed rest,
        scripts = failed ++ rest -> aborted (obj w) = false ->
        Forall fails_unpaused failed -> (length failed <= 10)%nat ->
        (exists w',
           r = downloadChunkWithRetry (seg_index s) (seg_start s) (seg_end s)
                 (1 + Z.of_nat (length failed)) rest w'
           /\ aborted (obj w') = false
           /\ count_gets (effects w') = (count_gets (effects w) + length failed)%nat)
        /\ (count_gets (effects w) + length failed + 1
            <= count_gets (effects (fst r)))%nat
        /\ (rest = [] ->
            snd r = Pending
            /\ count_gets (effects (fst r))
               = (count_gets (effects w) + length failed + 1)%nat))
  /\ (forall failed last rest msg,
        scripts = failed ++ last :: rest -> aborted (obj w) = false ->
        Forall fails_unpaused failed -> length failed = 10%nat ->
        never_paused (items last) -> ending last = StreamError msg ->
        snd r = Threw msg
        /\ count_gets (effects (fst r)) = (count_gets (effects w) + 11)%nat)
  /\ (forall msg, snd r = Threw msg ->
        count_gets (effects (fst r)) = (count_gets (effects w) + 11)%nat).
Proof.
  cbn zeta. unfold supervise. split; [reflexivity|]. split; [|split; [|split]].
  - etransitivity; [apply retry_budget|]. reflexivity.
  - intros failed rest -> Ha Hf Hlen.
    destruct (retry_failed_prefix (seg_index s) (seg_start s) (seg_end s)
                failed 1 rest w Ha Hf ltac:(unfold maxRetries; lia))
      as (w' & Heq & Ha' & Hg).
    pose proof (retry_requests_increase (seg_index s) (seg_start s) (seg_end s)
                  rest (1 + Z.of_nat (length failed)) w') as Hinc.
    rewrite Ha' in Hinc. rewrite Heq.
    split; [exists w'; split; [reflexivity | split; [exact Ha' | exact Hg]]|].
    split; [lia|].
    intros ->. cbn [downloadChunkWithRetry]. rewrite Ha'. cbn [fst snd].
    split; [reflexivity|]. rewrite count_gets_perform, Hg. cbn [is_get]. lia.
  - intros failed last rest msg -> Ha Hf Hlen Hnp He.
    destruct (retry_failed_prefix (seg_index s) (seg_start s) (seg_end s)
                failed 1 (last :: rest) w Ha Hf ltac:(unfold maxRetries; lia))
      as (w' & Heq & Ha' & Hg).
    rewrite Heq, Hlen. cbn [downloadChunkWithRetry]. rewrite Ha'.
    destruct (failed_attempt (seg_index s) (seg_start s) (seg_end s) last w' msg
                Ha' Hnp He) as (w1 & -> & Ha1 & Hc).
    rewrite Ha1. change (1 + Z.of_nat 10 <=? maxRetries) with false.
    cbn [fst snd]. split; [reflexivity|]. lia.
  - intros msg H. rewrite (retry_threw_after_budget _ _ _ _ _ _ msg);
      [reflexivity | unfold maxRetries; lia | exact H].
Qed.

Lemma supervisor_request_bound_witness :
  replicate 11 failing_attempt = replicate 10 failing_attempt ++ [failing_attempt]
  /\ aborted (obj (sample_world 100 1)) = false
  /\ Forall fails_unpaused (replicate 10 failing_attempt)
  /\ length (replicate 10 failing_attempt) = 10%nat
  /\ never_paused (items failing_attempt)
  /\ snd (supervise whole_file_segment (replicate 11 failing_attempt)
            (sample_world 100 1))
     = Threw (lit "Request failed with status code 416")
  /\ count_gets (effects (fst (supervise whole_file_segment
                                 (replicate 11 failing_attempt)
                                 (sample_world 100 1))))
     = (count_gets (effects (sample_world 100 1)) + 11)%nat.
Proof.
  assert (H1 : replicate 11 failing_attempt
               = replicate 10 failing_attempt ++ [failing_attempt]) by reflexivity.
  assert (H2 : aborted (obj (sample_world 100 1)) = false) by reflexivity.
  assert (H3 : Forall fails_unpaused (replicate 10 failing_attempt)).
  { apply Forall_replicate. split; [constructor|]. split; [|reflexivity].
    eexists. reflexivity. }
  assert (H4 : length (replicate 10 failing_attempt) = 10%nat) by reflexivity.
  assert (H5 : never_paused (items failing_attempt)) by constructor.
  split; [exact H1|]. split; [exact H2|]. split; [exact H3|]. split; [exact H4|].
  split; [exact H5|].
  exact (proj1 (proj2 (proj2 (proj2 (supervisor_request_bound whole_file_segment
                  (replicate 11 failing_attempt) (sample_world 100 1)))))
           _ _ _ _ H1 H2 H3 H4 H5 eq_refl).
Defined.

(** C2 as stated fails: when every attempt fails, the supervisor issues 11
    requests before the error propagates. *)
Lemma supervisor_issues_11_requests :
  let r := supervise whole_file_segment (replicate 11 failing_attempt)
                     (sample_world 100 1) in
  count_gets (effects (fst r)) = 11%nat
  /\ snd r = Threw (lit "Request failed with status code 416")
  /\ ~ (count_gets (effects (fst r)) <= 10)%nat.
Proof.
  cbn zeta. split; [vm_compute; reflexivity|]. split; [vm_compute; reflexivity|].
  intros H. vm_compute in H. lia.
Qed.

(** C1. Evaluation at the failing input: one segment [[0, 99]]; the first
    attempt writes 50 bytes and fails, the retry asks for [bytes=0-99]
    again (not for [bytes=50-99]) and its 100 bytes are counted on top of
    the 50: the counter ends at 150 for a segment of 100 bytes. *)
Theorem retry_requests_same_range_again :
  let r := supervise whole_file_segment
                     [attempt_50_then_reset; attempt_100_then_end]
                     (sample_world 100 1) in
  downloadParallel_plan (obj (sample_world 100 1)) = [whole_file_segment]
  /\ gets (effects (fst r)) = [FxGet 0 0 99; FxGet 0 0 99]
  /\ downloadedBytesPerChunk (obj (fst r)) = [Num 150]
  /\ snd r = Returned
  /\ segment_size 100 1 0 = 100.
Proof.
  cbn zeta. repeat split; vm_compute; reflexivity.
Qed.

(** ** The file name *)

Lemma match_filename_truthy (h : jsstring) (g : jsstring) :
  match_filename h = Some g -> truthy_str h = true.
Proof. destruct h; [discriminate | reflexivity]. Qed.

Lemma refine_fileName_served (env : Env) (h g : jsstring) (d : Downloader) :
  match_filename h = Some g ->
  refine_fileName env (Some h) d = updatePaths env (set_fileName (sanitizeFileName g) d).
Proof.
  intros H. unfold refine_fileName.
  rewrite (match_filename_truthy h g H), H. reflexivity.
Qed.

Lemma refine_fileName_kept (env : Env) (cd : option jsstring) (d : Downloader) :
  match cd with Some h => match_filename h = None | None => True end ->
  refine_fileName env cd d = d.
Proof.
  intros H. unfold refine_fileName. destruct cd as [h|]; [|reflexivity].
  rewrite H. destruct (truthy_str h); reflexivity.
Qed.

(** What the probe's answer leaves in the object, when a size is declared. *)
Lemma after_head_obj (env : Env) (cd : option jsstring) (s : jsstring) (w : world) :
  truthy_str s = true ->
  obj (ctl_world (after_head env (HeadOk cd (Some s)) w))
  = set_totalBytes (parseInt10 env s) (refine_fileName env cd (obj w)).
Proof. intros H. unfold after_head. rewrite H. reflexivity. Qed.

Lemma constructor_fields (env : Env) (u dir : jsstring)
    (options : DownloaderOptions) (nowStr : jsstring) (d : Downloader) :
  constructor env u dir options nowStr = Ret d ->
  exists name vec,
    (match opt_fileName options with
     | Some f => if truthy_str f then Ret f else getFileNameFromUrl env u
     | None => getFileNameFromUrl env u
     end) = Ret name
    /\ (match opt_downloadedBytesPerChunk options with
        | Some v => Ret v
        | None => new_Array_fill0 (num_or (opt_numConnections options) 8)
        end) = Ret vec
    /\ fileName d = name
    /\ downloadedBytesPerChunk d = vec
    /\ numConnections d = num_or (opt_numConnections options) 8
    /\ totalBytes d = num_or (opt_totalBytes options) 0
    /\ outputDir d = dir
    /\ finalFilePath d = path_join env dir name
    /\ tempFilePath d = path_join env dir name ++ PART_SUFFIX
    /\ aborted d = false.
Proof.
  unfold constructor. intros H.
  destruct (match opt_fileName options with Some _ => _ | None => _ end)
    as [name|] eqn:En; [|discriminate H].
  destruct (match opt_downloadedBytesPerChunk options with Some _ => _ | None => _ end)
    as [vec|] eqn:Ev; [|discriminate H].
  cbn [bind] in H. injection H as <-. exists name, vec.
  repeat split; reflexivity.
Qed.

(** C5, amended. The constructor takes the caller's [fileName] when it is
    non-empty and the name derived from the URL otherwise. When the probe
    runs and its [Content-Disposition] carries a file name, the sanitised
    server name replaces whatever the constructor chose, the caller's name
    included, and the final and temp paths follow it; without such a header
    the constructor's choice stays. *)
Theorem file_name_after_probe (env : Env) (u dir : jsstring)
    (options : DownloaderOptions) (nowStr : jsstring) (d : Downloader)
    (now : Z) (cd : option jsstring) (size : jsstring) :
  constructor env u dir options nowStr = Ret d ->
  totalBytes d = 0 ->
  truthy_str size = true ->
  let served :=
    match cd with Some h => match_filename h | None => None end in
  exists c,
    run env (start now (world_of d)) [LHead (HeadOk cd (Some size))] = Some c
    /\ Ret (fileName d)
       = match opt_fileName options with
         | Some f => if truthy_str f then Ret f else getFileNameFromUrl env u
         | None => getFileNameFromUrl env u
         end
    /\ fileName (obj (ctl_world c))
       = match served with
         | Some g => sanitizeFileName g
         | None => fileName d
         end
    /\ finalFilePath (obj (ctl_world c))
       = path_join env dir (fileName (obj (ctl_world c)))
    /\ tempFilePath (obj (ctl_world c))
       = path_join env dir (fileName (obj (ctl_world c))) ++ PART_SUFFIX.
Proof.
  intros Hc HT Hs. cbn zeta.
  destruct (constructor_fields _ _ _ _ _ _ Hc)
    as (name & vec & Hn & _ & Hname & _ & _ & _ & Hdir & Hfin & Htmp & _).
  unfold start. cbn [world_of obj with_obj].
  replace (totalBytes (set_clock now now _ (set_flags false false d)))
    with (totalBytes d) by reflexivity.
  rewrite HT. cbn [Z.eqb run step ctl_pc ctl_world].
  eexists. split; [reflexivity|].
  split; [rewrite Hname; symmetry; exact Hn|].
  rewrite after_head_obj by exact Hs. cbn [perform obj with_obj].
  destruct cd as [h|]; [destruct (match_filename h) as [g|] eqn:Em|].
  - rewrite (refine_fileName_served env h g _ Em).
    cbn. rewrite Hdir. repeat split; reflexivity.
  - rewrite refine_fileName_kept by exact Em.
    cbn. rewrite Hfin, Htmp, Hname. repeat split; reflexivity.
  - rewrite refine_fileName_kept by exact I.
    cbn. rewrite Hfin, Htmp, Hname. repeat split; reflexivity.
Qed.

Lemma file_name_after_probe_witness :
  constructor sample_env (lit "http://host/d?id=42") (lit "/out") named_options
    (lit "1700000000000") = Ret named_job
  /\ totalBytes named_job = 0
  /\ truthy_str (lit "1000") = true
  /\ exists c,
       run sample_env (start 0 (world_of named_job)) [LHead probe_with_name] = Some c
       /\ fileName (obj (ctl_world c)) = lit "server_name.bin".
Proof.
  assert (H1 : constructor sample_env (lit "http://host/d?id=42") (lit "/out")
                 named_options (lit "1700000000000") = Ret named_job)
    by reflexivity.
  assert (H2 : totalBytes named_job = 0) by reflexivity.
  assert (H3 : truthy_str (lit "1000") = true) by reflexivity.
  split; [exact H1|]. split; [exact H2|]. split; [exact H3|].
  destruct (file_name_after_probe sample_env _ _ _ _ _ 0
              (Some QUOTED_SERVER_NAME) _ H1 H2 H3) as (c & Hrun & _ & Hname & _).
  exists c. split; [exact Hrun|]. rewrite Hname. reflexivity.
Defined.

(** C5 as stated fails: the caller asked for [mine.txt], the probe ran and
    the server suggested another name; the engine uses the server's. *)
Lemma server_name_replaces_caller_name :
  exists c,
    run sample_env (start 0 (world_of named_job)) [LHead probe_with_name] = Some c
    /\ opt_fileName named_options = Some (lit "mine.txt")
    /\ fileName named_job = lit "mine.txt"
    /\ fileName (obj (ctl_world c)) = lit "server_name.bin"
    /\ finalFilePath (obj (ctl_world c)) = lit "/out/server_name.bin"
    /\ tempFilePath (obj (ctl_world c)) = lit "/out/server_name.bin.part"
    /\ fileName (obj (ctl_world c)) <> lit "mine.txt".
Proof.
  eexists. split; [vm_compute; reflexivity|].
  repeat split; try (vm_compute; reflexivity).
  vm_compute. discriminate.
Qed.

(** ** The resume record *)




(** ** The controller *)

Lemma events_pause (w : world) : events (pause w) = events w ++ [EvPaused].
Proof. reflexivity. Qed.

Lemma flags_pause (w : world) :
  aborted (obj (pause w)) = true /\ isPaused (obj (pause w)) = true.
Proof. split; reflexivity. Qed.





Lemma start_probes (now : Z) (w : world) :
  totalBytes (obj w) = 0 ->
  ctl_pc (start now w) = AwaitHead
  /\ events (ctl_world (start now w)) = events w
  /\ effects (ctl_world (start now w)) = effects w ++ [FxHead (url (obj w))]
  /\ aborted (obj (ctl_world (start now w))) = false.
Proof.
  intros HT. unfold start. cbn [obj with_obj].
  replace (totalBytes (set_clock now now _ (set_flags false false (obj w))))
    with (totalBytes (obj w)) by reflexivity.
  rewrite HT. cbn. repeat split; reflexivity.
Qed.

Lemma refine_fileName_flags (env : Env) (cd : option jsstring) (d : Downloader) :
  aborted (refine_fileName env cd d) = aborted d.
Proof.
  unfold refine_fileName. destruct cd as [h|]; [|reflexivity].
  destruct (truthy_str h); [|reflexivity].
  destruct (match_filename h); reflexivity.
Qed.

Lemma after_head_no_size (env : Env) (cd cl : option jsstring) (w : world) :
  no_size cl ->
  after_head env (HeadOk cd cl) w
  = outer_catch NO_SIZE_MESSAGE (with_obj (refine_fileName env cd (obj w)) w).
Proof.
  intros H. unfold after_head. destruct cl as [s|]; [|reflexivity].
  cbn in H. rewrite H. reflexivity.
Qed.

(** C8. When [start()] runs with [totalBytes = 0] and the probe's response
    declares no size, the job ends there: the only request made is the
    probe, there is no retry, no state is saved, no file is opened, no
    range is requested, and one [error] event is emitted, carrying the
    message of line 137 that the file size cannot be determined
    ([NO_SIZE_MESSAGE]); if the caller paused the job during the probe, no
    [error] event is emitted. *)
Theorem missing_size_is_fatal (env : Env) (now : Z) (w : world)
    (cd cl : option jsstring) :
  totalBytes (obj w) = 0 ->
  no_size cl ->
  (exists c,
     run env (start now w) [LHead (HeadOk cd cl)] = Some c
     /\ ctl_pc c = Finished
     /\ events (ctl_world c) = events w ++ [EvError NO_SIZE_MESSAGE]
     /\ effects (ctl_world c) = effects w ++ [FxHead (url (obj w))])
  /\ (exists c,
        run env (start now w) [LPause; LHead (HeadOk cd cl)] = Some c
        /\ ctl_pc c = Finished
        /\ events (ctl_world c) = events w ++ [EvPaused]
        /\ count_gets (effects (ctl_world c)) = count_gets (effects w)).
Proof.
  intros HT Hcl. destruct (start_probes now w HT) as (Hpc & Hev & Hfx & Hab).
  split.
  - eexists. cbn [run step]. rewrite Hpc. split; [reflexivity|].
    rewrite after_head_no_size by exact Hcl. unfold outer_catch.
    cbn [with_obj obj]. rewrite refine_fileName_flags, Hab.
    cbn [negb ctl_pc ctl_world emit events effects with_obj].
    rewrite Hev, Hfx. repeat split; reflexivity.
  - eexists. cbn [run step ctl_pc ctl_world]. rewrite Hpc.
    split; [reflexivity|].
    rewrite after_head_no_size by exact Hcl. unfold outer_catch.
    cbn [with_obj obj]. rewrite refine_fileName_flags.
    rewrite (proj1 (flags_pause _)).
    cbn [negb ctl_pc ctl_world]. split; [reflexivity|].
    split.
    + cbn [with_obj events]. rewrite events_pause, Hev. reflexivity.
    + cbn [with_obj effects]. rewrite count_gets_pause, Hfx, count_gets_snoc.
      cbn [is_get]. lia.
Qed.

Lemma missing_size_is_fatal_witness :
  totalBytes (obj (sample_world 0 4)) = 0
  /\ no_size None
  /\ exists c,
       run sample_env (start 7 (sample_world 0 4)) [LHead (HeadOk None None)] = Some c
       /\ events (ctl_world c) = [EvError (lit "Cannot determine file size.")]
       /\ effects (ctl_world c) = [FxHead (lit "http://host/files/data.bin")].
Proof.
  assert (H1 : totalBytes (obj (sample_world 0 4)) = 0) by reflexivity.
  assert (H2 : no_size None) by exact I.
  split; [exact H1|]. split; [exact H2|].
  destruct (proj1 (missing_size_is_fatal sample_env 7 (sample_world 0 4)
                     None None H1 H2)) as (c & Hrun & _ & Hev & Hfx).
  exists c. split; [exact Hrun|]. rewrite Hev, Hfx. split; reflexivity.
Defined.

(** Every request of a supervisor carries the range it was called with,
    whatever the attempts before it have written. *)
Lemma gets_snoc (fx : list effect) (f : effect) :
  gets (fx ++ [f]) = gets fx ++ (if is_get f then [f] else []).
Proof.
  unfold gets. rewrite List.filter_app. cbn. destruct (is_get f); reflexivity.
Qed.

Lemma gets_pause (w : world) : gets (effects (pause w)) = gets (effects w).
Proof.
  change (effects (pause w)) with
    (effects w ++ [FxWriteState (stateFilePath (obj w))
                     (state_record (set_flags true true (obj w)))]).
  rewrite gets_snoc. cbn [is_get]. apply app_nil_r.
Qed.

Lemma gets_checkAndEmitProgress (now : Z) (w : world) :
  gets (effects (checkAndEmitProgress now w)) = gets (effects w).
Proof.
  unfold checkAndEmitProgress. destruct (1000 <? _); [|reflexivity].
  cbn zeta. destruct (5000 <? _); [|reflexivity].
  match goal with
  | |- gets (effects ?x) = _ =>
    change (effects x) with
      (effects w ++ [FxWriteState (stateFilePath (obj w))
                       (state_record (set_clock (startTime (obj w)) now
                                        (lastSaveTime (obj w)) (obj w)))])
  end.
  rewrite gets_snoc. cbn [is_get]. apply app_nil_r.
Qed.

Lemma gets_downloadChunk_loop (index : Z) (its : list stream_item)
    (e : stream_end) (pos : Z) (w : world) :
  gets (effects (fst (downloadChunk_loop index its e pos w))) = gets (effects w).
Proof.
  revert pos w. induction its as [|it its IH]; intros pos w.
  - destruct e; reflexivity.
  - destruct it as [n now piw|]; cbn [downloadChunk_loop].
    + destruct (aborted (obj w)); [reflexivity|].
      rewrite IH, gets_checkAndEmitProgress. unfold with_obj. cbn [effects].
      destruct piw; [rewrite gets_pause|];
        (change (effects (perform (FxWrite pos n) w))
           with (effects w ++ [FxWrite pos n]);
         rewrite gets_snoc; cbn [is_get]; apply app_nil_r).
    + rewrite IH. apply gets_pause.
Qed.

Lemma retry_requests_fixed_range (index start end_ : Z)
    (scripts : list attempt_script) :
  forall (a : Z) (w : world),
  exists k : nat,
    gets (effects (fst (downloadChunkWithRetry index start end_ a scripts w)))
    = gets (effects w) ++ replicate k (FxGet index start end_).
Proof.
  induction scripts as [|s rest IH]; intros a w; cbn [downloadChunkWithRetry].
  - destruct (aborted (obj w)); cbn [fst].
    + exists 0%nat. symmetry. apply app_nil_r.
    + exists 1%nat. apply gets_snoc.
  - destruct (aborted (obj w)); cbn [fst].
    { exists 0%nat. symmetry. apply app_nil_r. }
    assert (Hc : gets (effects (fst (downloadChunk index start end_ s w)))
                 = gets (effects w) ++ [FxGet index start end_]).
    { unfold downloadChunk. rewrite gets_downloadChunk_loop. apply gets_snoc. }
    destruct (downloadChunk index start end_ s w) as [w1 [msg|]]; cbn [fst] in *;
      [| exists 1%nat; exact Hc].
    destruct (aborted (obj w1)); cbn [fst]; [exists 1%nat; exact Hc|].
    destruct (a <=? maxRetries); cbn [fst]; [| exists 1%nat; exact Hc].
    destruct (IH (a + 1)
                 (if paused_in_backoff s then pause (perform (FxBackoff a) w1)
                  else perform (FxBackoff a) w1)) as [k Hk].
    exists (S k). rewrite Hk.
    assert (Hg : gets (effects (if paused_in_backoff s
                                then pause (perform (FxBackoff a) w1)
                                else perform (FxBackoff a) w1))
                 = gets (effects w1)).
    { destruct (paused_in_backoff s); [rewrite gets_pause|];
        (change (effects (perform (FxBackoff a) w1))
           with (effects w1 ++ [FxBackoff a]);
         rewrite gets_snoc; cbn [is_get]; apply app_nil_r). }
    rewrite Hg, Hc, <- app_assoc. reflexivity.
Qed.

(** * Worked examples *)

(** The scenarios of the planner: 1000 and 1001 bytes over 4 connections,
    and a resumed job whose first segment is complete. *)
Example plan_1000_over_4 :
  plan 1000 4 (replicate 4 (Num 0)) =
  [ {| seg_index := 0; seg_start := 0; seg_end := 249 |};
    {| seg_index := 1; seg_start := 250; seg_end := 499 |};
    {| seg_index := 2; seg_start := 500; seg_end := 749 |};
    {| seg_index := 3; seg_start := 750; seg_end := 999 |} ].
Proof. reflexivity. Qed.

Example plan_resumed :
  plan 1000 4 [Num 250; Num 100; Num 0; Num 249] =
  [ {| seg_index := 1; seg_start := 350; seg_end := 499 |};
    {| seg_index := 2; seg_start := 500; seg_end := 749 |};
    {| seg_index := 3; seg_start := 999; seg_end := 999 |} ].
Proof. reflexivity. Qed.

Example plan_empty_file : plan 0 8 (replicate 8 (Num 0)) = [].
Proof. reflexivity. Qed.

(** The rounding defined here and the reference semantics of binary64
    agree on these integers and on these quotients of doubles; beyond
    [2^53] the quotient of the doubles is not always the exact one. *)
Example round64_agrees_with_reference :
  let sample :=
    [ 0;
      1;
      -1;
      2 ^ 53;
      2 ^ 53 + 1;
      2 ^ 53 + 2;
      2 ^ 53 + 3;
      - (2 ^ 53 + 1);
      - (2 ^ 53 + 3);
      2 ^ 54 + 2;
      2 ^ 54 + 6;
      2 ^ 54 + 5;
      2 ^ 60 + 129;
      2 ^ 63 - 1;
      12345678901234567891;
      2 ^ 100 + 2 ^ 47;
      2 ^ 100 + 2 ^ 47 + 1;
      2 ^ 100 + 3 * 2 ^ 47;
      2 ^ 200 - 1 ] in
  map reference_round sample = map (fun z => Some (round64 z)) sample.
Proof. vm_compute. reflexivity. Qed.

Example floor_div64_agrees_with_reference :
  let sample :=
    [ (1000, 3);
      (1001, 4);
      (0, 7);
      (7, 7);
      (-7, 2);
      (1, 3);
      (2 ^ 53 + 2, 1);
      (2 ^ 53, 1);
      (2 ^ 53, 2);
      (2 ^ 53 - 1, 2);
      (2 ^ 53 - 1, 2 ^ 53);
      (2 ^ 53 - 1, 3);
      (2 ^ 53, 2 ^ 53 + 2);
      (2 ^ 54 - 2, 2 ^ 54);
      (2 ^ 60, 2 ^ 60 + 4096);
      (2 ^ 70 + 2 ^ 18, 3);
      (- (2 ^ 70 + 2 ^ 18), 3);
      (2 ^ 80, 2 ^ 80 + 2 ^ 40);
      (2 ^ 64 - 2 ^ 11, 10);
      (9007199254740992, 4294967295);
      (4503599627370497, 4503599627370496);
      (3 * 2 ^ 52 + 2, 3) ] in
  map (fun ab => reference_floor_div (fst ab) (snd ab)) sample
  = map (fun ab => Some (floor_div64 (fst ab) (snd ab))) sample.
Proof. vm_compute. reflexivity. Qed.

Example floor_div64_beyond_exact_integers :
  floor_div64 (2 ^ 70 + 2 ^ 18) 3 = 393530540239137210368
  /\ (2 ^ 70 + 2 ^ 18) / 3 = 393530540239137188522.
Proof. split; vm_compute; reflexivity. Qed.

Example plan64_1001_over_4 :
  plan64 1001 4 (replicate 4 (Num 0)) = plan 1001 4 (replicate 4 (Num 0)).
Proof. vm_compute. reflexivity. Qed.

(** The pattern of the probe. *)
Example match_quoted :
  match_filename QUOTED_SERVER_NAME = Some (lit "server name.bin").
Proof. vm_compute. reflexivity. Qed.

Example match_unquoted :
  match_filename (lit "attachment; filename=plain.txt") = Some (lit "plain.txt").
Proof. vm_compute. reflexivity. Qed.

Example match_nothing : match_filename (lit "inline") = None.
Proof. vm_compute. reflexivity. Qed.

(** A URL whose path ends in [d], and one that does not parse. *)
Example name_from_url :
  getFileNameFromUrl sample_env (lit "http://host/d?id=42") = Ret (lit "d").
Proof. vm_compute. reflexivity. Qed.

Example name_from_bad_url :
  getFileNameFromUrl sample_env (lit "not a url") = Ret DEFAULT_NAME.
Proof. vm_compute. reflexivity. Qed.

Example name_from_root_url :
  getFileNameFromUrl sample_env (lit "https://host/") = Ret DEFAULT_NAME.
Proof. vm_compute. reflexivity. Qed.

(** Writing past the end of the progress vector. *)
Example add_past_the_end :
  array_set [Num 1] 3 (cell_add ([Num 1] !! 3%nat) 10) = [Num 1; Hole; Hole; NaN].
Proof. reflexivity. Qed.

(** Node's [path] functions on a few paths. *)
Example extname_last_dot : NodePath.extname (lit "a/b/report.final.pdf") = lit ".pdf".
Proof. vm_compute. reflexivity. Qed.
Example extname_hidden_file : NodePath.extname (lit ".bashrc") = lit "".
Proof. vm_compute. reflexivity. Qed.
Example extname_dot_dot : NodePath.extname (lit "..") = lit "".
Proof. vm_compute. reflexivity. Qed.
Example extname_trailing_dot : NodePath.extname (lit "a.") = lit ".".
Proof. vm_compute. reflexivity. Qed.
Example basename_trailing_slash : NodePath.basename (lit "/a/b/c.txt/") None = lit "c.txt".
Proof. vm_compute. reflexivity. Qed.
Example basename_root : NodePath.basename (lit "/") None = lit "".
Proof. vm_compute. reflexivity. Qed.
Example basename_with_suffix : NodePath.basename (lit "/a/b/c.txt") (Some (lit ".txt")) = lit "c".
Proof. vm_compute. reflexivity. Qed.
Example basename_suffix_overlap : NodePath.basename (lit "aaa.txt") (Some (lit "a.txt")) = lit "aa".
Proof. vm_compute. reflexivity. Qed.
Example sanitize_spaces : sanitizeFileName (lit "report final.pdf") = lit "report_final.pdf".
Proof. vm_compute. reflexivity. Qed.
Example extname_three_dots : NodePath.extname (lit "...") = lit ".".
Proof. vm_compute. reflexivity. Qed.

(** * Further properties of the engine *)

(** ** Planning a resumed job *)

Lemma plan_elem (T N : Z) (vec : list cell) (s : dispatch) :
  s ∈ plan T N vec <->
  0 <= seg_index s < N
  /\ seg_start s = segment_start T N (seg_index s) + progress_of vec (seg_index s)
  /\ seg_end s = segment_end T N (seg_index s)
  /\ seg_start s <= seg_end s.
Proof.
  unfold plan, progress_of. rewrite list_elem_of_omap. split.
  - intros [i [Hi Hs]]. apply elem_of_seqZ in Hi.
    unfold plan_segment in Hs.
    destruct (_ <=? _) eqn:E; [|discriminate]. apply Z.leb_le in E.
    injection Hs as <-. cbn. unfold segment_end, segment_start.
    repeat split; try lia; try reflexivity.
  - intros (Hi & Hst & Hen & Hle). exists (seg_index s). split.
    + apply elem_of_seqZ. lia.
    + unfold plan_segment.
      destruct s as [i a e]. cbn in *. subst a e.
      unfold segment_end, segment_start in *.
      rewrite (proj2 (Z.leb_le _ _) Hle). reflexivity.
Qed.

Lemma progress_of_nonneg (vec : list cell) (i : Z) :
  Forall (fun c => 0 <= cell_or_zero (Some c)) vec -> 0 <= progress_of vec i.
Proof.
  intros H. unfold progress_of.
  destruct (vec !! Z.to_nat i) as [c|] eqn:E; [|cbn; lia].
  exact (proj1 (Forall_lookup _ vec) H _ _ E).
Qed.

(** Planning with progress. For [0 <= T <= 2^53], [1 <= N <= 2^53] and
    counters that are not negative, the doubles of the loop give the exact
    plan: segment [i] is dispatched with the range from
    [start_i + downloaded_i] to [end_i] exactly when that range is not
    empty; no byte lies in two dispatched ranges, every dispatched byte is
    a byte of the file, and a segment whose counter has reached its size is
    not dispatched. *)
Theorem plan_with_progress (T N : Z) (vec : list cell) :
  0 <= T <= MAX_EXACT_INTEGER -> 1 <= N <= MAX_EXACT_INTEGER ->
  Forall (fun c => 0 <= cell_or_zero (Some c)) vec ->
  let segs := plan64 T N vec in
  segs = plan T N vec
  /\ (forall s, s ∈ segs <->
        0 <= seg_index s < N
        /\ seg_start s = segment_start T N (seg_index s) + progress_of vec (seg_index s)
        /\ seg_end s = segment_end T N (seg_index s)
        /\ seg_start s <= seg_end s)
  /\ (forall s1 s2 b, s1 ∈ segs -> s2 ∈ segs ->
        covers s1 b -> covers s2 b -> s1 = s2)
  /\ (forall s b, s ∈ segs -> covers s b ->
        0 <= b < T
        /\ segment_start T N (seg_index s) + progress_of vec (seg_index s) <= b)
  /\ (forall s, s ∈ segs ->
        progress_of vec (seg_index s) < segment_size T N (seg_index s)).
Proof.
  intros HT HN Hvec. cbn zeta. rewrite (plan64_exact T N vec HT HN Hvec).
  pose proof (chunk_bounds T N ltac:(lia) ltac:(lia)) as [Hc Hcn].
  split; [reflexivity|].
  split; [intros s; apply plan_elem|]. split; [|split].
  - intros s1 s2 b H1 H2 B1 B2.
    apply plan_elem in H1 as (Hi1 & Hst1 & Hen1 & Hle1).
    apply plan_elem in H2 as (Hi2 & Hst2 & Hen2 & Hle2).
    pose proof (progress_of_nonneg vec (seg_index s1) Hvec) as Hp1.
    pose proof (progress_of_nonneg vec (seg_index s2) Hvec) as Hp2.
    unfold covers in B1, B2. unfold segment_start in Hst1, Hst2.
    assert (Hidx : seg_index s1 = seg_index s2).
    { destruct (segment_end_cases T N (seg_index s1)) as [[E1 E1'] | [E1 E1']];
      destruct (segment_end_cases T N (seg_index s2)) as [[E2 E2'] | [E2 E2']];
      rewrite E1' in Hen1; rewrite E2' in Hen2; nia. }
    destruct s1 as [i1 a1 e1], s2 as [i2 a2 e2]. cbn in *. subst i2.
    congruence.
  - intros s b Hs Hb. apply plan_elem in Hs as (Hi & Hst & Hen & Hle).
    pose proof (progress_of_nonneg vec (seg_index s) Hvec) as Hp.
    unfold covers in Hb. unfold segment_start in *.
    destruct (segment_end_cases T N (seg_index s)) as [[E1 E2] | [E1 E2]];
      rewrite E2 in Hen; split; nia.
  - intros s Hs. apply plan_elem in Hs as (Hi & Hst & Hen & Hle).
    unfold segment_size. lia.
Qed.

Lemma plan_with_progress_witness :
  0 <= 1000 <= MAX_EXACT_INTEGER /\ 1 <= 4 <= MAX_EXACT_INTEGER
  /\ Forall (fun c => 0 <= cell_or_zero (Some c)) resumed_vector
  /\ plan64 1000 4 resumed_vector = plan 1000 4 resumed_vector
  /\ forall s, s ∈ plan64 1000 4 resumed_vector ->
       progress_of resumed_vector (seg_index s) < segment_size 1000 4 (seg_index s).
Proof.
  assert (H1 : 0 <= 1000 <= MAX_EXACT_INTEGER) by (unfold MAX_EXACT_INTEGER; lia).
  assert (H2 : 1 <= 4 <= MAX_EXACT_INTEGER) by (unfold MAX_EXACT_INTEGER; lia).
  assert (H3 : Forall (fun c => 0 <= cell_or_zero (Some c)) resumed_vector)
    by (repeat constructor; cbn; lia).
  split; [exact H1|]. split; [exact H2|]. split; [exact H3|].
  pose proof (plan_with_progress 1000 4 resumed_vector H1 H2 H3) as H.
  cbn zeta in H. split; [exact (proj1 H)|].
  exact (proj2 (proj2 (proj2 (proj2 H)))).
Defined.

(** ** The worker's accounting *)

(** What one run of the progress probe changes. *)
Lemma checkAndEmitProgress_spec (now : Z) (w : world) :
  let tick := 1000 <? now - lastTickTime (obj w) in
  let save := tick && (5000 <? now - lastSaveTime (obj w)) in
  let w' := checkAndEmitProgress now w in
  events w' = events w ++
    (if tick then [EvProgress (sum_cells (downloadedBytesPerChunk (obj w)))
                     (totalBytes (obj w)) (uuid (obj w))] else [])
  /\ effects w' = effects w ++
       (if save then [FxWriteState (stateFilePath (obj w)) (state_record (obj w))]
        else [])
  /\ downloadedBytesPerChunk (obj w') = downloadedBytesPerChunk (obj w)
  /\ aborted (obj w') = aborted (obj w)
  /\ lastTickTime (obj w') = (if tick then now else lastTickTime (obj w))
  /\ lastSaveTime (obj w') = (if save then now else lastSaveTime (obj w)).
Proof.
  cbn zeta. unfold checkAndEmitProgress.
  destruct (1000 <? now - lastTickTime (obj w)); cbn [andb].
  - cbn zeta. cbn [with_obj obj set_clock lastSaveTime emitProgress emit].
    destruct (5000 <? now - lastSaveTime (obj w)); cbn; repeat split;
      try reflexivity; symmetry; apply app_nil_r.
  - repeat split; try reflexivity; symmetry; apply app_nil_r.
Qed.

Lemma writes_app (fx gx : list effect) : writes (fx ++ gx) = writes fx ++ writes gx.
Proof. unfold writes. apply flat_map_app. Qed.


Lemma writes_pause (w : world) : writes (effects (pause w)) = writes (effects w).
Proof.
  change (effects (pause w)) with
    (effects w ++ [FxWriteState (stateFilePath (obj w))
                     (state_record (set_flags true true (obj w)))]).
  rewrite writes_app. cbn. apply app_nil_r.
Qed.







(** ** After a pause *)

Lemma aborted_loop_writes_nothing (index : Z) (its : list stream_item)
    (e : stream_end) :
  forall (pos : Z) (w : world),
    aborted (obj w) = true ->
    let w' := fst (downloadChunk_loop index its e pos w) in
    writes (effects w') = writes (effects w)
    /\ downloadedBytesPerChunk (obj w') = downloadedBytesPerChunk (obj w)
    /\ aborted (obj w') = true.
Proof.
  induction its as [|it its IH]; intros pos w Ha; cbn zeta.
  - cbn [downloadChunk_loop]. destruct e; cbn [fst]; repeat split; exact Ha.
  - destruct it as [n now piw|]; cbn [downloadChunk_loop].
    + rewrite Ha. cbn [fst]. repeat split; exact Ha.
    + destruct (IH pos (pause w) eq_refl) as (Hw & Hv & Hab).
      cbn zeta in Hw, Hv, Hab. rewrite Hw, Hv, Hab, writes_pause.
      repeat split; reflexivity.
Qed.

(** Buffers that arrive after [pause()] are neither written nor counted:
    a stream in which the caller pauses leaves the file and the counters
    as the part of the stream before the pause leaves them. *)
Theorem buffers_after_pause_are_dropped (index : Z) (pre post : list stream_item)
    (e : stream_end) :
  forall (pos : Z) (w : world),
    let paused := fst (downloadChunk_loop index (pre ++ PauseCall :: post) e pos w) in
    let before := fst (downloadChunk_loop index pre EndOfStream pos w) in
    writes (effects paused) = writes (effects before)
    /\ downloadedBytesPerChunk (obj paused) = downloadedBytesPerChunk (obj before)
    /\ aborted (obj paused) = true.
Proof.
  induction pre as [|it pre IH]; intros pos w; cbn zeta.
  - cbn [app downloadChunk_loop fst].
    destruct (aborted_loop_writes_nothing index post e pos (pause w) eq_refl)
      as (Hw & Hv & Ha). cbn zeta in Hw, Hv, Ha.
    rewrite Hw, Hv, Ha, writes_pause. repeat split; reflexivity.
  - destruct it as [n now piw|]; cbn [app downloadChunk_loop].
    + destruct (aborted (obj w)) eqn:Ha; [cbn [fst]; repeat split; exact Ha|].
      apply IH.
    + apply IH.
Qed.

(** ** A progress vector shorter than the number of connections *)

Lemma sum_cells_from_NaN (vec : list cell) :
  fold_left (fun acc c => match c with Hole => acc | _ => cell_plus acc c end)
            vec NaN = NaN.
Proof.
  induction vec as [|c vec IH]; [reflexivity|].
  cbn [fold_left]. destruct c; cbn [cell_plus]; exact IH.
Qed.

Lemma sum_cells_NaN (vec : list cell) : NaN ∈ vec -> sum_cells vec = NaN.
Proof.
  unfold sum_cells. generalize (Num 0).
  induction vec as [|c vec IH]; intros acc H.
  - apply elem_of_nil in H. destruct H.
  - apply elem_of_cons in H as [<- | H]; cbn [fold_left].
    + destruct acc; cbn [cell_plus]; apply sum_cells_from_NaN.
    + destruct c; apply IH, H.
Qed.

Lemma add_downloaded_NaN (index n : Z) (d : Downloader) :
  downloadedBytesPerChunk d !! Z.to_nat index = Some NaN ->
  downloadedBytesPerChunk (add_downloaded index n d) = downloadedBytesPerChunk d.
Proof.
  intros H. unfold add_downloaded, array_set. cbn [downloadedBytesPerChunk
    set_downloadedBytesPerChunk]. rewrite H. cbn [cell_add].
  pose proof (lookup_lt_Some _ _ _ H) as Hlt.
  destruct (Nat.ltb_spec (Z.to_nat index) (length (downloadedBytesPerChunk d)));
    [apply list_insert_id, H | lia].
Qed.

Lemma add_downloaded_beyond (index n : Z) (d : Downloader) :
  (length (downloadedBytesPerChunk d) <= Z.to_nat index)%nat ->
  downloadedBytesPerChunk (add_downloaded index n d)
  = downloadedBytesPerChunk d
    ++ repeat Hole (Z.to_nat index - length (downloadedBytesPerChunk d)) ++ [NaN].
Proof.
  intros H. unfold add_downloaded, array_set. cbn [downloadedBytesPerChunk
    set_downloadedBytesPerChunk].
  rewrite (lookup_ge_None_2 _ _ H). cbn [cell_add].
  destruct (Nat.ltb_spec (Z.to_nat index) (length (downloadedBytesPerChunk d)));
    [lia | reflexivity].
Qed.

Lemma NaN_slot_stays (index : Z) (its : list stream_item) (e : stream_end) :
  forall (pos : Z) (w : world),
    downloadedBytesPerChunk (obj w) !! Z.to_nat index = Some NaN ->
    downloadedBytesPerChunk (obj (fst (downloadChunk_loop index its e pos w)))
    = downloadedBytesPerChunk (obj w).
Proof.
  induction its as [|it its IH]; intros pos w H.
  - cbn [downloadChunk_loop]. destruct e; reflexivity.
  - destruct it as [n now piw|]; cbn [downloadChunk_loop].
    + destruct (aborted (obj w)); [reflexivity|].
      set (w2 := if piw then pause (perform (FxWrite pos n) w)
                 else perform (FxWrite pos n) w).
      assert (Hv2 : downloadedBytesPerChunk (obj w2)
                    = downloadedBytesPerChunk (obj w))
        by (subst w2; destruct piw; reflexivity).
      destruct (checkAndEmitProgress_spec now
                  (with_obj (add_downloaded index n (obj w2)) w2))
        as (_ & _ & Hv & _).
      cbn [with_obj obj] in Hv.
      rewrite add_downloaded_NaN in Hv by (rewrite Hv2; exact H).
      rewrite IH; rewrite Hv, Hv2; [reflexivity | exact H].
    + rewrite IH; [reflexivity | exact H].
Qed.

(** A segment beyond the end of the progress vector (a caller-supplied
    vector shorter than [numConnections]). Its first buffer extends the
    vector up to its index with holes and leaves [NaN] in its slot; the
    slot stays [NaN] for the rest of the stream, the total that progress
    events report is [NaN], and the planner reads the slot as 0. *)
Theorem segment_beyond_the_vector (index n now : Z) (rest : list stream_item)
    (e : stream_end) (pos : Z) (w : world) :
  0 <= index ->
  (length (downloadedBytesPerChunk (obj w)) <= Z.to_nat index)%nat ->
  aborted (obj w) = false ->
  let vec := downloadedBytesPerChunk (obj w) in
  let vec' := downloadedBytesPerChunk
                (obj (fst (downloadChunk_loop index (Buffer n now false :: rest)
                             e pos w))) in
  vec' = vec ++ repeat Hole (Z.to_nat index - length vec) ++ [NaN]
  /\ vec' !! Z.to_nat index = Some NaN
  /\ sum_cells vec' = NaN
  /\ progress_of vec' index = 0.
Proof.
  intros Hi Hlen Ha. cbn zeta. cbn [downloadChunk_loop]. rewrite Ha.
  destruct (checkAndEmitProgress_spec now
              (with_obj (add_downloaded index n (obj (perform (FxWrite pos n) w)))
                        (perform (FxWrite pos n) w)))
    as (_ & _ & Hv & _).
  cbn [with_obj obj perform] in Hv.
  rewrite (add_downloaded_beyond index n (obj w) Hlen) in Hv.
  assert (Hslot : (downloadedBytesPerChunk (obj w)
                   ++ repeat Hole (Z.to_nat index
                                   - length (downloadedBytesPerChunk (obj w)))
                   ++ [NaN]) !! Z.to_nat index = Some NaN).
  { rewrite app_assoc. rewrite lookup_app_r;
      rewrite length_app, repeat_length; [|lia].
    replace (Z.to_nat index
             - (length (downloadedBytesPerChunk (obj w))
                + (Z.to_nat index - length (downloadedBytesPerChunk (obj w)))))%nat
      with 0%nat by lia.
    reflexivity. }
  rewrite NaN_slot_stays; cbn [perform obj with_obj] in *; rewrite Hv;
    [|exact Hslot].
  split; [reflexivity|]. split; [exact Hslot|]. split.
  - apply sum_cells_NaN. eapply list_elem_of_lookup_2, Hslot.
  - unfold progress_of. rewrite Hslot. reflexivity.
Qed.

Lemma segment_beyond_the_vector_witness :
  0 <= 3
  /\ (length (downloadedBytesPerChunk
                (obj (world_of (set_downloadedBytesPerChunk [Num 700]
                                  (obj (sample_world 1000 4))))))
      <= Z.to_nat 3)%nat
  /\ aborted (obj (world_of (set_downloadedBytesPerChunk [Num 700]
                               (obj (sample_world 1000 4))))) = false
  /\ downloadedBytesPerChunk
       (obj (fst (downloadChunk_loop 3 [Buffer 10 1 false] EndOfStream 750
                    (world_of (set_downloadedBytesPerChunk [Num 700]
                                 (obj (sample_world 1000 4)))))))
     = [Num 700; Hole; Hole; NaN].
Proof.
  assert (H1 : 0 <= 3) by lia.
  assert (H2 : (length (downloadedBytesPerChunk
                  (obj (world_of (set_downloadedBytesPerChunk [Num 700]
                                    (obj (sample_world 1000 4))))))
                <= Z.to_nat 3)%nat) by (cbn; lia).
  assert (H3 : aborted (obj (world_of (set_downloadedBytesPerChunk [Num 700]
                                         (obj (sample_world 1000 4))))) = false)
    by reflexivity.
  split; [exact H1|]. split; [exact H2|]. split; [exact H3|].
  rewrite (proj1 (segment_beyond_the_vector 3 10 1 [] EndOfStream 750 _ H1 H2 H3)).
  reflexivity.
Defined.

(** ** The resume record at run time *)


























(** ** The throttle of progress events and snapshots *)

Lemma count_progress_app (a b : list event) :
  count_progress (a ++ b) = (count_progress a + count_progress b)%nat.
Proof. unfold count_progress. rewrite List.filter_app. apply length_app. Qed.

Lemma count_paused_app (a b : list event) :
  count_paused (a ++ b) = (count_paused a + count_paused b)%nat.
Proof. unfold count_paused. rewrite List.filter_app. apply length_app. Qed.

Lemma count_state_writes_app (a b : list effect) :
  count_state_writes (a ++ b) = (count_state_writes a + count_state_writes b)%nat.
Proof. unfold count_state_writes. rewrite List.filter_app. apply length_app. Qed.

Lemma throttled_refl (w : world) : throttled w w.
Proof. unfold throttled, new_progress, new_state_writes, new_paused. lia. Qed.

Lemma throttled_trans (w1 w2 w3 : world) :
  throttled w1 w2 -> throttled w2 w3 -> throttled w1 w3.
Proof. unfold throttled, new_progress, new_state_writes, new_paused. lia. Qed.

Lemma throttled_perform (f : effect) (w : world) :
  is_state_write f = false -> throttled w (perform f w).
Proof.
  intros Hf. unfold throttled, new_progress, new_state_writes, new_paused.
  cbn [perform events effects obj]. rewrite count_state_writes_app.
  unfold count_state_writes at 2. cbn [List.filter]. rewrite Hf. cbn. lia.
Qed.

Lemma throttled_pause (w : world) : throttled w (pause w).
Proof.
  unfold throttled, new_progress, new_state_writes, new_paused.
  change (events (pause w)) with (events w ++ [EvPaused]).
  change (effects (pause w)) with
    (effects w ++ [FxWriteState (stateFilePath (obj w))
                     (state_record (set_flags true true (obj w)))]).
  change (lastTickTime (obj (pause w))) with (lastTickTime (obj w)).
  change (lastSaveTime (obj (pause w))) with (lastSaveTime (obj w)).
  rewrite count_progress_app, count_paused_app, count_state_writes_app.
  cbn. lia.
Qed.

Lemma throttled_probe (now : Z) (w : world) :
  throttled w (checkAndEmitProgress now w).
Proof.
  destruct (checkAndEmitProgress_spec now w) as (Hev & Hfx & _ & _ & Ht & Hs).
  cbn zeta in *. unfold throttled, new_progress, new_state_writes, new_paused.
  rewrite Hev, Hfx, Ht, Hs.
  rewrite count_progress_app, count_paused_app, count_state_writes_app.
  destruct (1000 <? now - lastTickTime (obj w)) eqn:E1; cbn [andb].
  - apply Z.ltb_lt in E1.
    destruct (5000 <? now - lastSaveTime (obj w)) eqn:E2.
    + apply Z.ltb_lt in E2. cbn. lia.
    + cbn. lia.
  - cbn. lia.
Qed.

Lemma throttled_counted (index n : Z) (w : world) :
  throttled w (with_obj (add_downloaded index n (obj w)) w).
Proof.
  unfold throttled, new_progress, new_state_writes, new_paused.
  cbn [with_obj events effects obj]. unfold add_downloaded.
  cbn [set_downloadedBytesPerChunk lastTickTime lastSaveTime]. lia.
Qed.

Lemma throttled_loop (index : Z) (its : list stream_item) (e : stream_end) :
  forall (pos : Z) (w : world),
    throttled w (fst (downloadChunk_loop index its e pos w)).
Proof.
  induction its as [|it its IH]; intros pos w.
  - cbn [downloadChunk_loop]. destruct e; apply throttled_refl.
  - destruct it as [n now piw|]; cbn [downloadChunk_loop].
    + destruct (aborted (obj w)); [apply throttled_refl|].
      eapply throttled_trans; [|apply IH].
      eapply throttled_trans; [|apply throttled_probe].
      eapply throttled_trans; [|apply throttled_counted].
      eapply throttled_trans; [apply (throttled_perform (FxWrite pos n)); reflexivity|].
      destruct piw; [apply throttled_pause | apply throttled_refl].
    + eapply throttled_trans; [apply throttled_pause | apply IH].
Qed.

Lemma throttled_supervisor (index start end_ : Z) (scripts : list attempt_script) :
  forall (a : Z) (w : world),
    throttled w (fst (downloadChunkWithRetry index start end_ a scripts w)).
Proof.
  induction scripts as [|s rest IH]; intros a w; cbn [downloadChunkWithRetry].
  - destruct (aborted (obj w)); cbn [fst];
      [apply throttled_refl | apply throttled_perform; reflexivity].
  - destruct (aborted (obj w)); cbn [fst]; [apply throttled_refl|].
    assert (Hc : throttled w (fst (downloadChunk index start end_ s w))).
    { unfold downloadChunk. eapply throttled_trans; [|apply throttled_loop].
      apply throttled_perform. reflexivity. }
    destruct (downloadChunk index start end_ s w) as [w1 [msg|]]; cbn [fst] in *;
      [|exact Hc].
    destruct (aborted (obj w1)); cbn [fst]; [exact Hc|].
    destruct (a <=? maxRetries); cbn [fst]; [|exact Hc].
    eapply throttled_trans; [exact Hc|].
    eapply throttled_trans; [|apply IH].
    eapply throttled_trans; [apply (throttled_perform (FxBackoff a)); reflexivity|].
    destruct (paused_in_backoff s); [apply throttled_pause | apply throttled_refl].
Qed.

(** Progress events are throttled. Whatever the network delivers to a
    supervised segment and whenever the caller pauses, the progress events
    it emits are more than 1000 ms of [lastTickTime] apart: [m] events move
    [lastTickTime] on by more than [1000 * m] ms. *)
Theorem progress_events_are_throttled (s : dispatch)
    (scripts : list attempt_script) (w : world) :
  let w' := fst (supervise s scripts w) in
  let m := new_progress w w' in
  0 <= m
  /\ 1000 * m <= lastTickTime (obj w') - lastTickTime (obj w)
  /\ (m = 0 \/ 1000 * m < lastTickTime (obj w') - lastTickTime (obj w)).
Proof.
  cbn zeta. unfold supervise.
  destruct (throttled_supervisor (seg_index s) (seg_start s) (seg_end s)
              scripts 1 w) as [Ht _].
  assert (Hm : 0 <= new_progress w
                      (fst (downloadChunkWithRetry (seg_index s) (seg_start s)
                              (seg_end s) 1 scripts w))).
  { clear Ht. unfold new_progress.
    enough (H : forall idx st en sc a w0,
               (count_progress (events w0)
                <= count_progress
                     (events (fst (downloadChunkWithRetry idx st en a sc w0))))%nat)
      by (specialize (H (seg_index s) (seg_start s) (seg_end s) scripts 1 w); lia).
    clear. intros idx st en sc.
    assert (Hpause : forall w0,
               (count_progress (events w0) <= count_progress (events (pause w0)))%nat).
    { intros w0. change (events (pause w0)) with (events w0 ++ [EvPaused]).
      rewrite count_progress_app. lia. }
    assert (Hloop : forall its e pos w0,
               (count_progress (events w0)
                <= count_progress
                     (events (fst (downloadChunk_loop idx its e pos w0))))%nat).
    { induction its as [|it its IH]; intros e pos w0.
      - cbn [downloadChunk_loop]. destruct e; cbn [fst]; lia.
      - destruct it as [n now piw|]; cbn [downloadChunk_loop].
        + destruct (aborted (obj w0)); cbn [fst]; [lia|].
          etransitivity; [|apply IH].
          match goal with
          | |- (_ <= count_progress (events (checkAndEmitProgress ?t ?x)))%nat =>
            destruct (checkAndEmitProgress_spec t x) as (Hev & _);
              cbn zeta in Hev; rewrite Hev, count_progress_app
          end.
          cbn [with_obj events].
          destruct piw; [specialize (Hpause (perform (FxWrite pos n) w0))|];
            cbn [perform events] in *; lia.
        + etransitivity; [apply Hpause | apply IH]. }
    induction sc as [|a0 rest IH]; intros a w0; cbn [downloadChunkWithRetry].
    - destruct (aborted (obj w0)); cbn [fst perform events]; lia.
    - destruct (aborted (obj w0)); cbn [fst]; [lia|].
      pose proof (Hloop (items a0) (ending a0) st (perform (FxGet idx st en) w0))
        as Hc.
      unfold downloadChunk.
      destruct (downloadChunk_loop idx (items a0) (ending a0) st
                  (perform (FxGet idx st en) w0)) as [w1 [msg|]];
        cbn [fst perform events] in *; [|exact Hc].
      destruct (aborted (obj w1)); cbn [fst]; [exact Hc|].
      destruct (a <=? maxRetries); cbn [fst]; [|exact Hc].
      etransitivity; [exact Hc|]. etransitivity; [|apply IH].
      destruct (paused_in_backoff a0);
        [specialize (Hpause (perform (FxBackoff a) w1))|];
        cbn [perform events] in *; lia. }
  split; [exact Hm|]. split; [lia|].
  destruct (Z.eq_dec (new_progress w
              (fst (downloadChunkWithRetry (seg_index s) (seg_start s)
                      (seg_end s) 1 scripts w))) 0) as [E|E]; [left; exact E|].
  right. lia.
Qed.

(** Snapshots are throttled. Apart from the one snapshot that each
    [pause()] writes, the snapshots a supervised segment triggers are more
    than 5000 ms of [lastSaveTime] apart: [k] of them move [lastSaveTime]
    on by at least [5001 * k] ms. *)
Theorem snapshots_are_throttled (s : dispatch) (scripts : list attempt_script)
    (w : world) :
  let w' := fst (supervise s scripts w) in
  5001 * (new_state_writes w w' - new_paused w w')
  <= lastSaveTime (obj w') - lastSaveTime (obj w).
Proof.
  cbn zeta. unfold supervise.
  exact (proj2 (throttled_supervisor (seg_index s) (seg_start s) (seg_end s)
                  scripts 1 w)).
Qed.

(** ** Runs of the controller *)

Lemma begin_download_requests (w : world) :
  aborted (obj w) = false ->
  begin_download w
  = {| ctl_world := {| obj := obj w; events := events w;
                       effects := effects w ++ first_requests (obj w) |};
       ctl_pc := AwaitWorkers |}.
Proof.
  intros Ha. unfold begin_download, first_requests. f_equal.
  generalize (downloadParallel_plan (obj w)). intros l.
  destruct w as [d evs fx]. cbn [obj events effects] in *.
  revert fx. induction l as [|s l IH]; intros fx.
  - cbn. rewrite app_nil_r. reflexivity.
  - cbn [fold_left map]. unfold supervise at 2.
    cbn [downloadChunkWithRetry obj]. rewrite Ha. cbn [fst].
    unfold perform at 1. cbn [obj events effects].
    rewrite IH, <- app_assoc. reflexivity.
Qed.


Lemma after_probe_world (w : world) :
  after_probe w
  = {| ctl_world :=
         {| obj := obj w;
            events := events w ++ [EvStart (totalBytes (obj w)) (fileName (obj w))
                                     (uuid (obj w))];
            effects := effects w ++ preparation (obj w) |};
       ctl_pc := AwaitOpenRW |}.
Proof.
  unfold after_probe, preparation, saveState, perform, emit. cbn [obj events effects].
  rewrite <- !app_assoc. reflexivity.
Qed.







(** ** The probe *)

Lemma start_unknown_size (now : Z) (w : world) :
  totalBytes (obj w) = 0 ->
  start now w
  = {| ctl_world := perform (FxHead (url (obj w))) (with_obj (started now (obj w)) w);
       ctl_pc := AwaitHead |}.
Proof.
  intros HT. unfold start, started.
  replace (totalBytes (set_clock now now _ (set_flags false false (obj w))))
    with (totalBytes (obj w)) by reflexivity.
  rewrite HT. reflexivity.
Qed.

Lemma refine_fileName_fields (env : Env) (cd : option jsstring) (d : Downloader) :
  let d' := refine_fileName env cd d in
  url d' = url d /\ outputDir d' = outputDir d /\ stateDir d' = stateDir d
  /\ uuid d' = uuid d /\ stateFilePath d' = stateFilePath d
  /\ numConnections d' = numConnections d /\ totalBytes d' = totalBytes d
  /\ downloadedBytesPerChunk d' = downloadedBytesPerChunk d
  /\ isPaused d' = isPaused d.
Proof.
  cbn zeta. unfold refine_fileName. destruct cd as [h|]; [|repeat split].
  destruct (truthy_str h); [|repeat split].
  destruct (match_filename h); repeat split.
Qed.

(** A probe that fails. When the request of the probe is rejected (time
    out, transport error) the job ends with an [error] event that carries
    the error's message; nothing is saved, opened or requested. *)
Theorem probe_failure_is_surfaced (env : Env) (now : Z) (w : world)
    (msg : jsstring) :
  totalBytes (obj w) = 0 ->
  exists c,
    run env (start now w) [LHead (HeadFailed msg)] = Some c
    /\ ctl_pc c = Finished
    /\ events (ctl_world c) = events w ++ [EvError msg]
    /\ effects (ctl_world c) = effects w ++ [FxHead (url (obj w))].
Proof.
  intros HT. rewrite (start_unknown_size now w HT).
  cbn [run step ctl_pc ctl_world after_head]. eexists. split; [reflexivity|].
  unfold outer_catch, perform, emit, with_obj, started.
  cbn [obj events effects set_clock set_flags aborted negb ctl_pc ctl_world].
  repeat split; reflexivity.
Qed.

Lemma probe_failure_is_surfaced_witness :
  totalBytes (obj (sample_world 0 4)) = 0
  /\ exists c,
       run sample_env (start 3 (sample_world 0 4))
         [LHead (HeadFailed (lit "timeout of 10000ms exceeded"))] = Some c
       /\ events (ctl_world c) = [EvError (lit "timeout of 10000ms exceeded")].
Proof.
  assert (H : totalBytes (obj (sample_world 0 4)) = 0) by reflexivity.
  split; [exact H|].
  destruct (probe_failure_is_surfaced sample_env 3 (sample_world 0 4)
              (lit "timeout of 10000ms exceeded") H) as (c & Hrun & _ & Hev & _).
  exists c. split; [exact Hrun|]. rewrite Hev. reflexivity.
Defined.

(** A probe that succeeds. The object takes the size the header declares
    and keeps its identity, directories and progress; the [start] event and
    the record saved before the temp file is opened carry the size and the
    file name the object holds after the probe. *)
Theorem probe_success (env : Env) (now : Z) (w : world)
    (cd : option jsstring) (size : jsstring) :
  totalBytes (obj w) = 0 ->
  truthy_str size = true ->
  exists c,
    run env (start now w) [LHead (HeadOk cd (Some size))] = Some c
    /\ ctl_pc c = AwaitOpenRW
    /\ totalBytes (obj (ctl_world c)) = parseInt10 env size
    /\ uuid (obj (ctl_world c)) = uuid (obj w)
    /\ downloadedBytesPerChunk (obj (ctl_world c)) = downloadedBytesPerChunk (obj w)
    /\ numConnections (obj (ctl_world c)) = numConnections (obj w)
    /\ events (ctl_world c)
       = events w ++ [EvStart (parseInt10 env size) (fileName (obj (ctl_world c)))
                        (uuid (obj w))]
    /\ effects (ctl_world c)
       = effects w ++ [FxHead (url (obj w))] ++ preparation (obj (ctl_world c)).
Proof.
  intros HT Hs. rewrite (start_unknown_size now w HT).
  cbn [run step ctl_pc ctl_world]. unfold after_head. rewrite Hs.
  rewrite after_probe_world. eexists. split; [reflexivity|].
  cbn [ctl_pc ctl_world obj events effects with_obj perform].
  destruct (refine_fileName_fields env cd (started now (obj w)))
    as (_ & _ & _ & Hu & _ & Hn & _ & Hv & _).
  cbn zeta in *. split; [reflexivity|]. split; [reflexivity|].
  split; [exact Hu|]. split; [exact Hv|]. split; [exact Hn|].
  cbn [uuid set_totalBytes totalBytes fileName]. rewrite Hu.
  split; [reflexivity|]. rewrite <- app_assoc. reflexivity.
Qed.

Lemma probe_success_witness :
  totalBytes named_job = 0
  /\ truthy_str (lit "1000") = true
  /\ exists c,
       run sample_env (start 0 (world_of named_job)) [LHead probe_with_name] = Some c
       /\ events (ctl_world c)
          = [EvStart 1000 (lit "server_name.bin") (lit "job-2")].
Proof.
  assert (H1 : totalBytes (obj (world_of named_job)) = 0) by reflexivity.
  assert (H2 : truthy_str (lit "1000") = true) by reflexivity.
  split; [exact H1|]. split; [exact H2|].
  destruct (probe_success sample_env 0 (world_of named_job)
              (Some QUOTED_SERVER_NAME) (lit "1000") H1 H2)
    as (c & Hrun & _ & _ & _ & _ & _ & Hev & _).
  exists c. split; [exact Hrun|]. rewrite Hev.
  assert (Hc : Some c = Some (after_head sample_env probe_with_name
                                (ctl_world (start 0 (world_of named_job)))))
    by (rewrite <- Hrun; reflexivity).
  injection Hc as ->. vm_compute. reflexivity.
Defined.

(** ** An empty file *)

Lemma count_gets_app (a b : list effect) :
  count_gets (a ++ b) = (count_gets a + count_gets b)%nat.
Proof. unfold count_gets, gets. rewrite List.filter_app. apply length_app. Qed.

Lemma count_gets_preparation (d : Downloader) : count_gets (preparation d) = 0%nat.
Proof. reflexivity. Qed.


Lemma plan_empty_file_any (N : Z) (vec : list cell) :
  Forall (fun c => 0 <= cell_or_zero (Some c)) vec -> plan 0 N vec = [].
Proof.
  intros Hvec. unfold plan. apply omap_all_None. intros i _.
  unfold plan_segment. rewrite Zdiv_0_l, Z.mul_0_r.
  pose proof (progress_of_nonneg vec i Hvec) as Hp. unfold progress_of in Hp.
  replace (0 + cell_or_zero (vec !! Z.to_nat i)
           <=? (if i =? N - 1 then 0 - 1 else 0 + 0 - 1)) with false;
    [reflexivity|].
  symmetry. apply Z.leb_gt. destruct (i =? N - 1); lia.
Qed.

(** A file the server declares empty. When the probe reads a size of 0
    and no counter is negative, no range is requested: the controller
    saves the state, opens the temp file, closes it, renames it to the
    final path and emits [complete]. *)
Theorem empty_file_completes (env : Env) (now : Z) (w : world)
    (cd : option jsstring) (size : jsstring) :
  totalBytes (obj w) = 0 ->
  truthy_str size = true ->
  parseInt10 env size = 0 ->
  Forall (fun c => 0 <= cell_or_zero (Some c)) (downloadedBytesPerChunk (obj w)) ->
  exists c,
    run env (start now w)
      [LHead (HeadOk cd (Some size)); LOpen None; LWorkersSettled None; LClose]
    = Some c
    /\ ctl_pc c = Finished
    /\ events (ctl_world c)
       = events w ++ [EvStart 0 (fileName (obj (ctl_world c))) (uuid (obj w));
                      EvComplete (finalFilePath (obj (ctl_world c)))]
    /\ effects (ctl_world c)
       = effects w ++ [FxHead (url (obj w))] ++ preparation (obj (ctl_world c))
         ++ finalization (obj (ctl_world c))
    /\ count_gets (effects (ctl_world c)) = count_gets (effects w).
Proof.
  intros HT Hs Hp Hvec. rewrite (start_unknown_size now w HT).
  cbn [run step ctl_pc ctl_world]. unfold after_head. rewrite Hs, Hp.
  rewrite after_probe_world. cbn [run step ctl_pc ctl_world].
  rewrite begin_download_requests
    by (cbn [obj with_obj perform set_totalBytes aborted];
        rewrite refine_fileName_flags; reflexivity).
  cbn [run step ctl_pc ctl_world obj events effects with_obj perform].
  destruct (refine_fileName_fields env cd (started now (obj w)))
    as (_ & _ & _ & Hu & _ & Hn & _ & Hv & Hip).
  cbn zeta in *.
  assert (Hreq : first_requests (set_totalBytes 0
                    (refine_fileName env cd (started now (obj w)))) = []).
  { unfold first_requests, downloadParallel_plan.
    cbn [set_totalBytes totalBytes numConnections downloadedBytesPerChunk].
    rewrite Hv. cbn [started set_clock set_flags downloadedBytesPerChunk].
    rewrite plan_empty_file_any by exact Hvec. reflexivity. }
  rewrite Hreq, app_nil_r.
  unfold after_close_ok.
  cbn [obj perform set_totalBytes isPaused aborted].
  rewrite Hip, refine_fileName_flags.
  cbn [started set_clock set_flags isPaused aborted negb andb].
  eexists. split; [reflexivity|].
  cbn [ctl_pc ctl_world obj events effects perform emit uuid set_totalBytes
       fileName finalFilePath].
  split; [reflexivity|]. split; [|split].
  - rewrite Hu. rewrite <- app_assoc. reflexivity.
  - unfold finalization. cbn [tempFilePath stateFilePath set_totalBytes finalFilePath].
    rewrite <- !app_assoc. reflexivity.
  - rewrite !count_gets_app, count_gets_preparation. cbn. lia.
Qed.

Lemma empty_file_completes_witness :
  totalBytes (obj (sample_world 0 4)) = 0
  /\ truthy_str (lit "0") = true
  /\ parseInt10 sample_env (lit "0") = 0
  /\ Forall (fun c => 0 <= cell_or_zero (Some c))
            (downloadedBytesPerChunk (obj (sample_world 0 4)))
  /\ exists c,
       run sample_env (start 3 (sample_world 0 4))
         [LHead (HeadOk None (Some (lit "0"))); LOpen None; LWorkersSettled None;
          LClose] = Some c
       /\ count_gets (effects (ctl_world c)) = 0%nat.
Proof.
  assert (H1 : totalBytes (obj (sample_world 0 4)) = 0) by reflexivity.
  assert (H2 : truthy_str (lit "0") = true) by reflexivity.
  assert (H3 : parseInt10 sample_env (lit "0") = 0) by reflexivity.
  assert (H4 : Forall (fun c => 0 <= cell_or_zero (Some c))
                      (downloadedBytesPerChunk (obj (sample_world 0 4))))
    by (repeat constructor; cbn; lia).
  split; [exact H1|]. split; [exact H2|]. split; [exact H3|]. split; [exact H4|].
  destruct (empty_file_completes sample_env 3 (sample_world 0 4) None (lit "0")
              H1 H2 H3 H4) as (c & Hrun & _ & _ & _ & Hg).
  exists c. split; [exact Hrun|]. rewrite Hg. reflexivity.
Defined.

(** ** More on file names *)

Lemma non_quote_run_no_quote (s : jsstring) : QUOTE ∉ non_quote_run s.
Proof.
  induction s as [|c s IH]; cbn [non_quote_run]; [apply not_elem_of_nil|].
  destruct (N.eqb c QUOTE) eqn:E; [apply not_elem_of_nil|].
  apply N.eqb_neq in E. intros H. apply elem_of_cons in H as [H | H];
    [congruence | exact (IH H)].
Qed.

Lemma match_after_eq_group (s g : jsstring) :
  match_after_eq s = Some g -> g <> [] /\ QUOTE ∉ g.
Proof.
  unfold match_after_eq. destruct s as [|c t]; [discriminate|].
  destruct (N.eqb c QUOTE) eqn:E.
  - destruct (non_quote_run t) as [|x r] eqn:Er; [discriminate|].
    intros [= <-]. split; [discriminate|]. rewrite <- Er.
    apply non_quote_run_no_quote.
  - intros [= <-]. split.
    + cbn [non_quote_run]. rewrite E. discriminate.
    + apply (non_quote_run_no_quote (c :: t)).
Qed.

Lemma match_filename_group (h g : jsstring) :
  match_filename h = Some g -> g <> [] /\ QUOTE ∉ g.
Proof.
  induction h as [|c t IH]; [discriminate|]. cbn [match_filename].
  destruct (starts_with FILENAME_EQ (c :: t)); [|exact IH].
  destruct (match_after_eq _) as [g'|] eqn:E; [|exact IH].
  intros [= <-]. exact (match_after_eq_group _ _ E).
Qed.

Lemma getFileNameFromUrl_ret (env : Env) (u : jsstring) :
  exists name,
    getFileNameFromUrl env u = Ret name
    /\ name <> []
    /\ Forall (fun c => allowed_char c = true) name.
Proof.
  eexists. split; [apply getFileNameFromUrl_cases|].
  destruct (URL_pathname env u) as [pathname|];
    [|split; [discriminate | apply default_name_allowed]].
  cbn zeta. destruct (NodePath.basename pathname None) as [|c seg].
  - cbn. split; [discriminate | apply default_name_allowed].
  - cbn [truthy_str negb orb]. destruct (str_eqb (c :: seg) (lit "/")).
    + split; [discriminate | apply default_name_allowed].
    + split; [apply sanitizeFileName_nonempty; discriminate
             | apply sanitizeFileName_allowed].
Qed.

(** The file name is never empty. The name the constructor chooses is not
    empty, and it stays so whatever the probe answers; a name that does
    not come from the caller (derived from the URL, or suggested by the
    server) has only characters of the sanitised set. *)
Theorem file_name_is_never_empty (env : Env) (u dir : jsstring)
    (options : DownloaderOptions) (nowStr : jsstring) (d : Downloader)
    (cd : option jsstring) :
  constructor env u dir options nowStr = Ret d ->
  let name := fileName (refine_fileName env cd d) in
  fileName d <> []
  /\ name <> []
  /\ (str_or (opt_fileName options) [] = [] ->
      Forall (fun c => allowed_char c = true) name)
  /\ (forall h g, cd = Some h -> match_filename h = Some g ->
      name = sanitizeFileName g /\ Forall (fun c => allowed_char c = true) name).
Proof.
  intros Hc. cbn zeta.
  destruct (constructor_fields _ _ _ _ _ _ Hc) as (name & vec & Hn & _ & Hname & _).
  assert (Hd : fileName d <> []
               /\ (str_or (opt_fileName options) [] = [] ->
                   Forall (fun c => allowed_char c = true) (fileName d))).
  { rewrite Hname. unfold str_or.
    destruct (getFileNameFromUrl_ret env u) as (nm & Hu & Hne & Hal).
    destruct (opt_fileName options) as [f|].
    - destruct (truthy_str f) eqn:Ef.
      + injection Hn as <-. split; [apply truthy_str_nonempty, Ef|].
        intros ->. discriminate Ef.
      + rewrite Hu in Hn. injection Hn as <-. split; [exact Hne | intros _; exact Hal].
    - rewrite Hu in Hn. injection Hn as <-. split; [exact Hne | intros _; exact Hal]. }
  destruct Hd as [Hd1 Hd2]. split; [exact Hd1|].
  assert (Hserved : forall h g, cd = Some h -> match_filename h = Some g ->
             fileName (refine_fileName env cd d) = sanitizeFileName g).
  { intros h g -> Hm. rewrite (refine_fileName_served env h g d Hm). reflexivity. }
  destruct cd as [h|]; [destruct (match_filename h) as [g|] eqn:Em|].
  - rewrite (Hserved h g eq_refl Em).
    destruct (match_filename_group h g Em) as [Hg _].
    split; [apply sanitizeFileName_nonempty, Hg|].
    split; [intros _; apply sanitizeFileName_allowed|].
    intros h' g' [= <-] Hm'. rewrite Em in Hm'. injection Hm' as <-.
    split; [reflexivity | apply sanitizeFileName_allowed].
  - rewrite refine_fileName_kept by exact Em.
    split; [exact Hd1|]. split; [exact Hd2|].
    intros h' g' [= <-] Hm'. rewrite Em in Hm'. discriminate Hm'.
  - rewrite refine_fileName_kept by exact I.
    split; [exact Hd1|]. split; [exact Hd2|].
    intros h' g' Hh. discriminate Hh.
Qed.

Lemma file_name_is_never_empty_witness :
  constructor sample_env (lit "http://host/d?id=42") (lit "/out") named_options
    (lit "1700000000000") = Ret named_job
  /\ fileName (refine_fileName sample_env (Some QUOTED_SERVER_NAME) named_job) <> [].
Proof.
  assert (H1 : constructor sample_env (lit "http://host/d?id=42") (lit "/out")
                 named_options (lit "1700000000000") = Ret named_job)
    by reflexivity.
  split; [exact H1|].
  exact (proj1 (proj2 (file_name_is_never_empty sample_env _ _ _ _ _
                         (Some QUOTED_SERVER_NAME) H1))).
Defined.

Lemma replace_disallowed_id (s : jsstring) :
  Forall (fun c => allowed_char c = true) s -> replace_disallowed s = s.
Proof.
  unfold replace_disallowed. induction 1 as [|c s Hc _ IH]; [reflexivity|].
  cbn [map]. rewrite Hc, IH. reflexivity.
Qed.

Lemma sanitizeFileName_fixed (s : jsstring) :
  Forall (fun c => allowed_char c = true) s -> len s <= 100 ->
  sanitizeFileName s = s.
Proof.
  intros Ha Hl. rewrite sanitizeFileName_short; rewrite replace_disallowed_id;
    auto.
Qed.

(** Sanitising twice. A name made of characters of the set and at most 100
    long is returned as it is; so, whenever the extension found in the
    replaced name has at most 100 characters, sanitising the result again
    changes nothing. *)
Theorem sanitizeFileName_idempotent (name : jsstring) :
  len (NodePath.extname (replace_disallowed name)) <= 100 ->
  sanitizeFileName (sanitizeFileName name) = sanitizeFileName name.
Proof.
  intros Hext. apply sanitizeFileName_fixed; [apply sanitizeFileName_allowed|].
  pose proof (sanitizeFileName_length name) as Hl. cbn zeta in Hl.
  rewrite Hl. destruct (100 <? _) eqn:E; [lia | apply Z.ltb_ge, E].
Qed.

Lemma sanitizeFileName_idempotent_witness :
  len (NodePath.extname (replace_disallowed long_name)) <= 100
  /\ sanitizeFileName (sanitizeFileName long_name) = sanitizeFileName long_name.
Proof.
  assert (H : len (NodePath.extname (replace_disallowed long_name)) <= 100)
    by (apply Z.leb_le; vm_compute; reflexivity).
  split; [exact H | exact (sanitizeFileName_idempotent long_name H)].
Defined.

(** ** Resuming from a saved record *)

(** The record that [saveState] writes rebuilds the job. From the record
    of a job (whose progress vector holds numbers only, so that it comes
    back from the file as written), [resume-download] builds a downloader
    with the same URL, directory, file name, size, number of connections,
    progress and id, with its state file in the application's state
    directory and its flags clear; its plan is the plan of the saved job. *)
Theorem resume_rebuilds_the_job (env : Env) (d : Downloader)
    (statesDir nowStr : jsstring) :
  numConnections d <> 0 ->
  fileName d <> [] ->
  uuid d <> [] ->
  statesDir <> [] ->
  Forall is_num (downloadedBytesPerChunk d) ->
  exists d',
    resume_from_state env (state_record d) statesDir nowStr = Ret d'
    /\ url d' = url d /\ outputDir d' = outputDir d /\ fileName d' = fileName d
    /\ totalBytes d' = totalBytes d /\ numConnections d' = numConnections d
    /\ downloadedBytesPerChunk d' = downloadedBytesPerChunk d
    /\ uuid d' = uuid d
    /\ stateDir d' = statesDir
    /\ stateFilePath d' = path_join env statesDir (uuid d ++ JSON_SUFFIX)
    /\ finalFilePath d' = path_join env (outputDir d) (fileName d)
    /\ tempFilePath d' = path_join env (outputDir d) (fileName d) ++ PART_SUFFIX
    /\ aborted d' = false /\ isPaused d' = false
    /\ downloadParallel_plan d' = downloadParallel_plan d.
Proof.
  intros HN Hname Hid Hsd _.
  unfold resume_from_state, constructor.
  cbn [with_stateDir options_of_state state_record opt_numConnections opt_uuid
       opt_stateDir opt_fileName opt_downloadedBytesPerChunk opt_totalBytes
       st_url st_outputDir st_fileName st_totalBytes st_downloadedBytesPerChunk
       st_numConnections st_uuid st_stateDir].
  assert (Hn : num_or (Some (numConnections d)) 8 = numConnections d).
  { unfold num_or. apply Z.eqb_neq in HN. rewrite HN. reflexivity. }
  assert (Ht : num_or (Some (totalBytes d)) 0 = totalBytes d).
  { unfold num_or. destruct (totalBytes d =? 0) eqn:E; [|reflexivity].
    apply Z.eqb_eq in E. symmetry. exact E. }
  assert (Hu : str_or (Some (uuid d)) nowStr = uuid d).
  { unfold str_or. destruct (uuid d); [contradiction | reflexivity]. }
  assert (Hs : str_or (Some statesDir) (outputDir d) = statesDir).
  { unfold str_or. destruct statesDir; [contradiction | reflexivity]. }
  assert (Hf : truthy_str (fileName d) = true).
  { destruct (fileName d); [contradiction | reflexivity]. }
  rewrite Hn, Ht, Hu, Hs, Hf. cbn [bind]. eexists. split; [reflexivity|].
  unfold updatePaths, downloadParallel_plan.
  cbn [set_paths url outputDir fileName totalBytes numConnections
       downloadedBytesPerChunk uuid stateDir stateFilePath finalFilePath
       tempFilePath aborted isPaused].
  repeat split; reflexivity.
Qed.

Lemma resume_rebuilds_the_job_witness :
  numConnections (obj (sample_world 1000 4)) <> 0
  /\ fileName (obj (sample_world 1000 4)) <> []
  /\ uuid (obj (sample_world 1000 4)) <> []
  /\ lit "/state" <> []
  /\ Forall is_num (downloadedBytesPerChunk (obj (sample_world 1000 4)))
  /\ exists d',
       resume_from_state sample_env (state_record (obj (sample_world 1000 4)))
         (lit "/state") (lit "1700000000001") = Ret d'
       /\ downloadParallel_plan d' = downloadParallel_plan (obj (sample_world 1000 4)).
Proof.
  assert (H1 : numConnections (obj (sample_world 1000 4)) <> 0)
    by (vm_compute; discriminate).
  assert (H2 : fileName (obj (sample_world 1000 4)) <> [])
    by (vm_compute; discriminate).
  assert (H3 : uuid (obj (sample_world 1000 4)) <> [])
    by (vm_compute; discriminate).
  assert (H4 : lit "/state" <> []) by (vm_compute; discriminate).
  assert (H5 : Forall is_num (downloadedBytesPerChunk (obj (sample_world 1000 4))))
    by (repeat constructor).
  split; [exact H1|]. split; [exact H2|]. split; [exact H3|]. split; [exact H4|].
  split; [exact H5|].
  destruct (resume_rebuilds_the_job sample_env (obj (sample_world 1000 4))
              (lit "/state") (lit "1700000000001") H1 H2 H3 H4 H5)
    as (d' & Hr & Hrest).
  exists d'. split; [exact Hr|]. apply Hrest.
Defined.

(** ** More on the retry supervisor *)

Lemma loop_error (index : Z) (its : list stream_item) (e : stream_end) :
  forall (pos : Z) (w : world) (msg : jsstring),
    snd (downloadChunk_loop index its e pos w) = Some msg -> e = StreamError msg.
Proof.
  induction its as [|it its IH]; intros pos w msg; cbn [downloadChunk_loop].
  - destruct e; cbn [snd]; [discriminate | intros [= ->]; reflexivity].
  - destruct it as [n now piw|].
    + destruct (aborted (obj w)); [discriminate | apply IH].
    + apply IH.
Qed.

Lemma retry_threw_not_aborted (index start end_ : Z)
    (scripts : list attempt_script) :
  forall (a : Z) (w : world) (msg : jsstring),
    snd (downloadChunkWithRetry index start end_ a scripts w) = Threw msg ->
    aborted (obj (fst (downloadChunkWithRetry index start end_ a scripts w))) = false
    /\ exists s, s ∈ scripts /\ ending s = StreamError msg.
Proof.
  induction scripts as [|s rest IH]; intros a w msg;
    cbn [downloadChunkWithRetry].
  - destruct (aborted (obj w)); discriminate.
  - destruct (aborted (obj w)); [discriminate|].
    pose proof (loop_error index (items s) (ending s) start
                  (perform (FxGet index start end_) w)) as He.
    unfold downloadChunk.
    destruct (downloadChunk_loop index (items s) (ending s) start
                (perform (FxGet index start end_) w)) as [w1 [m|]];
      cbn [fst snd] in *; [|discriminate].
    destruct (aborted (obj w1)) eqn:Ha; [discriminate|].
    destruct (a <=? maxRetries).
    + intros H. destruct (IH _ _ _ H) as [H1 (s' & Hs' & He')].
      split; [exact H1|]. exists s'. split; [right; exact Hs' | exact He'].
    + cbn [fst snd]. intros [= <-]. split; [exact Ha|].
      exists s. split; [left | apply He; reflexivity].
Qed.

(** A cancelled job raises no error. A supervisor that finds the job
    aborted returns at once without a request; and when a supervisor does
    throw, the job is not aborted and the error is the one that ended one
    of its attempts. *)
Theorem supervisor_throws_only_uncancelled (s : dispatch)
    (scripts : list attempt_script) (w : world) :
  (aborted (obj w) = true -> supervise s scripts w = (w, Returned))
  /\ forall msg, snd (supervise s scripts w) = Threw msg ->
       aborted (obj (fst (supervise s scripts w))) = false
       /\ exists a, a ∈ scripts /\ ending a = StreamError msg.
Proof.
  unfold supervise. split.
  - intros Ha. destruct scripts; cbn [downloadChunkWithRetry]; rewrite Ha;
      reflexivity.
  - intros msg. apply retry_threw_not_aborted.
Qed.

Lemma supervisor_throws_only_uncancelled_witness :
  snd (supervise whole_file_segment (replicate 11 failing_attempt)
         (sample_world 100 1))
  = Threw (lit "Request failed with status code 416")
  /\ aborted (obj (fst (supervise whole_file_segment (replicate 11 failing_attempt)
                          (sample_world 100 1)))) = false.
Proof.
  assert (H : snd (supervise whole_file_segment (replicate 11 failing_attempt)
                     (sample_world 100 1))
              = Threw (lit "Request failed with status code 416"))
    by (vm_compute; reflexivity).
  split; [exact H|].
  exact (proj1 (proj2 (supervisor_throws_only_uncancelled whole_file_segment
                         (replicate 11 failing_attempt) (sample_world 100 1))
                  _ H)).
Defined.

Lemma backoffs_app (a b : list effect) : backoffs (a ++ b) = backoffs a ++ backoffs b.
Proof. unfold backoffs. apply flat_map_app. Qed.

Lemma backoffs_pause (w : world) : backoffs (effects (pause w)) = backoffs (effects w).
Proof.
  change (effects (pause w)) with
    (effects w ++ [FxWriteState (stateFilePath (obj w))
                     (state_record (set_flags true true (obj w)))]).
  rewrite backoffs_app. cbn. apply app_nil_r.
Qed.

Lemma backoffs_loop (index : Z) (its : list stream_item) (e : stream_end) :
  forall (pos : Z) (w : world),
    backoffs (effects (fst (downloadChunk_loop index its e pos w)))
    = backoffs (effects w).
Proof.
  induction its as [|it its IH]; intros pos w.
  - cbn [downloadChunk_loop]. destruct e; reflexivity.
  - destruct it as [n now piw|]; cbn [downloadChunk_loop].
    + destruct (aborted (obj w)); [reflexivity|]. rewrite IH.
      match goal with
      | |- backoffs (effects (checkAndEmitProgress ?t ?x)) = _ =>
        destruct (checkAndEmitProgress_spec t x) as (_ & Hfx & _);
          cbn zeta in Hfx; rewrite Hfx, backoffs_app
      end.
      cbn [with_obj effects].
      replace (backoffs (if _ && _ then [_] else [])) with (@nil Z)
        by (destruct (_ && _); reflexivity).
      rewrite app_nil_r.
      destruct piw; [rewrite backoffs_pause|];
        (change (effects (perform (FxWrite pos n) w))
           with (effects w ++ [FxWrite pos n]);
         rewrite backoffs_app; cbn; apply app_nil_r).
    + rewrite IH. apply backoffs_pause.
Qed.

Lemma retry_backoffs (index start end_ : Z) (scripts : list attempt_script) :
  forall (a : Z) (w : world),
  exists k : Z,
    0 <= k /\ (a <= maxRetries + 1 -> a + k <= maxRetries + 1)
    /\ backoffs (effects (fst (downloadChunkWithRetry index start end_ a scripts w)))
       = backoffs (effects w) ++ seqZ a k.
Proof.
  unfold maxRetries.
  induction scripts as [|s rest IH]; intros a w; cbn [downloadChunkWithRetry].
  - exists 0. split; [lia|]. split; [lia|].
    destruct (aborted (obj w)); cbn [fst];
      [|change (effects (perform (FxGet index start end_) w))
          with (effects w ++ [FxGet index start end_]);
        rewrite backoffs_app; cbn [backoffs flat_map app]];
      rewrite !app_nil_r; reflexivity.
  - destruct (aborted (obj w)); cbn [fst].
    { exists 0. split; [lia|]. split; [lia|]. rewrite app_nil_r. reflexivity. }
    assert (Hc : backoffs (effects (fst (downloadChunk index start end_ s w)))
                 = backoffs (effects w)).
    { unfold downloadChunk. rewrite backoffs_loop.
      change (effects (perform (FxGet index start end_) w))
        with (effects w ++ [FxGet index start end_]).
      rewrite backoffs_app. cbn. apply app_nil_r. }
    destruct (downloadChunk index start end_ s w) as [w1 [msg|]]; cbn [fst] in *.
    2:{ exists 0. split; [lia|]. split; [lia|]. rewrite app_nil_r. exact Hc. }
    destruct (aborted (obj w1)); cbn [fst].
    { exists 0. split; [lia|]. split; [lia|]. rewrite app_nil_r. exact Hc. }
    destruct (a <=? maxRetries) eqn:E; cbn [fst].
    2:{ exists 0. split; [lia|]. split; [lia|]. rewrite app_nil_r. exact Hc. }
    apply Z.leb_le in E. unfold maxRetries in E.
    destruct (IH (a + 1)
                 (if paused_in_backoff s then pause (perform (FxBackoff a) w1)
                  else perform (FxBackoff a) w1)) as (k & Hk0 & Hk & Hb).
    exists (k + 1). split; [lia|]. split; [lia|]. rewrite Hb.
    assert (Hg : backoffs (effects (if paused_in_backoff s
                                    then pause (perform (FxBackoff a) w1)
                                    else perform (FxBackoff a) w1))
                 = backoffs (effects w1) ++ [a]).
    { destruct (paused_in_backoff s); [rewrite backoffs_pause|];
        (change (effects (perform (FxBackoff a) w1))
           with (effects w1 ++ [FxBackoff a]);
         rewrite backoffs_app; reflexivity). }
    rewrite Hg, Hc, <- app_assoc. f_equal.
    rewrite (seqZ_cons a (k + 1)) by lia. cbn [app]. f_equal.
    f_equal; lia.
Qed.

(** Back-offs and requests of a supervisor, counted together. *)
Lemma retry_backoffs_requests (index start end_ : Z) (scripts : list attempt_script) :
  forall (a : Z) (w : world),
    let w' := fst (downloadChunkWithRetry index start end_ a scripts w) in
    exists k : Z,
      0 <= k /\ (a <= maxRetries + 1 -> a + k <= maxRetries + 1)
      /\ backoffs (effects w') = backoffs (effects w) ++ seqZ a k
      /\ k <= new_requests w w' <= k + 1
      /\ (aborted (obj w') = false -> new_requests w w' = k + 1).
Proof.
  unfold maxRetries, new_requests.
  induction scripts as [|s rest IH]; intros a w; cbn zeta;
    cbn [downloadChunkWithRetry].
  - exists 0. split; [lia|]. split; [lia|].
    destruct (aborted (obj w)) eqn:Ha; cbn [fst].
    + rewrite app_nil_r, Ha. split; [reflexivity|]. split; [lia | discriminate].
    + rewrite count_gets_perform.
      change (effects (perform (FxGet index start end_) w))
        with (effects w ++ [FxGet index start end_]).
      rewrite backoffs_app. cbn [backoffs flat_map app is_get].
      rewrite !app_nil_r. split; [reflexivity|]. split; lia.
  - destruct (aborted (obj w)) eqn:Ha; cbn [fst].
    { exists 0. rewrite app_nil_r, Ha. split; [lia|]. split; [lia|].
      split; [reflexivity|]. split; [lia | discriminate]. }
    assert (Hc : backoffs (effects (fst (downloadChunk index start end_ s w)))
                 = backoffs (effects w)).
    { unfold downloadChunk. rewrite backoffs_loop.
      change (effects (perform (FxGet index start end_) w))
        with (effects w ++ [FxGet index start end_]).
      rewrite backoffs_app. cbn. apply app_nil_r. }
    pose proof (count_gets_downloadChunk index start end_ s w) as Hg.
    destruct (downloadChunk index start end_ s w) as [w1 [msg|]]; cbn [fst] in *.
    2:{ exists 0. rewrite app_nil_r. split; [lia|]. split; [lia|].
        split; [exact Hc|]. split; lia. }
    destruct (aborted (obj w1)); cbn [fst].
    { exists 0. rewrite app_nil_r. split; [lia|]. split; [lia|].
      split; [exact Hc|]. split; lia. }
    destruct (a <=? maxRetries) eqn:E; cbn [fst].
    2:{ exists 0. rewrite app_nil_r. split; [lia|]. split; [lia|].
        split; [exact Hc|]. split; lia. }
    apply Z.leb_le in E. unfold maxRetries in E.
    destruct (IH (a + 1)
                 (if paused_in_backoff s then pause (perform (FxBackoff a) w1)
                  else perform (FxBackoff a) w1)) as (k & Hk0 & Hk & Hb & Hr & Hu).
    cbn zeta in Hb, Hr, Hu. rewrite count_gets_backoff in Hr, Hu.
    exists (k + 1). split; [lia|]. split; [lia|]. split; [|split].
    + rewrite Hb.
      assert (Hbk : backoffs (effects (if paused_in_backoff s
                                       then pause (perform (FxBackoff a) w1)
                                       else perform (FxBackoff a) w1))
                    = backoffs (effects w1) ++ [a]).
      { destruct (paused_in_backoff s); [rewrite backoffs_pause|];
          (change (effects (perform (FxBackoff a) w1))
             with (effects w1 ++ [FxBackoff a]);
           rewrite backoffs_app; reflexivity). }
      rewrite Hbk, Hc, <- app_assoc. f_equal.
      rewrite (seqZ_cons a (k + 1)) by lia. cbn [app]. f_equal.
      f_equal; lia.
    + lia.
    + intros Hfin. specialize (Hu Hfin). lia.
Qed.

(** The back-offs of a supervised segment. The supervisor sleeps after the
    failed attempts 1, 2, ..., [k] in this order, for some [k] of at most
    10, and there is one back-off per retry: the requests it makes are the
    first one and one after each back-off, [k + 1] in all, unless the job
    is cancelled, when the request after the last back-off (or the first
    one) may be missing. *)
Theorem backoffs_are_consecutive (s : dispatch) (scripts : list attempt_script)
    (w : world) :
  let w' := fst (supervise s scripts w) in
  exists k : Z,
    0 <= k <= 10
    /\ backoffs (effects w') = backoffs (effects w) ++ seqZ 1 k
    /\ k <= new_requests w w' <= k + 1
    /\ (aborted (obj w') = false -> new_requests w w' = k + 1).
Proof.
  cbn zeta. unfold supervise.
  destruct (retry_backoffs_requests (seg_index s) (seg_start s) (seg_end s)
              scripts 1 w) as (k & Hk0 & Hk & Hb & Hr & Hu).
  cbn zeta in Hb, Hr, Hu. unfold maxRetries in Hk.
  exists k. split; [lia|]. split; [exact Hb|]. split; [exact Hr | exact Hu].
Qed.

Lemma backoffs_are_consecutive_witness :
  let w := sample_world 100 1 in
  let w' := fst (supervise whole_file_segment (replicate 11 failing_attempt) w) in
  aborted (obj w') = false
  /\ new_requests w w' = 11
  /\ backoffs (effects w') = seqZ 1 10.
Proof.
  cbn zeta.
  assert (Ha : aborted (obj (fst (supervise whole_file_segment
                                    (replicate 11 failing_attempt)
                                    (sample_world 100 1)))) = false)
    by (vm_compute; reflexivity).
  assert (Hn : new_requests (sample_world 100 1)
                 (fst (supervise whole_file_segment (replicate 11 failing_attempt)
                         (sample_world 100 1))) = 11)
    by (vm_compute; reflexivity).
  split; [exact Ha|]. split; [exact Hn|].
  destruct (backoffs_are_consecutive whole_file_segment
              (replicate 11 failing_attempt) (sample_world 100 1))
    as (k & _ & Hb & _ & Hu).
  cbn zeta in Hb, Hu. specialize (Hu Ha). rewrite Hn in Hu.
  assert (Hk : k = 10) by lia. subst k. exact Hb.
Defined.

Lemma sum_Q_app (l1 l2 : list Q) :
  (fold_right Qplus 0 (l1 ++ l2) == fold_right Qplus 0 l1 + fold_right Qplus 0 l2)%Q.
Proof.
  induction l1 as [|x l IH]; cbn [app fold_right].
  - symmetry. apply Qplus_0_l.
  - rewrite IH. apply Qplus_assoc.
Qed.

(** The time a supervisor sleeps. The delays of its back-offs are
    [min(1000 * 1.5^a, 10000)] ms for [a = 1, 2, ...]; over the at most 10
    retries of a segment they add up to at most 69781.25 ms. *)
Theorem total_backoff_is_bounded (s : dispatch) (scripts : list attempt_script)
    (w : world) :
  (total_backoff (effects (fst (supervise s scripts w)))
   <= total_backoff (effects w) + (279125 # 4))%Q.
Proof.
  unfold supervise, total_backoff.
  destruct (retry_backoffs (seg_index s) (seg_start s) (seg_end s) scripts 1 w)
    as (k & Hk0 & Hk & Hb).
  unfold maxRetries in Hk. rewrite Hb, map_app, sum_Q_app.
  apply Qplus_le_r.
  assert (Hcases : k = 0 \/ k = 1 \/ k = 2 \/ k = 3 \/ k = 4 \/ k = 5 \/ k = 6
                   \/ k = 7 \/ k = 8 \/ k = 9 \/ k = 10) by lia.
  repeat (destruct Hcases as [-> | Hcases]);
    try (apply Qle_bool_imp_le; vm_compute; reflexivity).
  subst k. apply Qle_bool_imp_le. vm_compute. reflexivity.
Qed.

Example backoff_delays_of_ten_retries :
  Forall2 Qeq (map backoff_delay (seqZ 1 10))
    [ 1500#1; 2250#1; 3375#1; 10125#2; 30375#4;
      10000#1; 10000#1; 10000#1; 10000#1; 10000#1 ]%Q
  /\ (fold_right Qplus 0 (map backoff_delay (seqZ 1 10)) == 279125 # 4)%Q.
Proof.
  split; [|apply Qeq_bool_eq; vm_compute; reflexivity].
  vm_compute. repeat constructor.
Qed.

(** * The history catalog *)

Lemma find_in_cons (id : jsstring) (h : HistoryEntry) (l : list HistoryEntry) :
  find_in id (h :: l) = if decide (h_uuid h = id) then Some h else find_in id l.
Proof.
  unfold find_in. cbn [list_find]. destruct (decide (h_uuid h = id)); [reflexivity|].
  destruct (list_find _ l) as [[i x]|]; reflexivity.
Qed.

Lemma find_in_json (id : jsstring) (l : list HistoryEntry) :
  find_in id (json_entry <$> l) = json_entry <$> find_in id l.
Proof.
  induction l as [|h l IH]; [reflexivity|].
  rewrite fmap_cons, !find_in_cons. cbn [json_entry h_uuid].
  destruct (decide (h_uuid h = id)); [reflexivity | exact IH].
Qed.

Lemma find_in_filter_other (id id0 : jsstring) (l : list HistoryEntry) :
  id <> id0 ->
  find_in id (filter (fun h => h_uuid h <> id0) l) = find_in id l.
Proof.
  intros Hne. induction l as [|h l IH]; [reflexivity|].
  rewrite filter_cons, find_in_cons.
  destruct (decide (h_uuid h <> id0)) as [Hk | Hk].
  - rewrite find_in_cons, IH. reflexivity.
  - rewrite IH. destruct (decide (h_uuid h = id)) as [E|E]; [|reflexivity].
    exfalso. apply Hk. congruence.
Qed.

Lemma find_in_filter_same (id : jsstring) (l : list HistoryEntry) :
  find_in id (filter (fun h => h_uuid h <> id) l) = None.
Proof.
  induction l as [|h l IH]; [reflexivity|].
  rewrite filter_cons. destruct (decide (h_uuid h <> id)) as [Hk | Hk];
    [|exact IH].
  rewrite find_in_cons, IH. destruct (decide (h_uuid h = id)); [contradiction|].
  reflexivity.
Qed.

Lemma find_in_None (id : jsstring) (l : list HistoryEntry) :
  find_in id l = None <-> list_find (fun h => h_uuid h = id) l = None.
Proof.
  unfold find_in. destruct (list_find _ l) as [[i x]|]; cbn; split;
    congruence.
Qed.

Lemma find_in_Some (id : jsstring) (l : list HistoryEntry) (h : HistoryEntry) :
  find_in id l = Some h ->
  exists i, list_find (fun h => h_uuid h = id) l = Some (i, h) /\ h_uuid h = id.
Proof.
  unfold find_in. destruct (list_find _ l) as [[i x]|] eqn:E; [|discriminate].
  cbn. intros [= ->]. exists i. split; [reflexivity|].
  apply list_find_Some in E. apply E.
Qed.

Lemma find_in_insert (id id' : jsstring) (l : list HistoryEntry) (i : nat)
    (h h' : HistoryEntry) :
  list_find (fun x => h_uuid x = id) l = Some (i, h) ->
  h_uuid h' = id ->
  find_in id' (<[i := h']> l) = if decide (id = id') then Some h' else find_in id' l.
Proof.
  revert i. induction l as [|x l IH]; intros i Hf Hu; [discriminate|].
  cbn [list_find] in Hf. destruct (decide (h_uuid x = id)) as [E|E].
  - injection Hf as <- <-. cbn [insert list_insert]. rewrite !find_in_cons.
    rewrite Hu, E. destruct (decide (id = id')); reflexivity.
  - destruct (list_find _ l) as [[j y]|] eqn:El; [|discriminate].
    cbn in Hf. injection Hf as <- <-. cbn [insert list_insert].
    rewrite !find_in_cons. specialize (IH j eq_refl Hu).
    destruct (decide (h_uuid x = id')) as [E'|E']; [|exact IH].
    destruct (decide (id = id')) as [E''|E'']; [congruence | reflexivity].
Qed.

Lemma uuids_insert (id : jsstring) (l : list HistoryEntry) (i : nat)
    (h h' : HistoryEntry) :
  list_find (fun x => h_uuid x = id) l = Some (i, h) ->
  h_uuid h' = id ->
  h_uuid <$> <[i := h']> l = h_uuid <$> l.
Proof.
  intros Hf Hu. apply list_find_Some in Hf as (Hl & Hh & _).
  rewrite list_fmap_insert. apply list_insert_id.
  rewrite list_lookup_fmap, Hl. cbn. congruence.
Qed.

Lemma uuids_json (l : list HistoryEntry) :
  h_uuid <$> (json_entry <$> l) = h_uuid <$> l.
Proof. rewrite <- list_fmap_compose. reflexivity. Qed.

Lemma uuids_filter (id : jsstring) (l : list HistoryEntry) :
  h_uuid <$> filter (fun h => h_uuid h <> id) l
  = filter (fun u => u <> id) (h_uuid <$> l).
Proof.
  induction l as [|h l IH]; [reflexivity|].
  rewrite fmap_cons, !filter_cons.
  destruct (decide (h_uuid h <> id)); [rewrite fmap_cons|]; rewrite IH; reflexivity.
Qed.

Lemma getHistory_write (l : list HistoryEntry) :
  getHistory (write_history l) = json_entry <$> l.
Proof. reflexivity. Qed.

Lemma find_entry_find_in (id : jsstring) (f : history_file) :
  find_entry id f = find_in id (getHistory f).
Proof. reflexivity. Qed.


(** Adding an entry. [addEntry] removes every entry that has the uuid of
    the new one and puts the new entry first: looking that uuid up
    afterwards gives the new entry, any other uuid gives what it gave
    before, and uuids that were unique stay unique. *)
Theorem addEntry_replaces (e : HistoryEntry) (f : history_file) :
  let f' := fst (addEntry e f) in
  find_entry (h_uuid e) f' = Some (json_entry e)
  /\ (forall id, id <> h_uuid e -> find_entry id f' = json_entry <$> find_entry id f)
  /\ uuids f' = h_uuid e :: filter (fun u => u <> h_uuid e) (uuids f)
  /\ (NoDup (uuids f) -> NoDup (uuids f')).
Proof.
  cbn zeta. rewrite !find_entry_find_in.
  unfold uuids, addEntry, write_history. cbn [fst getHistory].
  assert (Hu : h_uuid <$> (json_entry <$>
                 e :: filter (fun h => h_uuid h <> h_uuid e) (getHistory f))
               = h_uuid e :: filter (fun u => u <> h_uuid e)
                                    (h_uuid <$> getHistory f)).
  { rewrite uuids_json, fmap_cons, uuids_filter. reflexivity. }
  split; [|split; [|split]].
  - rewrite find_in_json, find_in_cons.
    destruct (decide (h_uuid e = h_uuid e)); [reflexivity | contradiction].
  - intros id Hne. rewrite !find_entry_find_in. cbn [getHistory].
    rewrite find_in_json, find_in_cons.
    destruct (decide (h_uuid e = id)); [congruence|].
    rewrite find_in_filter_other by exact Hne. reflexivity.
  - exact Hu.
  - intros Hnd. rewrite Hu. apply NoDup_cons. split.
    + intros Hin. apply list_elem_of_filter in Hin as [Hne _]. contradiction.
    + apply NoDup_filter, Hnd.
Qed.

Lemma addEntry_replaces_witness :
  NoDup (uuids sample_history)
  /\ NoDup (uuids (fst (addEntry (sample_entry "job-2" Initializing) sample_history)))
  /\ uuids (fst (addEntry (sample_entry "job-2" Initializing) sample_history))
     = [lit "job-2"; lit "job-1"].
Proof.
  assert (H : NoDup (uuids sample_history)).
  { apply NoDup_cons. split; [|apply NoDup_singleton].
    intros Hin. apply list_elem_of_singleton in Hin. vm_compute in Hin.
    discriminate Hin. }
  split; [exact H|]. split.
  - exact (proj2 (proj2 (proj2 (addEntry_replaces
             (sample_entry "job-2" Initializing) sample_history))) H).
  - rewrite (proj1 (proj2 (proj2 (addEntry_replaces
               (sample_entry "job-2" Initializing) sample_history)))).
    vm_compute. reflexivity.
Defined.

(** Updating an entry that is not there. When no entry has the uuid,
    [updateEntry] returns the history as read and does not write the file:
    a missing or unreadable file stays as it is. *)
Theorem updateEntry_missing (id : jsstring) (u : HistoryUpdates)
    (f : history_file) :
  find_entry id f = None ->
  updateEntry id u f = (f, getHistory f).
Proof.
  intros H. unfold updateEntry. rewrite find_entry_find_in in H.
  apply find_in_None in H. rewrite H. reflexivity.
Qed.

Lemma updateEntry_missing_witness :
  find_entry (lit "job-9") NoFile = None
  /\ updateEntry (lit "job-9") (status_update Cancelled) NoFile = (NoFile, []).
Proof.
  assert (H : find_entry (lit "job-9") NoFile = None) by reflexivity.
  split; [exact H|].
  exact (updateEntry_missing (lit "job-9") (status_update Cancelled) NoFile H).
Defined.


(** Updating an entry. When an entry has the uuid and the updates carry no
    uuid, [updateEntry] overwrites the first such entry with the updates
    spread over it and writes the file: looking the uuid up gives the
    updated entry, every other uuid gives what it gave before, and the
    uuids and their order are unchanged. *)
Theorem updateEntry_found (id : jsstring) (u : HistoryUpdates)
    (f : history_file) (h : HistoryEntry) :
  find_entry id f = Some h ->
  u_uuid u = None ->
  let f' := fst (updateEntry id u f) in
  find_entry id f' = Some (json_entry (spread h u))
  /\ (forall id', id' <> id -> find_entry id' f' = json_entry <$> find_entry id' f)
  /\ uuids f' = uuids f.
Proof.
  intros Hf Hu. cbn zeta. rewrite find_entry_find_in in Hf.
  apply find_in_Some in Hf as (i & Hf & Hid).
  assert (Hsp : h_uuid (spread h u) = id)
    by (unfold spread; cbn [h_uuid]; rewrite Hu; exact Hid).
  unfold updateEntry, uuids. rewrite Hf.
  cbn [fst]. rewrite find_entry_find_in, !getHistory_write.
  split; [|split].
  - rewrite find_in_json, (find_in_insert id id _ i h _ Hf Hsp).
    destruct (decide (id = id)); [reflexivity | contradiction].
  - intros id' Hne. rewrite !find_entry_find_in, getHistory_write.
    rewrite find_in_json, (find_in_insert id id' _ i h _ Hf Hsp).
    destruct (decide (id = id')); [congruence | reflexivity].
  - rewrite uuids_json. exact (uuids_insert id _ i h _ Hf Hsp).
Qed.

Lemma updateEntry_found_witness :
  find_entry (lit "job-1") sample_history = Some (sample_entry "job-1" Downloading)
  /\ u_uuid (status_update Paused) = None
  /\ find_entry (lit "job-1")
       (fst (updateEntry (lit "job-1") (status_update Paused) sample_history))
     = Some (sample_entry "job-1" Paused).
Proof.
  assert (H1 : find_entry (lit "job-1") sample_history
               = Some (sample_entry "job-1" Downloading)) by reflexivity.
  assert (H2 : u_uuid (status_update Paused) = None) by reflexivity.
  split; [exact H1|]. split; [exact H2|].
  rewrite (proj1 (updateEntry_found (lit "job-1") (status_update Paused)
                    sample_history _ H1 H2)).
  reflexivity.
Defined.

(** Deleting an entry. [delete-entry] removes every entry with the uuid
    and keeps the others in order: the uuid is no longer found, every
    other uuid gives what it gave before, and uuids that were unique stay
    unique. *)
Theorem delete_entry_removes (id : jsstring) (f : history_file) :
  let f' := delete_entry id f in
  find_entry id f' = None
  /\ (forall id', id' <> id -> find_entry id' f' = json_entry <$> find_entry id' f)
  /\ uuids f' = filter (fun u => u <> id) (uuids f)
  /\ (NoDup (uuids f) -> NoDup (uuids f')).
Proof.
  cbn zeta. rewrite !find_entry_find_in.
  unfold uuids, delete_entry, write_history. cbn [getHistory].
  assert (Hu : h_uuid <$> (json_entry <$>
                 filter (fun h => h_uuid h <> id) (getHistory f))
               = filter (fun u => u <> id) (h_uuid <$> getHistory f))
    by (rewrite uuids_json, uuids_filter; reflexivity).
  split; [|split; [|split]].
  - rewrite find_in_json, find_in_filter_same. reflexivity.
  - intros id' Hne. rewrite !find_entry_find_in. cbn [getHistory].
    rewrite find_in_json, find_in_filter_other by exact Hne. reflexivity.
  - exact Hu.
  - intros Hnd. rewrite Hu. apply NoDup_filter, Hnd.
Qed.

Lemma delete_entry_removes_witness :
  NoDup (uuids sample_history)
  /\ NoDup (uuids (delete_entry (lit "job-1") sample_history))
  /\ uuids (delete_entry (lit "job-1") sample_history) = [lit "job-2"].
Proof.
  assert (H : NoDup (uuids sample_history)).
  { apply NoDup_cons. split; [|apply NoDup_singleton].
    intros Hin. apply list_elem_of_singleton in Hin. vm_compute in Hin.
    discriminate Hin. }
  split; [exact H|]. split.
  - exact (proj2 (proj2 (proj2 (delete_entry_removes (lit "job-1") sample_history)))
             H).
  - rewrite (proj1 (proj2 (proj2 (delete_entry_removes (lit "job-1")
                                    sample_history)))).
    vm_compute. reflexivity.
Defined.

(** ** The history of a download *)




(** * More worked examples *)

Example paused_stream_writes_one_buffer :
  let w' := fst (downloadChunk_loop 1 paused_stream EndOfStream 250
                   (sample_world 1000 4)) in
  writes (effects w') = [(250, 100)]
  /\ downloadedBytesPerChunk (obj w') = [Num 0; Num 100; Num 0; Num 0]
  /\ events w' = [EvPaused].
Proof. vm_compute. repeat split; reflexivity. Qed.

Example steady_stream_progress :
  let w' := fst (downloadChunk_loop 1 steady_stream EndOfStream 250
                   (sample_world 1000 4)) in
  writes (effects w') = [(250, 100); (350, 100); (450, 50)]
  /\ events w' = [EvProgress (Num 100) 1000 (lit "job-1");
                  EvProgress (Num 250) 1000 (lit "job-1")]
  /\ count_state_writes (effects w') = 1%nat.
Proof. vm_compute. repeat split; reflexivity. Qed.

Example history_of_a_new_download :
  uuids (fst (addEntry (sample_entry "job-3" Initializing) sample_history))
  = [lit "job-3"; lit "job-1"; lit "job-2"].
Proof. vm_compute. reflexivity. Qed.

Example history_unreadable_file :
  getHistory Unparsable = []
  /\ fst (addEntry (sample_entry "job-3" Initializing) Unparsable)
     = Stored [sample_entry "job-3" Initializing].
Proof. split; reflexivity. Qed.
